(* ===== verification/_CoqProject ===== *)
-Q . S2P
Prelude.v
Model.v
Json.v
Float.v
Bytes.v
Graph.v
ClaimGraph.v
Store.v
Projector.v
Engine.v
ClaimEngine.v
Updates.v
Scenarios.v
Paths.v
Queries.v
Api.v
ApiBody.v
Ui.v
UiForms.v
Process.v
