(* ===== verification/Prelude.v ===== *)
(** * A verification development of langgraph-ui-restful

    The repository is a resumable, human-in-the-loop workflow engine for a
    claim-handling process, written in Python on top of LangGraph:

    - [src/test.py] holds the core: the audit record [InstanceMeta]
      (lines 21-39), the claim workflow [build_claim_workflow] (lines 44-161:
      seven step functions and five guarded conditional edges), and the
      class [Engine] (lines 166-479): the index, the event log, the metadata
      projector [_update_meta_from_state], the lifecycle operations [start],
      [resume] and [_run], and the queries [get_state], [get_meta], [history]
      and [list_instances];
    - [src/workflow_backend.py] builds one process-wide store and engine;
    - [src/api.py] is the REST layer: [provide_human_input] resumes an
      instance only when its current step is in an allow-list, and
      [pending_human_steps] lists paused instances waiting at such a step;
    - [src/ui.py] is the program that runs: a Streamlit dashboard whose
      first run in a browser session starts the FastAPI app in a thread
      (lines 9-15), with a start form, a resume form that parses its
      updates with [json.loads], and a listing of all instances with a
      Mermaid diagram each.

    The components interact through one namespaced key-value store (four
    namespaces: execution state, metadata, events, index).  [start] and
    [resume] write the execution state, then call [_run], which invokes the
    graph from its entry step, projects the resulting state into the
    metadata, and appends events.  The dashboard and the API thread act
    on the same engine; the dashboard hands [engine.resume] whatever JSON
    value was typed, the API only a validated object.

    ** Files (in dependency order)

    - [Prelude]: this header; the state-and-error monad [St] used by all
      effectful code, with its notation scope [wf_scope]; the development's
      tactics and hint database [wf]; generic lemmas on lists (the
      "no two consecutive equal entries" predicate [no_stutter], append
      lemmas) shared by the components.
    - [Model]: the data of [src/test.py] as Rocq types: the JSON-like
      [Value] (floats as decimal mantissa and exponent, NaN, infinities)
      with Python truthiness, including when a decimal rounds to [0.0];
      the execution state (a dict with [bag] and [meta]), [InstanceMeta]
      and its history entries, events, the summaries returned by [_run],
      the exceptions.
    - [Json]: [json.loads] on a [str] (CPython's scanner: whitespace,
      strings with escapes and surrogate pairs as UTF-8 bytes, numbers
      with [int()]'s 4300-digit limit, the constants, NaN and Infinity,
      duplicate keys) as a parser with fuel whose result is a value or
      the exception raised; [json_text], the JSON text a client writes
      for a value, and the lemmas that [json.loads] reads it back, that
      what it parses is well formed and that the fuel suffices.
    - [Float]: [float()] of a JSON number (the double nearest the
      decimal, ties to even, or an infinity), [float.__repr__] (the
      shortest decimal that reads back, in fixed or exponent notation)
      and [json.dumps] with [ensure_ascii=False] and compact separators,
      which prints the responses of the API.
    - [Bytes]: [json.loads] on the [bytes] of a request body:
      [detect_encoding], the UTF-8 (strict or [surrogatepass]), UTF-16
      and UTF-32 decoders, [utf-8-sig]; the UTF-8 round trip
      (decode then encode is the identity), JSON text is UTF-8, and
      bytes and [str] are read alike for UTF-8 text.
    - [Graph]: the part of LangGraph's [StateGraph] the code uses, as a
      [Record] interface [StateGraph] (entry point, node functions,
      conditional edges) and its [invoke] with LangGraph's recursion limit;
      a generic termination theorem for graphs whose edges decrease a rank.
    - [ClaimGraph]: [build_claim_workflow]: the seven node functions and the
      five guards, the graph instance, an abstract specification of a
      traversal taken from the transition table of the spec, and the
      refinement, termination and idempotence theorems.
    - [Store]: the engine's store as a [World] record with one [gmap] per
      namespace and a clock, the accessors, the event log
      ([_append_event]) and the index ([_add_to_index]).
    - [Projector]: [_update_meta_from_state] and its laws (history is only
      appended to, never has two consecutive equal nodes).
    - [Engine]: [start], [resume], [_run] over any [StateGraph], and the
      lemmas on errors and on what each operation writes.
    - [ClaimEngine]: the process-wide engine of [src/workflow_backend.py]
      (graph [build_claim_workflow], name ["ClaimWorkflow"]); [start] and
      [resume] run symbolically; the step relation [engine_step] (a
      [start] with a fresh identifier, or any [resume]) and the worlds
      [reachable] from the empty store; the invariant [inv] proved by rule
      induction, and its consequences: the index is a registry without
      duplicates, histories never stutter, the status is never ["paused"],
      [resume] fails exactly on unknown identifiers, logs only grow.
    - [Updates]: [Engine.resume] when the updates are any JSON value:
      [dict.update] on a mapping (the left-biased union of [resume]), on a
      sequence of pairs (inserted one by one, with CPython's
      [TypeError]/[ValueError] part-way through), or on a scalar.
    - [Scenarios]: call sequences of the specification and of the demo
      of [src/test.py], evaluated on the model from the empty store.
    - [Paths]: the specification's testable properties over all inputs:
      every decision path of the transition table, answered one key per
      [resume], ends [completed] or [aborted] as its last step says; [N]
      starts index exactly [N] instances, which are resumed
      independently.
    - [Queries]: [list_instances] (filters, stable newest-first sort) and
      its specification (sorted, a permutation of the matching records,
      stable on equal keys as Python's sort).
    - [Api]: the two handlers of [src/api.py] with their 404/400 branches,
      the allow-list, and what they do in reachable worlds; ApiBody adds
      the GET route's rendering of the records by [to_dict].
    - [ApiBody]: the route around [provide_human_input]: the body read
      as bytes and parsed (422 on a [JSONDecodeError], 400 on any other
      error of the parse), [StepInput] validated before the handler
      (pydantic 2, lax mode), and the answer rendered by [JSONResponse]
      ([allow_nan=False], the digit limit, strict UTF-8); a client's
      encoded request is the handler's call.
    - [Ui]: [workflow_mermaid] of [src/ui.py]; the drawn diagram is proved
      to be the graph of [build_claim_workflow].
    - [UiForms]: the start form, the resume form and the listing of
      [src/ui.py] as functions of the store, and sessions of forms.
    - [Process]: the process of [src/ui.py]: browser sessions rerunning
      the script, the API thread started on a session's first run, HTTP
      requests served once a thread runs, all on one store; the worlds
      [served] by forms and POSTs, and the part [core] of the invariant
      they keep (every stored state being one a run returned does not
      survive a half-applied update).

    ** Theorems, by group

    The claims are general statements about the code; the concrete runs
    kept beside them ([Scenarios], the sessions of [UiForms], the
    examples of [Api] and [Process]) are regression tests evaluated by
    [vm_compute] and illustrate the findings.

    - Graph: refinement of the transition table (with the code's
      truthiness test, and of the table itself when the claim details
      are truthy), termination (the recursion limit is never hit) and
      idempotence of a re-run.
    - Store and projector: the index has no duplicates, the history grows
      by at most one non-repeating entry.
    - Reachable worlds (start and resume calls): the index is a
      registry, histories never stutter, logs and histories only grow,
      [resume] fails exactly on unknown identifiers, an empty [resume]
      changes neither bag nor step, and no record is ever ["paused"], so
      [GET /workflow/pending-human] is always empty; claim details that
      Python finds false stall the instance at Gather Claim Info without
      a prompt, where the table moves on.
    - Decision paths: for every path of the transition table, [start]
      and one [resume] per answer pause at each step and end the instance
      [completed] or [aborted] as the path's terminal step says; starts
      index exactly the started instances, and resumes are independent.
    - REST handler: 404, 400 and resume in reachable worlds; an encoded
      [StepInput] is the handler's call; in every world the process
      reaches, an instance at an allowed step, whatever its status, is
      run by one POST through the steps the allow-list refuses.
    - Dashboard: the start form; a resume with an object is
      [engine.resume]; a list of pairs with a bad element is stored
      half-applied, unlogged, and its [TypeError] escapes the form; an
      integer literal of more than 4300 digits raises a [ValueError] the
      form does not catch, for every key and integer; an unknown id
      changes nothing; the diagram is the claim graph.
    - Process: in every world the forms and the API reach, the index is
      a duplicate-free registry, no record is paused or stutters, GET
      answers [[]], and every started instance can still be completed;
      each browser session starts its own API thread.

    ** Bounds and fuel

    - [recursion_limit] is LangGraph's default, 25 steps per [invoke].
      The claim graph's edges strictly decrease a rank bounded by 6
      ([ClaimGraph.rank]), so every run takes at most 6 steps and never
      reaches the limit; [run_from_fuel_irrelevant] shows that more fuel
      gives the same result.
    - [json_loads] gives its parser the fuel [json_fuel], twice the
      length of the text plus one: every nested value consumes at least
      one character, and [parse_value_fuel] proves that any larger fuel
      returns the same result, so the fuel never cuts a parse short.
    - [int_max_str_digits] is 4300, the default of
      [sys.int_info.default_max_str_digits] (Python 3.11 and later); the
      theorem of the resume form covers both sides of it.  The
      decoders of Bytes recurse on the text itself (no fuel).
    - [float_repr] tries 1 to 17 significant digits: 17 always read back
      as the same double, so the search always ends with a decimal that
      reads back; [strip_zeros] runs at most 17 times, the number of
      digits it may drop.
    - Concrete runs are evaluated with [vm_compute]; no other fuel occurs.

    ** Modelling choices

    - Time: [now_iso] reads a clock kept in the world (or in the graph's
      state) and advances it, so every call returns a new, larger instant;
      ISO strings compare like these numbers.
    - [uuid4] is an argument of [start] (an oracle); theorems that need
      fresh identifiers say so.
    - Exceptions ([ValueError], LangGraph's recursion error) are the [inl]
      side of the monad [St]; the world reached before the raise is kept,
      as the Python store keeps earlier writes.
    - The store keeps a reference to the dicts it is given; where the code
      mutates a dict after [put], the model writes the mutated value again.

    - A Python [float] is kept as the decimal its text denotes; the
      double it stands for is computed where it is observed: its
      truthiness (zero after rounding to binary64) and the text
      [json.dumps] prints for it.
    - Libraries are modelled from their documented behaviour: [json]
      (CPython, on [str] and on [bytes] with its codecs), [dict.update],
      pydantic 2's validation of [StepInput], FastAPI's reading of the
      body, Starlette's [JSONResponse]; a 422 answer is its list of error
      types and locations; only the message of [int()]'s [ValueError] is
      modelled among the exceptions of [json.loads].

    Not modelled: the layout of the Streamlit widgets and the rendering of
    [st.json] and [st_mermaid] (presentation only); the text of the
    clock's instants in [to_dict] (a parameter [iso] of the GET route);
    the sign of a zero written [-0.0] (read as [0.0] by the model, so
    printed [0.0] where Python prints [-0.0]); ties between two
    [now_iso()] values (the model's clock is strictly increasing);
    the recursion limit of [json.loads] on deeply
    nested text (a [RecursionError] whose depth depends on the Python
    version and the stack in use); a request's [Content-Type] header
    (taken to be absent or JSON); keys that are not
    strings in a bag (inserted by Python, never read by the code); the
    internals of LangGraph beyond what the engine relies on (modelled from
    the specification); durable storage behind the store (the code uses an
    in-memory one).  Requests are handled one at a time: the
    read-modify-write race between the dashboard and the API threads that
    the specification describes needs a model of the shared, mutated
    dicts and of LangGraph's copying of its input, and is not modelled.
*)

From Stdlib Require Export String ZArith.
From stdpp Require Export base list gmap strings.

(** ** The state-and-error monad *)

(** A computation over a state [S] that may raise an [E]; on a raise the
    state reached so far is kept, as Python keeps the store writes that
    happened before an exception. *)
Definition St (S E A : Type) : Type := S -> (E + A) * S.

Definition ret {S E A} (a : A) : St S E A := fun s => (inr a, s).

Definition bind {S E A B} (m : St S E A) (k : A -> St S E B) : St S E B :=
  fun s => match m s with
           | (inl e, s') => (inl e, s')
           | (inr a, s') => k a s'
           end.

Definition throw {S E A} (e : E) : St S E A := fun s => (inl e, s).

Definition st_get {S E} : St S E S := fun s => (inr s, s).

Definition st_modify {S E} (f : S -> S) : St S E unit := fun s => (inr tt, f s).

Declare Scope wf_scope.
Delimit Scope wf_scope with wf.

Notation "x <- m ;; k" := (bind m (fun x => k))
  (at level 100, m at next level, right associativity) : wf_scope.
Notation "m ;; k" := (bind m (fun _ => k))
  (at level 100, right associativity) : wf_scope.

Lemma bind_ret_l {S E A B} (a : A) (k : A -> St S E B) (s : S) :
  bind (ret a) k s = k a s.
Proof. reflexivity. Qed.

Lemma bind_assoc {S E A B C} (m : St S E A) (f : A -> St S E B) (g : B -> St S E C) (s : S) :
  bind (bind m f) g s = bind m (fun x => bind (f x) g) s.
Proof. unfold bind. by destruct (m s) as [[e|a] s']. Qed.

Lemma bind_inr {S E A B} (m : St S E A) (k : A -> St S E B) s a s' :
  m s = (inr a, s') -> bind m k s = k a s'.
Proof. unfold bind. by intros ->. Qed.

Lemma bind_inl {S E A B} (m : St S E A) (k : A -> St S E B) s e s' :
  m s = (inl e, s') -> bind m k s = (inl e, s').
Proof. unfold bind. by intros ->. Qed.

(** ** Lists *)

(** No two consecutive elements are equal. *)
Fixpoint no_stutter {A} (l : list A) : Prop :=
  match l with
  | x :: ((y :: _) as t) => x <> y /\ no_stutter t
  | _ => True
  end.

Lemma no_stutter_snoc {A} (l : list A) (x : A) :
  no_stutter l -> last l <> Some x -> no_stutter (l ++ [x]).
Proof.
  induction l as [|a [|b l'] IH]; simpl; [done| |].
  - intros _ Hl. split; [congruence|done].
  - intros [Hab Hs] Hl. split; [done|]. by apply IH.
Qed.

Lemma NoDup_snoc_fresh {A} (l : list A) (x : A) :
  NoDup l -> x ∉ l -> NoDup (l ++ [x]).
Proof.
  intros Hl Hx. apply NoDup_app. split; [done|]. split.
  - intros y Hy ->%list_elem_of_singleton. done.
  - apply NoDup_singleton.
Qed.

(** ** Strings *)

(** [sep.join(l)] *)
Fixpoint join (sep : string) (l : list string) : string :=
  match l with
  | [] => EmptyString
  | [x] => x
  | x :: l' => String.append x (String.append sep (join sep l'))
  end.

Lemma str_app_cons (c : Ascii.ascii) (a b : string) :
  String.append (String c a) b = String c (String.append a b).
Proof. reflexivity. Qed.

Lemma str_app_nil_l (b : string) : String.append EmptyString b = b.
Proof. reflexivity. Qed.

(** stdpp makes [String.append] [simpl never]: the steps are by conversion. *)
Lemma str_app_assoc (a b c : string) : String.append (String.append a b) c = String.append a (String.append b c).
Proof. induction a as [|x a IH]; [reflexivity|]. exact (f_equal (String x) IH). Qed.

Lemma str_app_nil_r (a : string) : String.append a EmptyString = a.
Proof. induction a as [|x a IH]; [reflexivity|]. exact (f_equal (String x) IH). Qed.

Lemma str_length_app (a b : string) : String.length (String.append a b) = String.length a + String.length b.
Proof. induction a as [|x a IH]; [reflexivity|]. exact (f_equal S IH). Qed.

Create Rewrite HintDb str.
#[export] Hint Rewrite str_app_assoc str_app_cons str_app_nil_l str_app_nil_r : str.

(** ** Automation *)

Create HintDb wf.
#[export] Hint Resolve no_stutter_snoc NoDup_snoc_fresh : wf.
#[export] Hint Resolve prefix_app_r : wf.

(** Invert a hypothesis and clean up. *)
Ltac invc H := inversion H; subst; clear H.

(** Unfold the monad's combinators and reduce. *)
Ltac mrun := cbv [bind ret throw st_get st_modify]; cbn.
