(* ===== verification/Model.v ===== *)
(** * Model: the data of the workflow engine

    The Python dicts and dataclasses of [src/test.py] as Rocq types: the
    JSON-like values the actors supply, the execution state with its [bag]
    and [meta] sub-dicts, the audit record [InstanceMeta] with its step
    history, the events of the log, the summaries [_run] returns and the
    exceptions the engine raises.  Optional dict keys are [option] fields;
    Python truthiness is written out where the code tests a value with
    [if x:]. *)

From S2P Require Import Prelude.
Open Scope string_scope.

(** Timestamps: [now_iso()] (lines 15-16) returns an ISO-8601 string; the
    model numbers instants, which compare as the strings do. *)
Definition Time := nat.

(** ** Values supplied by actors *)

(** A Python [float] read from JSON text: the decimal [m * 10^e] the
    text denotes, before [float()] rounds it to a double, or one of the
    constants [json.loads] also accepts ([NaN], [Infinity], [-Infinity]).
    Two texts of the same number ([1.5], [15e-1]) give different [FDec]s;
    the code never compares floats: it tests their truthiness, and
    [json.dumps] prints the double they round to (Float). *)
Inductive JFloat :=
| FDec (m : Z) (e : Z)
| FNaN
| FInf (neg : bool).

(** The values of the [updates] dict (a JSON object parsed by FastAPI or
    [json.loads]): strings, integers, floats, booleans, [None], lists,
    objects (their keys in insertion order, each key once). *)
#[local] Set Warnings "-register-all".
Inductive Value :=
| VStr (s : string)
| VInt (z : Z)
| VFloat (f : JFloat)
| VBool (b : bool)
| VNone
| VList (l : list Value)
| VDict (l : list (string * Value)).

(** [m * 10^e] rounds to [0.0]: the nearest double of [x] is zero exactly
    when [|x| <= 2^-1075] (half the least subnormal, ties to even).  The
    first disjunct is a fast test for exponents far below the mantissa's
    size, so that the exact comparison only computes powers of the size
    of the input. *)
Definition dec_is_zero (m e : Z) : bool :=
  Z.eqb m 0 || (Z.ltb e 0 && (Z.leb (Z.log2 (Z.abs m) + 1076) (- e) ||
                              Z.leb (Z.abs m * 2 ^ 1075) (10 ^ (- e))))%Z.

(** [bool(f)]: only zero is false; [nan] and the infinities are true. *)
Definition float_truthy (f : JFloat) : bool :=
  match f with
  | FDec m e => negb (dec_is_zero m e)
  | FNaN | FInf _ => true
  end.

(** Python's truthiness of such a value: empty strings, [0], floats that
    round to zero, [False], [None] and empty containers are false. *)
Definition truthy (v : Value) : bool :=
  match v with
  | VStr s => negb (String.eqb s "")
  | VInt z => negb (Z.eqb z 0)
  | VFloat f => float_truthy f
  | VBool b => b
  | VNone => false
  | VList l => negb (bool_decide (l = []))
  | VDict l => negb (bool_decide (l = []))
  end.

(** Truthiness of an [Optional[str]]: [None] and [""] are false. *)
Definition truthy_str (o : option string) : bool :=
  match o with
  | Some s => negb (String.eqb s "")
  | None => false
  end.

(** [bag.get(k) == lit] for a string literal [lit]. *)
Definition bag_get_eq (bag : gmap string Value) (k lit : string) : bool :=
  match bag !! k with
  | Some (VStr s) => String.eqb s lit
  | _ => false
  end.

(** ** The execution state (the graph's dict state) *)

(** [s["meta"]]: every key is optional, [ensure_defaults] fills two. *)
Record ExecMeta := mkExecMeta {
  em_status : option string;
  em_start_time : option Time;
  em_last_node : option string;
  em_end_time : option Time;
}.

(** The dict built by [Engine.start] (lines 253-259).  The keys [bag] and
    [meta] are fields: the engine creates them at [start] and nothing
    deletes them, so [setdefault("bag", {})] and [setdefault("meta", {})]
    always find them. *)
Record ExecState := mkExecState {
  es_instance_id : string;
  es_customer_id : string;
  es_workflow_name : string;
  es_bag : gmap string Value;
  es_meta : ExecMeta;
}.

Definition set_meta (s : ExecState) (m : ExecMeta) : ExecState :=
  mkExecState (es_instance_id s) (es_customer_id s) (es_workflow_name s) (es_bag s) m.

Definition set_bag (s : ExecState) (b : gmap string Value) : ExecState :=
  mkExecState (es_instance_id s) (es_customer_id s) (es_workflow_name s) b (es_meta s).

Definition last_node_of (s : ExecState) : option string := em_last_node (es_meta s).

(** [s["meta"]["last_node"] = n] *)
Definition set_last_node (s : ExecState) (n : string) : ExecState :=
  let m := es_meta s in
  set_meta s (mkExecMeta (em_status m) (em_start_time m) (Some n) (em_end_time m)).

(** [s["meta"]["status"] = st] *)
Definition set_exec_status (s : ExecState) (st : string) : ExecState :=
  let m := es_meta s in
  set_meta s (mkExecMeta (Some st) (em_start_time m) (em_last_node m) (em_end_time m)).

(** [s["meta"]["end_time"] = t] *)
Definition set_end_time (s : ExecState) (t : Time) : ExecState :=
  let m := es_meta s in
  set_meta s (mkExecMeta (em_status m) (em_start_time m) (em_last_node m) (Some t)).

(** ** Statuses and event kinds (string literals of the code) *)

Definition status_in_progress := "in_progress".
Definition status_paused := "paused".
Definition status_completed := "completed".
Definition status_aborted := "aborted".

(** ** The audit record *)

(** One entry of [steps_history]: the dict appended at lines 239-244. *)
Record StepEntry := mkStepEntry {
  se_ts : Time;
  se_node : string;
  se_actor : string;
  se_status : string;
}.

(** The dataclass [InstanceMeta] (lines 21-32). *)
Record InstanceMeta := mkInstanceMeta {
  im_instance_id : string;
  im_customer_id : string;
  im_workflow_name : string;
  im_started_by : string;
  im_last_actor : option string;
  im_status : string;
  im_last_node : option string;
  im_start_time : option Time;
  im_end_time : option Time;
  im_steps_history : list StepEntry;
}.

Definition set_status (m : InstanceMeta) (st : string) : InstanceMeta :=
  mkInstanceMeta (im_instance_id m) (im_customer_id m) (im_workflow_name m)
    (im_started_by m) (im_last_actor m) st (im_last_node m) (im_start_time m)
    (im_end_time m) (im_steps_history m).

(** ** Events *)

(** The [data] payload of an event. *)
Inductive EventData :=
| DCustomer (customer_id : string)
| DUpdates (updates : gmap string Value)
| DUpdatesRaw (updates : Value)
| DPrompt (prompt : string)
| DResult (result : option Value)
| DEmpty.

(** The dict appended by [_append_event] (lines 201-209). *)
Record Event := mkEvent {
  ev_ts : Time;
  ev_instance_id : string;
  ev_event : string;
  ev_node : option string;
  ev_status : string;
  ev_actor : string;
  ev_data : EventData;
}.

(** ** What [_run] returns, and the exceptions *)

(** The four dict shapes [_run] returns (lines 328-379). *)
Inductive Summary :=
| SumPaused (prompt : string) (instance_id : string)
| SumCompleted (node : string) (result : option Value) (instance_id : string)
| SumAborted (node : string) (result : option Value) (instance_id : string)
| SumInProgress (node : string) (instance_id : string).

(** The exceptions that escape the engine: [ValueError("No workflow
    found")] from [resume], [ValueError("Missing meta")] from
    [_update_meta_from_state], LangGraph's [GraphRecursionError] when a
    traversal exceeds the recursion limit, and the [TypeError] or
    [ValueError] that [dict.update] raises on updates that are not a
    mapping (with Python's message). *)
Inductive Err :=
| ENotFound (instance_id : string)
| EMissingMeta
| EGraphRecursion
| ETypeError (msg : string)
| EValueError (msg : string).

(** ** Truthiness of a float *)

Lemma dec_is_zero_spec m e :
  dec_is_zero m e = true <-> m = 0%Z \/ ((e < 0)%Z /\ (Z.abs m * 2 ^ 1075 <= 10 ^ (- e))%Z).
Proof.
  unfold dec_is_zero. rewrite orb_true_iff, andb_true_iff, orb_true_iff, Z.eqb_eq, Z.ltb_lt, !Z.leb_le.
  split; [|intros [H|(He & H)]; [by left|right; split; [done|by right]]].
  intros [H|(He & [H|H])]; [by left| |by right]. right. split; [done|].
  destruct (Z.eq_dec m 0%Z) as [->|Hm]; [cbn; apply Z.pow_nonneg; lia|].
  destruct (Z.log2_spec (Z.abs m) ltac:(lia)) as [_ Hlt]. pose proof (Z.log2_nonneg (Z.abs m)).
  transitivity (2 ^ (Z.log2 (Z.abs m) + 1076))%Z.
  - replace (Z.log2 (Z.abs m) + 1076)%Z with (Z.succ (Z.log2 (Z.abs m)) + 1075)%Z by lia.
    rewrite Z.pow_add_r by lia. apply Z.mul_le_mono_nonneg_r; [lia|]. lia.
  - transitivity (2 ^ (- e))%Z; [apply Z.pow_le_mono_r; lia|]. apply Z.pow_le_mono_l. lia.
Qed.
