(* ===== verification/Json.v ===== *)
(** * Json: [json.loads] and the JSON text of a value

    The dashboard parses the updates a user types with [json.loads]
    (src/ui.py, line 91) and FastAPI parses the body of
    [POST /workflow/{id}/human-step] as JSON before validating it against
    [StepInput] (src/api.py, lines 6-8).  [json] is Python's standard
    library, not code of this repository: this file models CPython's
    decoder from its specification and its C scanner ([_json.c], the one
    [json.loads] uses): the grammar of RFC 8259 plus the constants [NaN],
    [Infinity] and [-Infinity]; strict strings (no raw control
    character); [\uXXXX] escapes with exactly four hex digits and
    surrogate pairs; numbers by the pattern
    [-?(0|[1-9]\d* )(\.\d+)?([eE][-+]?\d+)?], an [int] unless a fraction or
    an exponent is present; objects become dicts, a repeated key keeping
    its first position and its last value; whitespace is [ \t\n\r] only;
    text that starts with a byte order mark is refused.

    A Python [str] is represented by its UTF-8 bytes (a lone surrogate
    by the three bytes UTF-8 would give it), so [\uXXXX] escapes are
    encoded to UTF-8 and every other character is copied byte by byte.

    The scanner returns the value and the rest of the text, or the
    exception it raises ([Scan]): a [JSONDecodeError], or the
    [ValueError] of [int()] on an integer literal of more than 4300
    digits (Python 3.11 and later), raised where the scanner meets the
    literal.  The parser recurses on a fuel: [parse_value] on [s] never
    needs more than [2 * length s + 1] steps ([json_fuel]), which the
    theorems prove.  Not modelled: Python's recursion limit on deeply
    nested text (a [RecursionError], about a thousand levels).

    [json_text] writes a value as JSON text the way a client may type
    or send it (compact, floats as [<m>e<e>], which denotes the decimal
    exactly); [json_loads] reads that text back as the same value
    ([loads_text]).  It is the request side; what Python's [json.dumps]
    prints for a response is [json_dumps] of Float. *)

From S2P Require Import Prelude Model.
From Stdlib Require Import Ascii.
Open Scope list_scope.
Open Scope string_scope.

(** ** Characters *)

Definition dq : ascii := ascii_of_nat 34.
Definition bs : ascii := ascii_of_nat 92.

(** [WHITESPACE = r'[ \t\n\r]*'] *)
Definition is_ws (c : ascii) : bool :=
  match nat_of_ascii c with
  | 32 | 9 | 10 | 13 => true
  | _ => false
  end.

Fixpoint skip_ws (s : string) : string :=
  match s with
  | String c r => if is_ws c then skip_ws r else s
  | EmptyString => s
  end.

Definition digit_val (c : ascii) : option Z :=
  let n := nat_of_ascii c in
  if (48 <=? n)%nat && (n <=? 57)%nat then Some (Z.of_nat (n - 48)) else None.

Definition hex_val (c : ascii) : option Z :=
  let n := nat_of_ascii c in
  if (48 <=? n)%nat && (n <=? 57)%nat then Some (Z.of_nat (n - 48))
  else if (97 <=? n)%nat && (n <=? 102)%nat then Some (Z.of_nat (n - 87))
  else if (65 <=? n)%nat && (n <=? 70)%nat then Some (Z.of_nat (n - 55))
  else None.

Definition hex4 (a b c d : ascii) : option Z :=
  match hex_val a, hex_val b, hex_val c, hex_val d with
  | Some x1, Some x2, Some x3, Some x4 => Some (((x1 * 16 + x2) * 16 + x3) * 16 + x4)%Z
  | _, _, _, _ => None
  end.

Definition byte (z : Z) : ascii := ascii_of_N (Z.to_N z).

(** The UTF-8 bytes of the code point [cp] ([chr(cp)] of the scanner). *)
Definition utf8_encode (cp : Z) : string :=
  let cont k := byte (Z.lor 128 (Z.land (Z.shiftr cp k) 63)) in
  if (cp <? 128)%Z then String (byte cp) EmptyString
  else if (cp <? 2048)%Z then
    String (byte (Z.lor 192 (Z.shiftr cp 6))) (String (cont 0%Z) EmptyString)
  else if (cp <? 65536)%Z then
    String (byte (Z.lor 224 (Z.shiftr cp 12))) (String (cont 6%Z) (String (cont 0%Z) EmptyString))
  else
    String (byte (Z.lor 240 (Z.shiftr cp 18)))
      (String (cont 12%Z) (String (cont 6%Z) (String (cont 0%Z) EmptyString))).

(** The one-character escapes of [BACKSLASH] in [json/decoder.py]. *)
Definition simple_escape (c : ascii) : option ascii :=
  match nat_of_ascii c with
  | 34 => Some dq
  | 92 => Some bs
  | 47 => Some "/"%char
  | 98 => Some (ascii_of_nat 8)
  | 102 => Some (ascii_of_nat 12)
  | 110 => Some (ascii_of_nat 10)
  | 114 => Some (ascii_of_nat 13)
  | 116 => Some (ascii_of_nat 9)
  | _ => None
  end.

Definition high_surrogate (cp : Z) : bool := (55296 <=? cp)%Z && (cp <=? 56319)%Z.
Definition low_surrogate (cp : Z) : bool := (56320 <=? cp)%Z && (cp <=? 57343)%Z.

(** ** Strings: [scanstring] after the opening quote *)

(** Returns the decoded string and the text after the closing quote. *)
Fixpoint parse_str (s : string) : option (string * string) :=
  match s with
  | EmptyString => None
  | String c r =>
      if Ascii.eqb c dq then Some (EmptyString, r)
      else if Ascii.eqb c bs then
        match r with
        | String e r1 =>
            if Ascii.eqb e "u"%char then
              match r1 with
              | String h1 (String h2 (String h3 (String h4 r2))) =>
                  match hex4 h1 h2 h3 h4 with
                  | None => None
                  | Some cp =>
                      let single :=
                        match parse_str r2 with
                        | Some (x, r') => Some (utf8_encode cp ++ x, r')
                        | None => None
                        end in
                      if high_surrogate cp then
                        match r2 with
                        | String b1 (String u1 (String k1 (String k2 (String k3 (String k4 r3))))) =>
                            if Ascii.eqb b1 bs && Ascii.eqb u1 "u"%char then
                              match hex4 k1 k2 k3 k4 with
                              | None => None
                              | Some cp2 =>
                                  if low_surrogate cp2 then
                                    match parse_str r3 with
                                    | Some (x, r') =>
                                        Some (utf8_encode
                                                (65536 + Z.lor (Z.shiftl (cp - 55296) 10) (cp2 - 56320))%Z
                                                ++ x, r')
                                    | None => None
                                    end
                                  else single
                              end
                            else single
                        | _ => single
                        end
                      else single
                  end
              | _ => None
              end
            else
              match simple_escape e with
              | Some c' =>
                  match parse_str r1 with
                  | Some (x, r') => Some (String c' x, r')
                  | None => None
                  end
              | None => None
              end
        | EmptyString => None
        end
      else if (nat_of_ascii c <? 32)%nat then None
      else
        match parse_str r with
        | Some (x, r') => Some (String c x, r')
        | None => None
        end
  end.

(** ** Numbers: [NUMBER_RE] and [match_number] *)

(** [\d*]: the value of the digits read after [acc], their count, the
    rest. *)
Fixpoint read_digits (s : string) (acc : Z) (k : nat) : Z * nat * string :=
  match s with
  | String c r =>
      match digit_val c with
      | Some d => read_digits r (10 * acc + d)%Z (S k)
      | None => (acc, k, s)
      end
  | EmptyString => (acc, k, s)
  end.

(** [(0|[1-9]\d* )] *)
Definition read_int_part (s : string) : option (Z * string) :=
  match s with
  | String c r =>
      match digit_val c with
      | Some Z0 => Some (0%Z, r)
      | Some d => let '(v, _, r') := read_digits r d 0 in Some (v, r')
      | None => None
      end
  | EmptyString => None
  end.

(** [(\.\d+)?]: [None] when the group does not match. *)
Definition read_frac (s : string) : option (Z * nat * string) :=
  match s with
  | String c r =>
      if Ascii.eqb c "."%char then
        let '(v, k, r') := read_digits r 0 0 in
        if Nat.eqb k 0 then None else Some (v, k, r')
      else None
  | EmptyString => None
  end.

(** [[-+]?] after the exponent mark. *)
Definition read_exp_sign (s : string) : Z * string :=
  match s with
  | String c r =>
      if Ascii.eqb c "-"%char then ((-1)%Z, r)
      else if Ascii.eqb c "+"%char then (1%Z, r) else (1%Z, s)
  | EmptyString => (1%Z, s)
  end.

(** [([eE][-+]?\d+)?] *)
Definition read_exp (s : string) : option (Z * string) :=
  match s with
  | String c r =>
      if Ascii.eqb c "e"%char || Ascii.eqb c "E"%char then
        let '(sg, r1) := read_exp_sign r in
        let '(v, k, r2) := read_digits r1 0 0 in
        if Nat.eqb k 0 then None else Some ((sg * v)%Z, r2)
      else None
  | EmptyString => None
  end.

(** [-?] *)
Definition read_sign (s : string) : Z * string :=
  match s with
  | String c r => if Ascii.eqb c "-"%char then ((-1)%Z, r) else (1%Z, s)
  | EmptyString => (1%Z, s)
  end.

(** The exceptions [json.loads] raises: [JSONDecodeError]; the
    [ValueError] of [int()] on a literal of more than
    [sys.get_int_max_str_digits()] digits; the [UnicodeDecodeError] of
    the decoding of a [bytes] text (Bytes). *)
Inductive JsonError :=
| JSONDecodeError
| IntTooLong (digits : nat)
| UnicodeDecodeError.

(** What [scan_once] returns: the value and the text after it, or the
    exception it raises. *)
Inductive Scan :=
| Scanned (v : Value) (rest : string)
| ScanError (e : JsonError).

(** The default of [sys.int_info.default_max_str_digits]. *)
Definition int_max_str_digits : nat := 4300.

(** [match_number]: [None] when [NUMBER_RE] does not match; an integer
    literal is converted by [int()], which counts its digits (the sign
    apart) against the limit. *)
Definition parse_number (s : string) : option Scan :=
  let '(sg, s1) := read_sign s in
  match read_int_part s1 with
  | None => None
  | Some (ip, s2) =>
      let fr := read_frac s2 in
      let s3 := match fr with Some (_, _, r) => r | None => s2 end in
      let ex := read_exp s3 in
      let s4 := match ex with Some (_, r) => r | None => s3 end in
      match fr, ex with
      | None, None =>
          let k := (String.length s1 - String.length s2)%nat in
          if (int_max_str_digits <? k)%nat then Some (ScanError (IntTooLong k))
          else Some (Scanned (VInt (sg * ip)%Z) s4)
      | _, _ =>
          let '(fv, fk) := match fr with Some (v, k, _) => (v, k) | None => (0%Z, 0%nat) end in
          let ev := match ex with Some (v, _) => v | None => 0%Z end in
          Some (Scanned (VFloat (FDec (sg * (ip * 10 ^ Z.of_nat fk + fv)) (ev - Z.of_nat fk))%Z) s4)
      end
  end.

Fixpoint strip_prefix (p s : string) : option string :=
  match p, s with
  | EmptyString, _ => Some s
  | String a p', String b s' => if Ascii.eqb a b then strip_prefix p' s' else None
  | _, _ => None
  end.

(** The atoms of [scan_once], in the order it tries them. *)
Definition parse_atom (s : string) : Scan :=
  match strip_prefix "null" s with Some r => Scanned VNone r | None =>
  match strip_prefix "true" s with Some r => Scanned (VBool true) r | None =>
  match strip_prefix "false" s with Some r => Scanned (VBool false) r | None =>
  match parse_number s with Some x => x | None =>
  match strip_prefix "NaN" s with Some r => Scanned (VFloat FNaN) r | None =>
  match strip_prefix "Infinity" s with Some r => Scanned (VFloat (FInf false)) r | None =>
  match strip_prefix "-Infinity" s with Some r => Scanned (VFloat (FInf true)) r | None =>
  ScanError JSONDecodeError end end end end end end end.

(** ** Objects become dicts *)

(** [d[k] = v]: a new key goes last, an old key keeps its place. *)
Fixpoint dict_set (k : string) (v : Value) (ps : list (string * Value)) : list (string * Value) :=
  match ps with
  | [] => [(k, v)]
  | (k', v') :: ps' => if String.eqb k k' then (k, v) :: ps' else (k', v') :: dict_set k v ps'
  end.

(** [dict(pairs)] *)
Definition dict_of_pairs (ps : list (string * Value)) : list (string * Value) :=
  fold_left (fun acc kv => dict_set kv.1 kv.2 acc) ps [].

(** ** [scan_once], [_parse_array], [_parse_object] *)

Fixpoint parse_value (n : nat) (s : string) {struct n} : Scan :=
  match n with
  | O => ScanError JSONDecodeError
  | S n' =>
      match s with
      | EmptyString => ScanError JSONDecodeError
      | String c r =>
          if Ascii.eqb c dq then
            match parse_str r with
            | Some (x, r') => Scanned (VStr x) r'
            | None => ScanError JSONDecodeError
            end
          else if Ascii.eqb c "{"%char then
            match skip_ws r with
            | String c1 r1 =>
                if Ascii.eqb c1 "}"%char then Scanned (VDict []) r1
                else if Ascii.eqb c1 dq then parse_members n' r1 []
                else ScanError JSONDecodeError
            | EmptyString => ScanError JSONDecodeError
            end
          else if Ascii.eqb c "["%char then
            match skip_ws r with
            | String c1 r1 =>
                if Ascii.eqb c1 "]"%char then Scanned (VList []) r1
                else parse_elems n' (String c1 r1) []
            | EmptyString => ScanError JSONDecodeError
            end
          else parse_atom s
      end
  end
with parse_elems (n : nat) (s : string) (acc : list Value) {struct n} : Scan :=
  match n with
  | O => ScanError JSONDecodeError
  | S n' =>
      match parse_value n' s with
      | ScanError e => ScanError e
      | Scanned v r =>
          match skip_ws r with
          | String c r1 =>
              if Ascii.eqb c "]"%char then Scanned (VList (rev (v :: acc))) r1
              else if Ascii.eqb c ","%char then parse_elems n' (skip_ws r1) (v :: acc)
              else ScanError JSONDecodeError
          | EmptyString => ScanError JSONDecodeError
          end
      end
  end
with parse_members (n : nat) (s : string) (acc : list (string * Value)) {struct n} : Scan :=
  match n with
  | O => ScanError JSONDecodeError
  | S n' =>
      match parse_str s with
      | None => ScanError JSONDecodeError
      | Some (k, r) =>
          match skip_ws r with
          | String c r1 =>
              if Ascii.eqb c ":"%char then
                match parse_value n' (skip_ws r1) with
                | ScanError e => ScanError e
                | Scanned v r2 =>
                    match skip_ws r2 with
                    | String c2 r3 =>
                        if Ascii.eqb c2 "}"%char then
                          Scanned (VDict (dict_of_pairs (rev ((k, v) :: acc)))) r3
                        else if Ascii.eqb c2 ","%char then
                          match skip_ws r3 with
                          | String c3 r4 =>
                              if Ascii.eqb c3 dq then parse_members n' r4 ((k, v) :: acc)
                              else ScanError JSONDecodeError
                          | EmptyString => ScanError JSONDecodeError
                          end
                        else ScanError JSONDecodeError
                    | EmptyString => ScanError JSONDecodeError
                    end
                end
              else ScanError JSONDecodeError
          | EmptyString => ScanError JSONDecodeError
          end
      end
  end.

Definition utf8_bom : string :=
  String (ascii_of_nat 239) (String (ascii_of_nat 187) (String (ascii_of_nat 191) EmptyString)).

Definition json_fuel (s : string) : nat := 2 * String.length s + 1.

(** [JSONDecoder.decode] of a [str]: the value must fill the text, up
    to whitespace. *)
Definition json_decode (s : string) : JsonError + Value :=
  let s0 := skip_ws s in
  match parse_value (json_fuel s0) s0 with
  | Scanned v r => match skip_ws r with EmptyString => inr v | _ => inl JSONDecodeError end
  | ScanError e => inl e
  end.

(** [json.loads(s)] on a [str]: a leading byte order mark is refused. *)
Definition json_loads (s : string) : JsonError + Value :=
  if String.prefix utf8_bom s then inl JSONDecodeError else json_decode s.

(** ** The JSON text of a value

    Strings are written by [py_encode_basestring] (quote, backslash and
    the five short escapes, other control characters as [\u00XX] in lower
    case, everything else copied), integers in decimal, floats as
    [<m>e<e>], lists and dicts without spaces.  [json.dumps] of Float
    shares everything but the floats. *)

Definition hex_char (d : Z) : ascii :=
  if (d <? 10)%Z then ascii_of_nat (48 + Z.to_nat d) else ascii_of_nat (87 + Z.to_nat d).

Definition escape_char (c : ascii) : string :=
  match nat_of_ascii c with
  | 34 => String bs (String dq EmptyString)
  | 92 => String bs (String bs EmptyString)
  | 10 => "\n"
  | 13 => "\r"
  | 9 => "\t"
  | 8 => "\b"
  | 12 => "\f"
  | n =>
      if (n <? 32)%nat then
        String bs (String "u"%char (String "0"%char (String "0"%char
          (String (hex_char (Z.of_nat n / 16)) (String (hex_char (Z.of_nat n mod 16)) EmptyString)))))
      else String c EmptyString
  end.

Fixpoint escape (s : string) : string :=
  match s with
  | EmptyString => EmptyString
  | String c r => escape_char c ++ escape r
  end.

Definition quote (s : string) : string := String dq (escape s ++ String dq EmptyString).

(** The decimal digits of [n >= 0], least significant first; [f] bounds
    their number. *)
Fixpoint lsd (f : nat) (n : Z) : list Z :=
  match f with
  | O => []
  | S f' => (n mod 10)%Z :: (if Z.eqb (n / 10) 0 then [] else lsd f' (n / 10))
  end.

Definition digit_char (d : Z) : ascii := ascii_of_nat (48 + Z.to_nat d).

Definition digits_str (ds : list Z) : string := fold_right (fun d s => String (digit_char d) s) EmptyString ds.

(** [n] has at most [log2 n + 1] decimal digits. *)
Definition digits_Z (n : Z) : string := digits_str (rev (lsd (S (Z.to_nat (Z.log2 n))) n)).

(** [int.__repr__] *)
Definition print_Z (z : Z) : string :=
  if (z <? 0)%Z then String "-"%char (digits_Z (- z)) else digits_Z z.

(** [c * k]: [k] copies of the character [c] (the long literals of the
    examples). *)
Fixpoint repeat_char (k : nat) (c : ascii) : string :=
  match k with
  | O => EmptyString
  | S k' => String c (repeat_char k' c)
  end.

(** The message of [int()]'s [ValueError] ([Objects/longobject.c]). *)
Definition int_limit_message (k : nat) : string :=
  "Exceeds the limit (" ++ print_Z (Z.of_nat int_max_str_digits) ++
  " digits) for integer string conversion: value has " ++ print_Z (Z.of_nat k) ++
  " digits; use sys.set_int_max_str_digits() to increase the limit".

(** The exception an error of [json.loads] is, for a caller that does not
    catch it: every one is a [ValueError]; only the message of [int()]'s
    is modelled. *)
Definition json_exception (e : JsonError) : Err :=
  match e with
  | JSONDecodeError => EValueError "JSONDecodeError"
  | IntTooLong k => EValueError (int_limit_message k)
  | UnicodeDecodeError => EValueError "UnicodeDecodeError"
  end.

Definition float_text (f : JFloat) : string :=
  match f with
  | FDec m e => print_Z m ++ "e" ++ print_Z e
  | FNaN => "NaN"
  | FInf false => "Infinity"
  | FInf true => "-Infinity"
  end.

Fixpoint json_text (v : Value) : string :=
  match v with
  | VStr s => quote s
  | VInt z => print_Z z
  | VFloat f => float_text f
  | VBool true => "true"
  | VBool false => "false"
  | VNone => "null"
  | VList l => "[" ++ join "," (map json_text l) ++ "]"
  | VDict ps => "{" ++ join "," (map (fun kv => quote kv.1 ++ ":" ++ json_text kv.2) ps) ++ "}"
  end.

(** ** Well-formed values and their size *)

(** Every dict has each key once (what [dict] guarantees). *)
Fixpoint wf_value (v : Value) : bool :=
  match v with
  | VList l => forallb wf_value l
  | VDict ps => bool_decide (NoDup ps.*1) && forallb (fun kv => wf_value kv.2) ps
  | _ => true
  end.

(** The number of digits of [int.__repr__] of [z], its sign apart. *)
Definition int_digits (z : Z) : nat := String.length (digits_Z (Z.abs z)).

(** Every integer of [v] has at most [int_max_str_digits] digits: its
    text is printed by [json.dumps] and read back by [int()]. *)
Fixpoint small_ints (v : Value) : bool :=
  match v with
  | VInt z => (int_digits z <=? int_max_str_digits)%nat
  | VList l => forallb small_ints l
  | VDict ps => forallb (fun kv => small_ints kv.2) ps
  | _ => true
  end.

(** The fuel [parse_value] needs for the text of [v]. *)
Fixpoint vsize (v : Value) : nat :=
  match v with
  | VList l => S (list_sum (map (fun x => S (vsize x)) l))
  | VDict ps => S (list_sum (map (fun kv => S (vsize kv.2)) ps))
  | _ => 1
  end.

(** ** Induction on values *)

Lemma Value_ind' (P : Value -> Prop) :
  (forall s, P (VStr s)) -> (forall z, P (VInt z)) -> (forall f, P (VFloat f)) ->
  (forall b, P (VBool b)) -> P VNone ->
  (forall l, Forall P l -> P (VList l)) ->
  (forall ps, Forall (fun kv => P kv.2) ps -> P (VDict ps)) ->
  forall v, P v.
Proof.
  intros Hs Hz Hf Hb Hn Hl Hd.
  exact (fix F (v : Value) : P v :=
    match v with
    | VStr s => Hs s
    | VInt z => Hz z
    | VFloat f => Hf f
    | VBool b => Hb b
    | VNone => Hn
    | VList l => Hl l ((fix G (l : list Value) : Forall P l :=
                         match l with
                         | [] => @List.Forall_nil _ P
                         | x :: l' => @List.Forall_cons _ P x l' (F x) (G l')
                         end) l)
    | VDict ps => Hd ps ((fix G (ps : list (string * Value)) : Forall (fun kv => P kv.2) ps :=
                           match ps with
                           | [] => @List.Forall_nil _ _
                           | kv :: ps' => @List.Forall_cons _ (fun kv => P kv.2) kv ps' (F kv.2) (G ps')
                           end) ps)
    end).
Qed.

(** ** Digits *)

Lemma lsd_bounds f n : Forall (fun d => 0 <= d < 10)%Z (lsd f n).
Proof.
  revert n. induction f as [|f IH]; intros n; simpl; [constructor|].
  constructor; [apply Z.mod_pos_bound; lia|]. case_match; [constructor|apply IH].
Qed.

Definition horner (acc : Z) (ds : list Z) : Z := fold_left (fun a d => 10 * a + d)%Z ds acc.

Lemma horner_lsd f n : (0 <= n < 10 ^ Z.of_nat f)%Z -> horner 0 (rev (lsd f n)) = n.
Proof.
  unfold horner. rewrite <- fold_left_rev_right, rev_involutive.
  revert n. induction f as [|f IH]; intros n Hn; simpl.
  - simpl in Hn. lia.
  - pose proof (Z.div_mod n 10 ltac:(lia)) as Hdm.
    destruct (Z.eqb_spec (n / 10) 0) as [E|E]; simpl.
    + lia.
    + rewrite IH; [lia|]. rewrite Nat2Z.inj_succ, Z.pow_succ_r in Hn by lia.
      split; [apply Z.div_pos; lia|]. apply Z.div_lt_upper_bound; lia.
Qed.

Lemma digits_fuel n : (0 <= n)%Z -> (0 <= n < 10 ^ Z.of_nat (S (Z.to_nat (Z.log2 n))))%Z.
Proof.
  intros Hn. split; [done|].
  destruct (Z.eq_dec n 0%Z) as [->|Hn0]; [simpl; lia|].
  pose proof (Z.log2_nonneg n). destruct (Z.log2_spec n ltac:(lia)) as [_ Hlt].
  rewrite Nat2Z.inj_succ, Z2Nat.id by lia.
  eapply Z.lt_le_trans; [exact Hlt|]. apply Z.pow_le_mono_l; lia.
Qed.

Lemma digit_val_char d : (0 <= d < 10)%Z -> digit_val (digit_char d) = Some d.
Proof.
  intros Hd. assert (d = 0 \/ d = 1 \/ d = 2 \/ d = 3 \/ d = 4 \/ d = 5 \/ d = 6 \/ d = 7 \/ d = 8 \/ d = 9)%Z
    as Hc by lia.
  repeat destruct Hc as [->|Hc]; try reflexivity. subst. reflexivity.
Qed.

(** The text after a number does not continue it. *)
Definition no_digit (s : string) : Prop :=
  match s with String c _ => digit_val c = None | EmptyString => True end.

Lemma read_digits_stop s acc k : no_digit s -> read_digits s acc k = (acc, k, s).
Proof. destruct s as [|c s]; simpl; [done|]. by intros ->. Qed.

Lemma read_digits_app ds rest acc k :
  Forall (fun d => 0 <= d < 10)%Z ds -> no_digit rest ->
  read_digits (digits_str ds ++ rest) acc k = (horner acc ds, (k + length ds)%nat, rest).
Proof.
  intros Hds Hr. revert acc k. induction Hds as [|d ds Hd Hds IH]; intros acc k.
  - rewrite Nat.add_0_r. by apply read_digits_stop.
  - change (digits_str (d :: ds) ++ rest) with (String (digit_char d) (digits_str ds ++ rest)).
    cbn [read_digits]. rewrite digit_val_char by done. rewrite IH. f_equal. f_equal. simpl. lia.
Qed.


Lemma lsd_last f n : (0 < n < 10 ^ Z.of_nat f)%Z -> exists d ds, rev (lsd f n) = d :: ds /\ (0 < d < 10)%Z.
Proof.
  revert n. induction f as [|f IH]; intros n Hn; [simpl in Hn; lia|]. cbn [lsd].
  pose proof (Z.div_mod n 10 ltac:(lia)) as Hdm. pose proof (Z.mod_pos_bound n 10 ltac:(lia)).
  destruct (Z.eqb_spec (n / 10) 0) as [E|E].
  - exists (n mod 10)%Z, []. split; [done|lia].
  - destruct (IH (n / 10)%Z) as (d & ds & Hr & Hd).
    + rewrite Nat2Z.inj_succ, Z.pow_succ_r in Hn by lia.
      split; [|apply Z.div_lt_upper_bound; lia].
      assert (0 <= n / 10)%Z by (apply Z.div_pos; lia). lia.
    + exists d, (app ds [(n mod 10)%Z]). cbn [rev]. by rewrite Hr.
Qed.

Lemma digits_Z_head n rest : (0 <= n)%Z ->
  exists d t, digits_Z n ++ rest = String (digit_char d) t /\ (0 <= d < 10)%Z.
Proof.
  intros Hn. unfold digits_Z. destruct (Z.eq_dec n 0%Z) as [->|Hn0].
  - exists 0%Z, rest. split; [reflexivity|lia].
  - destruct (lsd_last (S (Z.to_nat (Z.log2 n))) n) as (d & ds & -> & Hd).
    { pose proof (digits_fuel n Hn). lia. }
    exists d, (digits_str ds ++ rest). split; [reflexivity|lia].
Qed.

Lemma read_int_part_digits n rest : (0 <= n)%Z -> no_digit rest ->
  read_int_part (digits_Z n ++ rest) = Some (n, rest).
Proof.
  intros Hn Hr. unfold digits_Z. destruct (Z.eq_dec n 0%Z) as [->|Hn0]; [reflexivity|].
  pose proof (digits_fuel n Hn) as Hf.
  destruct (lsd_last (S (Z.to_nat (Z.log2 n))) n) as (d & ds & Hrev & Hd); [lia|].
  pose proof (horner_lsd _ _ Hf) as Hh. rewrite Hrev in Hh |- *.
  assert (Hds : Forall (fun d => 0 <= d < 10)%Z ds).
  { pose proof (lsd_bounds (S (Z.to_nat (Z.log2 n))) n) as Hb. apply Forall_rev in Hb.
    rewrite Hrev in Hb. by inversion Hb. }
  change (digits_str (d :: ds) ++ rest) with (String (digit_char d) (digits_str ds ++ rest)).
  unfold read_int_part. rewrite digit_val_char by lia.
  destruct d as [|p|p]; [lia| |lia].
  rewrite read_digits_app by done. f_equal. f_equal. exact Hh.
Qed.

Lemma read_digits_Z n rest : (0 <= n)%Z -> no_digit rest ->
  exists k, read_digits (digits_Z n ++ rest) 0 0 = (n, S k, rest).
Proof.
  intros Hn Hr. pose proof (digits_fuel n Hn) as Hf. unfold digits_Z.
  pose proof (lsd_bounds (S (Z.to_nat (Z.log2 n))) n) as Hb. apply Forall_rev in Hb.
  rewrite read_digits_app by done. rewrite (horner_lsd _ _ Hf).
  destruct (rev (lsd (S (Z.to_nat (Z.log2 n))) n)) as [|x l] eqn:E.
  - apply (f_equal (@length _)) in E. rewrite length_rev in E. cbn in E. done.
  - exists (length l). reflexivity.
Qed.

Definition num_end (s : string) : Prop :=
  match s with
  | String c _ => digit_val c = None /\ c <> "."%char /\ c <> "e"%char /\ c <> "E"%char
  | EmptyString => True
  end.

Lemma num_end_no_digit s : num_end s -> no_digit s.
Proof. destruct s; simpl; tauto. Qed.

Lemma read_frac_end s : num_end s -> read_frac s = None.
Proof.
  destruct s as [|c s]; [done|]. intros (_ & H & _). unfold read_frac.
  by destruct (Ascii.eqb_spec c "."%char).
Qed.

Lemma read_exp_end s : num_end s -> read_exp s = None.
Proof.
  destruct s as [|c s]; [done|]. intros (_ & _ & H1 & H2). unfold read_exp.
  by destruct (Ascii.eqb_spec c "e"%char), (Ascii.eqb_spec c "E"%char).
Qed.

Lemma digit_char_neq d c : (0 <= d < 10)%Z -> digit_val c = None -> Ascii.eqb (digit_char d) c = false.
Proof.
  intros Hd Hc. destruct (Ascii.eqb_spec (digit_char d) c) as [E|]; [|done].
  rewrite <- E, digit_val_char in Hc by done. discriminate.
Qed.

Definition zsign (z : Z) : Z := if (z <? 0)%Z then (-1)%Z else 1%Z.

Lemma print_Z_nonneg z rest : (0 <= z)%Z ->
  exists d t, print_Z z ++ rest = String (digit_char d) t /\ (0 <= d < 10)%Z /\
              digits_Z z ++ rest = String (digit_char d) t.
Proof.
  intros Hz. unfold print_Z. destruct (Z.ltb_spec z 0); [lia|].
  destruct (digits_Z_head z rest Hz) as (d & t & Ht & Hd). exists d, t. done.
Qed.

Lemma read_sign_print z rest : read_sign (print_Z z ++ rest) = (zsign z, digits_Z (Z.abs z) ++ rest).
Proof.
  unfold zsign. destruct (Z.ltb_spec z 0) as [Hz|Hz].
  - unfold print_Z. destruct (Z.ltb_spec z 0); [|lia].
    rewrite str_app_cons. unfold read_sign. rewrite Ascii.eqb_refl. do 3 f_equal. lia.
  - destruct (print_Z_nonneg z rest Hz) as (d & t & Ht & Hd & Ht').
    rewrite Ht. unfold read_sign. rewrite digit_char_neq by done.
    rewrite Z.abs_eq by done. by rewrite Ht'.
Qed.

Lemma read_exp_sign_print z rest : read_exp_sign (print_Z z ++ rest) = (zsign z, digits_Z (Z.abs z) ++ rest).
Proof.
  unfold zsign. destruct (Z.ltb_spec z 0) as [Hz|Hz].
  - unfold print_Z. destruct (Z.ltb_spec z 0); [|lia].
    rewrite str_app_cons. unfold read_exp_sign. rewrite Ascii.eqb_refl. do 3 f_equal. lia.
  - destruct (print_Z_nonneg z rest Hz) as (d & t & Ht & Hd & Ht').
    rewrite Ht. unfold read_exp_sign. rewrite !digit_char_neq by done.
    rewrite Z.abs_eq by done. by rewrite Ht'.
Qed.

Lemma zsign_abs z : (zsign z * Z.abs z)%Z = z.
Proof. unfold zsign. destruct (Z.ltb_spec z 0); lia. Qed.

Lemma parse_number_Z z rest : num_end rest ->
  parse_number (print_Z z ++ rest) =
    Some (if (int_max_str_digits <? int_digits z)%nat then ScanError (IntTooLong (int_digits z))
          else Scanned (VInt z) rest).
Proof.
  intros Hr. unfold parse_number. rewrite read_sign_print.
  rewrite read_int_part_digits by (lia || by apply num_end_no_digit).
  rewrite read_frac_end, read_exp_end by done. cbv beta iota.
  rewrite str_length_app, Nat.add_sub, zsign_abs. unfold int_digits. by destruct (_ <? _)%nat.
Qed.

Lemma parse_number_float m e rest : num_end rest ->
  parse_number (float_text (FDec m e) ++ rest) = Some (Scanned (VFloat (FDec m e)) rest).
Proof.
  intros Hr. cbn [float_text]. rewrite !str_app_assoc. unfold parse_number. rewrite read_sign_print.
  rewrite read_int_part_digits by (lia || reflexivity).
  change (read_frac ("e" ++ (print_Z e ++ rest))) with (@None (Z * nat * string)).
  cbv beta iota.
  change (read_exp ("e" ++ (print_Z e ++ rest))) with
    (let '(sg, r1) := read_exp_sign (print_Z e ++ rest) in
     let '(v, k, r2) := read_digits r1 0 0 in
     if Nat.eqb k 0 then None else Some ((sg * v)%Z, r2)).
  rewrite read_exp_sign_print.
  destruct (read_digits_Z (Z.abs e) rest) as [k ->]; [lia|by apply num_end_no_digit|].
  cbn. do 4 f_equal; rewrite ?Z.mul_1_r, ?Z.add_0_r, ?Z.sub_0_r; apply zsign_abs.
Qed.

(** Each escaped character reads back as itself (checked for all 256). *)
Lemma parse_str_escape_char c t :
  parse_str (escape_char c ++ t) =
  match parse_str t with Some (x, r) => Some (String c x, r) | None => None end.
Proof. destruct c as [[] [] [] [] [] [] [] []]; reflexivity. Qed.

Lemma parse_str_escape s rest : parse_str (escape s ++ String dq rest) = Some (s, rest).
Proof.
  induction s as [|c s IH]; [reflexivity|].
  change (escape (String c s)) with (escape_char c ++ escape s).
  by rewrite str_app_assoc, parse_str_escape_char, IH.
Qed.

(** ** The first character of a printed value *)

Definition head_ok (c : ascii) : bool :=
  negb (is_ws c) && negb (Ascii.eqb c "]"%char) && negb (Ascii.eqb c "}"%char) &&
  negb (Ascii.eqb c (ascii_of_nat 239)).

Lemma digit_cases d : (0 <= d < 10)%Z ->
  d = 0%Z \/ d = 1%Z \/ d = 2%Z \/ d = 3%Z \/ d = 4%Z \/ d = 5%Z \/ d = 6%Z \/ d = 7%Z \/ d = 8%Z \/ d = 9%Z.
Proof. lia. Qed.

Lemma print_Z_head z rest :
  exists c t, print_Z z ++ rest = String c t /\ head_ok c = true /\
              (c = "-"%char \/ exists d, c = digit_char d /\ (0 <= d < 10)%Z).
Proof.
  destruct (Z.ltb_spec z 0) as [Hz|Hz].
  - unfold print_Z. destruct (Z.ltb_spec z 0); [|lia]. eexists _, _. split; [reflexivity|]. split; [reflexivity|by left].
  - destruct (print_Z_nonneg z rest Hz) as (d & t & Ht & Hd & _). exists (digit_char d), t.
    split; [done|]. split; [|right; eauto].
    apply digit_cases in Hd. repeat destruct Hd as [->|Hd]; try reflexivity. subst. reflexivity.
Qed.

Lemma text_head v rest : exists c t, json_text v ++ rest = String c t /\ head_ok c = true.
Proof.
  destruct v as [s|z|[m e| |[]]|[]| |l|ps]; cbn [json_text float_text];
    try (eexists _, _; split; [reflexivity|reflexivity]).
  - destruct (print_Z_head z rest) as (c & t & ? & ? & _). eauto.
  - rewrite str_app_assoc. destruct (print_Z_head m (("e" ++ print_Z e) ++ rest)) as (c & t & ? & ? & _). eauto.
Qed.

Lemma skip_ws_head c t : is_ws c = false -> skip_ws (String c t) = String c t.
Proof. cbn. by intros ->. Qed.

Lemma skip_ws_text v rest : skip_ws (json_text v ++ rest) = json_text v ++ rest.
Proof.
  destruct (text_head v rest) as (c & t & -> & Hc). apply skip_ws_head.
  unfold head_ok in Hc. destruct (is_ws c); [discriminate|done].
Qed.

Lemma strip_prefix_neq a p b s : Ascii.eqb a b = false -> strip_prefix (String a p) (String b s) = None.
Proof. cbn. by intros ->. Qed.

(** Text that starts like a number is read by [parse_number]. *)
Lemma parse_atom_number c t x :
  (c = "-"%char \/ exists d, c = digit_char d /\ (0 <= d < 10)%Z) ->
  parse_number (String c t) = Some x -> parse_atom (String c t) = x.
Proof.
  intros Hc Hx. unfold parse_atom.
  assert (Hn : forall a, digit_val a = None -> a <> "-"%char -> Ascii.eqb a c = false).
  { intros a Ha Hm. destruct Hc as [->|(d & -> & Hd)].
    - destruct (Ascii.eqb_spec a "-"%char); congruence.
    - rewrite Ascii.eqb_sym. by apply digit_char_neq. }
  rewrite !strip_prefix_neq by (apply Hn; [reflexivity|discriminate]). by rewrite Hx.
Qed.

(** ** Dicts without repeated keys are their own [dict(pairs)] *)

Lemma dict_set_fresh k v ps : k ∉ ps.*1 -> dict_set k v ps = app ps [(k, v)].
Proof.
  induction ps as [|[k' v'] ps IH]; intros Hk; [done|]. cbn [dict_set].
  rewrite fmap_cons, elem_of_cons in Hk. cbn in Hk.
  destruct (String.eqb_spec k k'); [tauto|]. rewrite IH by tauto. done.
Qed.

Lemma dict_of_pairs_nodup ps : NoDup ps.*1 -> dict_of_pairs ps = ps.
Proof.
  unfold dict_of_pairs. intros Hnd.
  enough (H : forall acc, NoDup (app acc.*1 ps.*1) -> fold_left (fun acc kv => dict_set kv.1 kv.2 acc) ps acc = app acc ps)
    by exact (H [] Hnd).
  clear Hnd. induction ps as [|[k v] ps IH]; intros acc Hnd; cbn [fold_left]; [by rewrite app_nil_r|].
  cbn in Hnd. pose proof Hnd as Hnd'. apply NoDup_app in Hnd' as (_ & Hdis & _).
  rewrite dict_set_fresh by (intros Hin; apply (Hdis k Hin); set_solver).
  rewrite IH, <- app_assoc; [done|]. rewrite fmap_app, <- app_assoc. exact Hnd.
Qed.

Lemma join_app_cons a l R :
  join "," (a :: l) ++ R = a ++ match l with [] => R | _ => String ","%char (join "," l ++ R) end.
Proof. destruct l as [|b l]; [reflexivity|]. cbn [join]. by rewrite !str_app_assoc. Qed.

(** What may follow a value inside the text of a container, or end it. *)
Definition rest_ok (s : string) : bool :=
  match s with
  | EmptyString => true
  | String c _ => Ascii.eqb c ","%char || Ascii.eqb c "]"%char || Ascii.eqb c "}"%char
  end.

Lemma rest_ok_num_end s : rest_ok s = true -> num_end s.
Proof.
  destruct s as [|c s]; [done|]. cbn [rest_ok].
  intros H. repeat (apply orb_prop in H as [H|H]); apply Ascii.eqb_eq in H as ->; cbn; split_and!; done.
Qed.

(** ** Round trip *)

Definition reads_back (x : Value) : Prop :=
  forall n rest, wf_value x = true -> small_ints x = true -> vsize x <= n -> rest_ok rest = true ->
  parse_value n (json_text x ++ rest) = Scanned x rest.

Lemma parse_elems_text l :
  Forall reads_back l -> forallb wf_value l = true -> forallb small_ints l = true ->
  forall m acc rest, l <> [] -> list_sum (map (fun x => S (vsize x)) l) <= m ->
  parse_elems m (join "," (map json_text l) ++ String "]"%char rest) acc = Scanned (VList (app (rev acc) l)) rest.
Proof.
  induction 1 as [|x l Hx Hl IH]; intros Hwf Hsm m acc rest Hne Hm; [done|].
  cbn [forallb] in Hwf, Hsm. apply andb_prop in Hwf as [Hwx Hwl]. apply andb_prop in Hsm as [Hsx Hsl].
  simpl in Hm. destruct m as [|m]; [lia|]. cbn [parse_elems map].
  rewrite join_app_cons.
  destruct l as [|y l].
  - rewrite Hx by (done || lia || reflexivity). cbn. done.
  - rewrite Hx by (done || reflexivity || (simpl in Hm; lia)). cbn [map].
    rewrite skip_ws_head by reflexivity. cbn -[parse_elems skip_ws join json_text String.append].
    rewrite join_app_cons, skip_ws_text, <- join_app_cons.
    change (json_text y :: map json_text l) with (map json_text (y :: l)).
    rewrite IH by (done || (simpl in Hm |- *; lia)).
    cbn. by rewrite <- app_assoc.
Qed.

Lemma quote_app k R : quote k ++ R = String dq (escape k ++ String dq R).
Proof. unfold quote. rewrite str_app_cons, !str_app_assoc. reflexivity. Qed.

Lemma parse_members_text ps :
  Forall (fun kv => reads_back kv.2) ps -> forallb (fun kv => wf_value kv.2) ps = true ->
  forallb (fun kv => small_ints kv.2) ps = true ->
  forall m acc rest X, ps <> [] -> list_sum (map (fun kv => S (vsize kv.2)) ps) <= m ->
  join "," (map (fun kv => quote kv.1 ++ ":" ++ json_text kv.2) ps) ++ String "}"%char rest = String dq X ->
  parse_members m X acc = Scanned (VDict (dict_of_pairs (app (rev acc) ps))) rest.
Proof.
  induction 1 as [|[k v] ps Hv Hps IH]; intros Hwf Hsm m acc rest X Hne Hm HX; [done|].
  cbn [forallb] in Hwf, Hsm. apply andb_prop in Hwf as [Hwv Hwps]. apply andb_prop in Hsm as [Hsv Hsps].
  cbn [fst snd] in *.
  simpl in Hm. destruct m as [|m]; [lia|]. cbn [parse_members map] in *.
  rewrite join_app_cons, !str_app_assoc, quote_app in HX. injection HX as <-.
  rewrite parse_str_escape. change (":" ++ ?Y) with (String ":"%char Y).
  rewrite skip_ws_head by reflexivity.
  cbn -[parse_value skip_ws join json_text String.append dict_of_pairs].
  rewrite skip_ws_text.
  destruct ps as [|[k' v'] ps].
  - rewrite Hv by (done || lia || reflexivity).
    cbn -[dict_of_pairs]. done.
  - rewrite Hv by (done || reflexivity || (simpl in Hm; lia)). cbn [map].
    rewrite skip_ws_head by reflexivity. cbn -[parse_members skip_ws join json_text String.append dict_of_pairs].
    destruct (join "," ((quote k' ++ ":" ++ json_text v') :: map (fun kv => quote kv.1 ++ ":" ++ json_text kv.2) ps)
                ++ String "}"%char rest) as [|c X'] eqn:E.
    + rewrite join_app_cons, quote_app in E. discriminate.
    + assert (c = dq) as ->.
      { rewrite join_app_cons, quote_app in E. by injection E. }
      rewrite skip_ws_head by reflexivity. cbn -[parse_members].
      rewrite (IH Hwps Hsps m ((k, v) :: acc) rest X'); [|done|simpl in Hm |- *; lia|exact E].
      cbn. by rewrite <- app_assoc.
Qed.

Lemma parse_value_number n c t x :
  (c = "-"%char \/ exists d, c = digit_char d /\ (0 <= d < 10)%Z) ->
  parse_number (String c t) = Some x -> parse_value (S n) (String c t) = x.
Proof.
  intros Hc Hx. cbn [parse_value].
  assert (Hn : forall a, digit_val a = None -> a <> "-"%char -> Ascii.eqb c a = false).
  { intros a Ha Hm. destruct Hc as [->|(d & -> & Hd)].
    - rewrite Ascii.eqb_sym. destruct (Ascii.eqb_spec a "-"%char); congruence.
    - by apply digit_char_neq. }
  rewrite !Hn by (reflexivity || discriminate). by apply parse_atom_number.
Qed.

Lemma text_reads_back v : reads_back v.
Proof.
  induction v as [s|z|[m e| |[]]|b| |l Hl|ps Hps] using Value_ind';
    intros n rest Hw Hs Hn Hr; (destruct n as [|n]; [cbn in Hn; lia|]).
  - cbn [json_text]. rewrite quote_app. cbn [parse_value]. rewrite Ascii.eqb_refl.
    by rewrite parse_str_escape.
  - cbn [json_text]. destruct (print_Z_head z rest) as (c & t & Ht & _ & Hc). rewrite Ht.
    apply parse_value_number; [done|]. rewrite <- Ht, parse_number_Z by (by apply rest_ok_num_end).
    cbn [small_ints] in Hs. apply Nat.leb_le in Hs. by rewrite (proj2 (Nat.ltb_ge _ _) Hs).
  - pose proof (parse_number_float m e rest (rest_ok_num_end _ Hr)) as H.
    cbn [json_text float_text] in *. rewrite !str_app_assoc in *.
    destruct (print_Z_head m ("e" ++ (print_Z e ++ rest))) as (c & t & Ht & _ & Hc). rewrite Ht in *.
    by apply parse_value_number.
  - reflexivity.
  - reflexivity.
  - reflexivity.
  - destruct b; reflexivity.
  - reflexivity.
  - destruct l as [|x l']; [reflexivity|].
    cbn [json_text]. autorewrite with str. cbn [parse_value]. cbn [vsize] in Hn.
    destruct (text_head x (match map json_text l' with [] => String "]"%char rest
                            | _ => String ","%char (join "," (map json_text l') ++ String "]"%char rest) end))
      as (c & t & Ht & Hc).
    cbn [map]. rewrite join_app_cons, Ht. rewrite skip_ws_head by (unfold head_ok in Hc; destruct (is_ws c); done).
    destruct (Ascii.eqb_spec c "]"%char) as [->|_]; [discriminate|].
    rewrite <- Ht, <- join_app_cons. change (json_text x :: map json_text l') with (map json_text (x :: l')).
    rewrite parse_elems_text; [done|done|exact Hw|exact Hs|discriminate|lia].
  - destruct ps as [|[k x] ps']; [reflexivity|].
    cbn [json_text]. autorewrite with str. cbn [parse_value]. cbn [vsize] in Hn.
    cbn [wf_value] in Hw. apply andb_prop in Hw as [Hnd Hw]. apply bool_decide_eq_true in Hnd.
    destruct (join "," (map (fun kv => quote kv.1 ++ ":" ++ json_text kv.2) ((k, x) :: ps'))
                ++ String "}"%char rest) as [|c X] eqn:E.
    + cbn [map] in E. rewrite join_app_cons, str_app_assoc, quote_app in E. discriminate.
    + assert (c = dq) as ->.
      { cbn [map] in E. rewrite join_app_cons, str_app_assoc, quote_app in E. by injection E. }
      rewrite skip_ws_head by reflexivity. cbn -[parse_members].
      rewrite (parse_members_text _ Hps Hw Hs n [] rest X); [|discriminate|lia|exact E].
      cbn -[dict_of_pairs]. by rewrite dict_of_pairs_nodup.
Qed.

(** ** Size of the text *)

Lemma list_sum_map_le {A} (f g : A -> nat) l :
  Forall (fun x => f x <= g x) l -> list_sum (map f l) <= list_sum (map g l).
Proof. induction 1; simpl; lia. Qed.

Lemma length_join ds : list_sum (map (fun d => S (String.length d)) ds) <= S (String.length (join "," ds)).
Proof.
  induction ds as [|d [|d' ds] IH]; simpl; [lia|lia|].
  rewrite ?str_length_app in *. simpl in *. rewrite ?str_length_app in *. lia.
Qed.

Lemma vsize_length v : vsize v <= String.length (json_text v).
Proof.
  induction v as [s|z|[m e| |[]]|[]| |l Hl|ps Hps] using Value_ind'; cbn [vsize];
    try (match goal with |- 1 <= String.length (json_text ?v) =>
           destruct (text_head v "") as (c & t & Ht & _); rewrite str_app_nil_r in Ht;
           rewrite Ht; simpl; lia end).
  - cbn [json_text]. rewrite !str_length_app. cbn [String.length].
    transitivity (S (list_sum (map (fun d => S (String.length d)) (map json_text l)))).
    + rewrite map_map. apply le_n_S, list_sum_map_le. eapply Forall_impl; [exact Hl|]. intros x Hx. cbv beta in Hx. lia.
    + pose proof (length_join (map json_text l)). lia.
  - cbn [json_text]. rewrite !str_length_app. cbn [String.length].
    transitivity (S (list_sum (map (fun d => S (String.length d))
                                 (map (fun kv => quote kv.1 ++ ":" ++ json_text kv.2) ps)))).
    + rewrite map_map. apply le_n_S, list_sum_map_le. eapply Forall_impl; [exact Hps|].
      intros [k x] Hx. cbv beta in Hx. cbn [fst snd] in *. rewrite !str_length_app. lia.
    + pose proof (length_join (map (fun kv => quote kv.1 ++ ":" ++ json_text kv.2) ps)). lia.
Qed.

Lemma loads_text v : wf_value v = true -> small_ints v = true -> json_loads (json_text v) = inr v.
Proof.
  intros Hw Hs. destruct (text_head v "") as (c & t & Ht & Hc). rewrite str_app_nil_r in Ht.
  pose proof (text_reads_back v (json_fuel (json_text v)) "" Hw Hs) as Hp.
  rewrite str_app_nil_r in Hp. unfold json_loads, json_decode.
  assert (Hws : skip_ws (json_text v) = json_text v).
  { rewrite Ht. apply skip_ws_head. unfold head_ok in Hc. by destruct (is_ws c). }
  rewrite Hws, Hp; [|unfold json_fuel; pose proof (vsize_length v); lia|done].
  rewrite Ht. cbn [String.prefix utf8_bom]. destruct (ascii_dec (ascii_of_nat 239) c) as [<-|]; [discriminate|done].
Qed.

(** ** What the parser returns is a well-formed value *)

Lemma dict_set_keys k v ps x : x ∈ (dict_set k v ps).*1 <-> x = k \/ x ∈ ps.*1.
Proof.
  induction ps as [|[k' v'] ps IH]; cbn [dict_set]; [set_solver|].
  destruct (String.eqb_spec k k') as [->|]; cbn; rewrite ?elem_of_cons, ?IH; naive_solver.
Qed.

Lemma dict_set_nodup k v ps : NoDup ps.*1 -> NoDup (dict_set k v ps).*1.
Proof.
  induction ps as [|[k' v'] ps IH]; cbn [dict_set]; intros Hnd; [by repeat constructor; set_solver|].
  cbn in Hnd. apply NoDup_cons in Hnd as [Hk' Hnd].
  destruct (String.eqb_spec k k') as [->|Hne]; cbn; constructor; try done; [|by apply IH].
  rewrite dict_set_keys. naive_solver.
Qed.

Lemma dict_set_values (P : Value -> Prop) k v ps :
  P v -> Forall (fun kv => P kv.2) ps -> Forall (fun kv => P kv.2) (dict_set k v ps).
Proof.
  intros Hv. induction 1 as [|[k' v'] ps Hv' Hps IH]; cbn [dict_set]; [by repeat constructor|].
  destruct (String.eqb k k'); constructor; done.
Qed.

Lemma dict_of_pairs_wf (P : Value -> Prop) ps :
  Forall (fun kv => P kv.2) ps -> NoDup (dict_of_pairs ps).*1 /\ Forall (fun kv => P kv.2) (dict_of_pairs ps).
Proof.
  unfold dict_of_pairs. intros Hps.
  enough (H : forall acc, NoDup acc.*1 -> Forall (fun kv => P kv.2) acc ->
            NoDup (fold_left (fun acc kv => dict_set kv.1 kv.2 acc) ps acc).*1 /\
            Forall (fun kv => P kv.2) (fold_left (fun acc kv => dict_set kv.1 kv.2 acc) ps acc))
    by (apply H; [constructor|constructor]).
  induction Hps as [|kv ps Hkv Hps IH]; intros acc Hnd Hacc; [done|]. cbn [fold_left].
  apply IH; [by apply dict_set_nodup|by apply dict_set_values].
Qed.

Lemma parse_atom_wf s v r : parse_atom s = Scanned v r -> wf_value v = true.
Proof. unfold parse_atom, parse_number. intros H. repeat case_match; simplify_eq; reflexivity. Qed.

Lemma forallb_wf_rev v acc :
  wf_value v = true -> forallb wf_value acc = true -> forallb wf_value (rev (v :: acc)) = true.
Proof.
  intros Hv Hacc. apply forallb_forall. intros x Hx. apply in_rev in Hx. destruct Hx as [<-|Hx]; [done|].
  by apply (proj1 (forallb_forall _ _) Hacc).
Qed.

Lemma parse_wf n :
  (forall s v r, parse_value n s = Scanned v r -> wf_value v = true) /\
  (forall s acc v r, forallb wf_value acc = true -> parse_elems n s acc = Scanned v r -> wf_value v = true) /\
  (forall s acc v r, Forall (fun kv => wf_value kv.2 = true) acc ->
     parse_members n s acc = Scanned v r -> wf_value v = true).
Proof.
  induction n as [|n (IHv & IHe & IHm)]; [done|]. split_and!.
  - intros s v r H. destruct s as [|c s]; [done|]. cbn [parse_value] in H.
    repeat case_match; simplify_eq; try (solve [eauto using parse_atom_wf]). exact (IHe _ [] _ _ eq_refl H).
  - intros s acc v r Hacc H. cbn [parse_elems] in H.
    repeat case_match; simplify_eq; eauto.
    + cbn [wf_value]. apply forallb_wf_rev; eauto.
    + eapply IHe; [|eassumption]. cbn. apply andb_true_intro. eauto.
  - intros s acc v r Hacc H. cbn [parse_members] in H.
    repeat case_match; simplify_eq.
    + cbn [wf_value]. destruct (dict_of_pairs_wf (fun x => wf_value x = true) (rev ((s0, v0) :: acc)))
        as [Hnd Hall].
      { apply Forall_rev. constructor; eauto. }
      apply andb_true_intro. split; [by apply bool_decide_eq_true|].
      apply forallb_forall. intros kv Hkv. eapply (proj1 (Forall_forall _ _)) in Hall; [exact Hall|].
      by apply list_elem_of_In.
    + eapply IHm; [|eassumption]. constructor; eauto.
Qed.

Lemma loads_wf s v : json_loads s = inr v -> wf_value v = true.
Proof.
  unfold json_loads, json_decode. intros H. repeat case_match; simplify_eq. eapply (proj1 (parse_wf _)). eassumption.
Qed.

(** ** Every step consumes text *)

Lemma skip_ws_len s : String.length (skip_ws s) <= String.length s.
Proof. induction s as [|c s IH]; cbn; [lia|]. destruct (is_ws c); cbn; lia. Qed.

Lemma parse_str_len s x r : parse_str s = Some (x, r) -> String.length r < String.length s.
Proof.
  revert x r. induction s as [s IH] using (induction_ltof1 _ String.length); unfold ltof in IH.
  intros x r H. destruct s as [|c s]; [discriminate|]. cbn [parse_str] in H.
  repeat case_match; simplify_eq; cbn;
    match goal with
    | H : parse_str ?t = Some _ |- _ => apply IH in H; cbn in *; lia
    | _ => lia
    end.
Qed.

Lemma read_digits_len s acc k v j r :
  read_digits s acc k = (v, j, r) -> String.length r + (j - k) = String.length s /\ k <= j.
Proof.
  revert acc k. induction s as [|c s IH]; intros acc k H; cbn in H.
  - simplify_eq. cbn. lia.
  - destruct (digit_val c); [|simplify_eq; cbn; lia].
    apply IH in H. cbn. lia.
Qed.

Lemma strip_prefix_len p s r :
  strip_prefix p s = Some r -> String.length r + String.length p = String.length s.
Proof.
  revert s. induction p as [|a p IH]; intros s H; [cbn in H; simplify_eq; cbn; lia|].
  destruct s as [|b s]; cbn in H; [discriminate|]. destruct (Ascii.eqb a b); [|discriminate].
  apply IH in H. cbn. lia.
Qed.

Lemma parse_number_len s v r : parse_number s = Some (Scanned v r) -> String.length r < String.length s.
Proof.
  unfold parse_number, read_sign, read_int_part, read_frac, read_exp, read_exp_sign. intros H.
  repeat (case_match; simplify_eq; try match goal with
    | E : read_digits _ _ _ = _ |- _ => apply read_digits_len in E
    end); cbn in *; lia.
Qed.

Lemma parse_atom_len s v r : parse_atom s = Scanned v r -> String.length r < String.length s.
Proof.
  unfold parse_atom. intros H.
  repeat (case_match; simplify_eq; try match goal with
    | E : strip_prefix _ _ = Some _ |- _ => apply strip_prefix_len in E; cbn in E
    | E : parse_number _ = Some (Scanned _ _) |- _ => apply parse_number_len in E
    end); lia.
Qed.

Lemma parse_len n :
  (forall s v r, parse_value n s = Scanned v r -> String.length r < String.length s) /\
  (forall s acc v r, parse_elems n s acc = Scanned v r -> String.length r < String.length s) /\
  (forall s acc v r, parse_members n s acc = Scanned v r -> String.length r < String.length s).
Proof.
  induction n as [|n (IHv & IHe & IHm)]; [done|]. split_and!.
  - intros s v r H. destruct s as [|c s]; [done|]. cbn [parse_value] in H.
    repeat case_match; simplify_eq;
      repeat match goal with
      | E : skip_ws ?t = String _ _ |- _ =>
          let L := fresh in pose proof (skip_ws_len t) as L; rewrite E in L; cbn in L; clear E
      | E : parse_str _ = Some _ |- _ => apply parse_str_len in E
      | E : parse_members _ _ _ = Scanned _ _ |- _ => apply IHm in E
      | E : parse_elems _ _ _ = Scanned _ _ |- _ => apply IHe in E
      | E : parse_atom _ = Scanned _ _ |- _ => apply parse_atom_len in E
      end; cbn in *; lia.
  - intros s acc v r H. cbn [parse_elems] in H.
    repeat case_match; simplify_eq;
      repeat match goal with
      | E : skip_ws ?t = String _ _ |- _ =>
          let L := fresh in pose proof (skip_ws_len t) as L; rewrite E in L; cbn in L; clear E
      | E : parse_value _ _ = Scanned _ _ |- _ => apply IHv in E
      | E : parse_elems _ (skip_ws ?t) _ = Scanned _ _ |- _ =>
          let L := fresh in pose proof (skip_ws_len t) as L; apply IHe in E
      end; cbn in *; lia.
  - intros s acc v r H. cbn [parse_members] in H.
    repeat case_match; simplify_eq;
      repeat match goal with
      | E : skip_ws ?t = String _ _ |- _ =>
          let L := fresh in pose proof (skip_ws_len t) as L; rewrite E in L; cbn in L; clear E
      | E : parse_str _ = Some _ |- _ => apply parse_str_len in E
      | E : parse_value _ (skip_ws ?t) = Scanned _ _ |- _ =>
          let L := fresh in pose proof (skip_ws_len t) as L; apply IHv in E
      | E : parse_members _ _ _ = Scanned _ _ |- _ => apply IHm in E
      end; cbn in *; lia.
Qed.

(** Recording the length facts of the text the parser has consumed. *)
Ltac len_facts :=
  repeat match goal with
  | E : skip_ws ?t = String _ _ |- _ =>
      let L := fresh in pose proof (skip_ws_len t) as L; rewrite E in L; clear E
  | E : parse_str _ = Some _ |- _ => apply parse_str_len in E
  | E : parse_value _ _ = Scanned _ _ |- _ => apply (proj1 (parse_len _)) in E
  | H : context [String.length (skip_ws ?t)] |- _ =>
      lazymatch goal with
      | _ : String.length (skip_ws t) <= String.length t |- _ => fail
      | _ => pose proof (skip_ws_len t)
      end
  | |- context [String.length (skip_ws ?t)] =>
      lazymatch goal with
      | _ : String.length (skip_ws t) <= String.length t |- _ => fail
      | _ => pose proof (skip_ws_len t)
      end
  end; cbn [String.length] in *.

Lemma parse_elems_S n s acc :
  parse_elems (S n) s acc =
  match parse_value n s with
  | ScanError e => ScanError e
  | Scanned v r =>
      match skip_ws r with
      | String c r1 =>
          if Ascii.eqb c "]"%char then Scanned (VList (rev (v :: acc))) r1
          else if Ascii.eqb c ","%char then parse_elems n (skip_ws r1) (v :: acc)
          else ScanError JSONDecodeError
      | EmptyString => ScanError JSONDecodeError
      end
  end.
Proof. reflexivity. Qed.

Lemma parse_members_S n s acc :
  parse_members (S n) s acc =
  match parse_str s with
  | None => ScanError JSONDecodeError
  | Some (k, r) =>
      match skip_ws r with
      | String c r1 =>
          if Ascii.eqb c ":"%char then
            match parse_value n (skip_ws r1) with
            | ScanError e => ScanError e
            | Scanned v r2 =>
                match skip_ws r2 with
                | String c2 r3 =>
                    if Ascii.eqb c2 "}"%char then
                      Scanned (VDict (dict_of_pairs (rev ((k, v) :: acc)))) r3
                    else if Ascii.eqb c2 ","%char then
                      match skip_ws r3 with
                      | String c3 r4 =>
                          if Ascii.eqb c3 dq then parse_members n r4 ((k, v) :: acc)
                          else ScanError JSONDecodeError
                      | EmptyString => ScanError JSONDecodeError
                      end
                    else ScanError JSONDecodeError
                | EmptyString => ScanError JSONDecodeError
                end
            end
          else ScanError JSONDecodeError
      | EmptyString => ScanError JSONDecodeError
      end
  end.
Proof. reflexivity. Qed.

Lemma parse_fuel n :
  (forall s, 2 * String.length s + 1 <= n -> parse_value (S n) s = parse_value n s) /\
  (forall s acc, 2 * String.length s + 2 <= n -> parse_elems (S n) s acc = parse_elems n s acc) /\
  (forall s acc, 2 * String.length s + 2 <= n -> parse_members (S n) s acc = parse_members n s acc).
Proof.
  induction n as [|n (IHv & IHe & IHm)]; [split_and!; intros; lia|]. split_and!.
  - intros s Hs. destruct s as [|c s]; [reflexivity|]. cbn [parse_value].
    repeat case_match; try reflexivity; [apply IHm|apply IHe]; len_facts; lia.
  - intros s acc Hs. rewrite (parse_elems_S (S n)), (parse_elems_S n), IHv by lia.
    destruct (parse_value n s) as [v r|e] eqn:Ev; [|reflexivity].
    destruct (skip_ws r) as [|c r1] eqn:Er; [reflexivity|].
    destruct (Ascii.eqb c "]"%char); [reflexivity|]. destruct (Ascii.eqb c ","%char); [|reflexivity].
    apply IHe. len_facts. lia.
  - intros s acc Hs. rewrite (parse_members_S (S n)), (parse_members_S n).
    destruct (parse_str s) as [[k r]|] eqn:Ek; [|reflexivity].
    destruct (skip_ws r) as [|c r1] eqn:Er; [reflexivity|].
    destruct (Ascii.eqb c ":"%char); [|reflexivity].
    rewrite IHv by (len_facts; lia).
    destruct (parse_value n (skip_ws r1)) as [v r2|e] eqn:Ev; [|reflexivity].
    destruct (skip_ws r2) as [|c2 r3] eqn:Er2; [reflexivity|].
    destruct (Ascii.eqb c2 "}"%char); [reflexivity|]. destruct (Ascii.eqb c2 ","%char); [|reflexivity].
    destruct (skip_ws r3) as [|c3 r4] eqn:Er3; [reflexivity|].
    destruct (Ascii.eqb c3 dq); [|reflexivity].
    apply IHm. len_facts. lia.
Qed.

Lemma parse_value_fuel s n : json_fuel s <= n -> parse_value n s = parse_value (json_fuel s) s.
Proof.
  induction n as [|n IH]; intros Hn; [unfold json_fuel in Hn; lia|].
  destruct (decide (json_fuel s = S n)) as [<-|Hne]; [done|].
  rewrite (proj1 (parse_fuel n)) by (unfold json_fuel in *; lia). apply IH. lia.
Qed.

(** ** One integer entry *)

(** The text [{"k": <z>}] of one integer entry. *)
Definition int_entry_text (k : string) (z : Z) : string := "{" ++ (quote k ++ ":" ++ print_Z z) ++ "}".

(** [json.loads] of one integer entry: the dict, or [int()]'s error when
    the literal has more than [int_max_str_digits] digits. *)
Lemma loads_int_entry k z :
  json_loads (int_entry_text k z) =
    if (int_max_str_digits <? int_digits z)%nat then inl (IntTooLong (int_digits z))
    else inr (VDict [(k, VInt z)]).
Proof.
  destruct (int_max_str_digits <? int_digits z)%nat eqn:Hb.
  2:{ change (int_entry_text k z) with (json_text (VDict [(k, VInt z)])). apply loads_text; [reflexivity|].
      cbn. rewrite andb_true_r. apply Nat.leb_le, Nat.ltb_ge, Hb. }
  unfold int_entry_text. rewrite !str_app_assoc. change ("{" ++ ?Y) with (String "{"%char Y). rewrite quote_app.
  unfold json_loads, json_decode. cbn [String.prefix utf8_bom].
  destruct (ascii_dec (ascii_of_nat 239) "{"%char) as [E|_]; [discriminate|].
  rewrite skip_ws_head by reflexivity.
  remember (String "{"%char _) as s eqn:Es.
  assert (Hf : exists n, json_fuel s = S (S (S n))).
  { exists (2 * String.length s - 2). unfold json_fuel. rewrite Es. cbn [String.length]. lia. }
  destruct Hf as [n ->]. rewrite Es. cbn [parse_value]. cbn [Ascii.eqb dq Ascii.ascii_of_nat].
  rewrite skip_ws_head by reflexivity. cbn -[parse_members escape String.append].
  rewrite parse_members_S, parse_str_escape. change (":" ++ ?Y) with (String ":"%char Y).
  rewrite skip_ws_head by reflexivity. cbn -[parse_value String.append print_Z].
  destruct (print_Z_head z "}") as (c & t & Ht & Hc & Hd). rewrite Ht, skip_ws_head
    by (unfold head_ok in Hc; by destruct (is_ws c)).
  rewrite (parse_value_number _ c t (ScanError (IntTooLong (int_digits z)))); [reflexivity|exact Hd|].
  rewrite <- Ht, parse_number_Z by (by apply rest_ok_num_end). by rewrite Hb.
Qed.
