(* ===== verification/Float.v ===== *)
(** * Float: [float()] of a JSON number, [float.__repr__] and [json.dumps]

    A JSON number with a fraction or an exponent is read by [float()]
    (Json keeps the decimal [m * 10^e] the text denotes); what the
    program holds is the IEEE 754 double nearest that decimal, ties to
    even, or an infinity when it overflows.  When a response carries such
    a value (a [result] the actor supplied, src/test.py line 359, shown by
    the API, src/api.py line 23), Starlette's [JSONResponse] prints it
    with [json.dumps]: [repr(x)] for a finite double ([float.__repr__],
    CPython's [PyOS_double_to_string(x, 'r', 0, Py_DTSF_ADD_DOT_0)]),
    [Infinity], [-Infinity] or [NaN] otherwise, which [allow_nan=False]
    refuses.  Python's [json] and [float] are not code of this
    repository: this file models them from their specification.

    [dec_to_double] rounds exactly, on integers: the value [n / d] is
    scaled by the power of two that leaves 53 significant bits (or the
    subnormal unit [2^-1074]) and rounded half to even.  [float_repr]
    is the shortest decimal that reads back as the same double (David
    Gay's mode 0), searched from one significant digit up: at [p] digits
    the two [p]-digit decimals around [x] are the only candidates, and
    the nearer one is taken when both read back; seventeen digits always
    read back (IEEE 754), so the search ends there.  The digits are then
    written in fixed notation when the decimal exponent is between [-4]
    and [16], in exponent notation otherwise.

    The decimal of Json has no sign when its mantissa is zero, so the
    text [-0.0] is read as [0.0] (Python keeps the sign and prints
    [-0.0]); a decimal that underflows keeps its sign. *)

From S2P Require Import Prelude Model Json.
From Stdlib Require Import Ascii.
Open Scope list_scope.
Open Scope string_scope.
Local Open Scope Z_scope.

(** ** Doubles *)

(** A double: [±M * 2^E] with [M < 2^53] and [E >= -1074], [E] the least
    such exponent (so [2^52 <= M] unless [E = -1074]), or an infinity. *)
Inductive Double :=
| DFin (neg : bool) (M E : Z)
| DInf (neg : bool).

#[export] Instance Double_eq_dec : EqDecision Double.
Proof. solve_decision. Defined.

(** The exponent of the least subnormal, [2^-1074]. *)
Definition emin : Z := -1074.

(** [n / d] rounded half to even ([n >= 0], [d > 0]). *)
Definition round_div (n d : Z) : Z :=
  let q := n / d in
  let r2 := 2 * (n mod d) in
  if r2 <? d then q else if d <? r2 then q + 1 else if Z.even q then q else q + 1.

(** [floor(log2(n / d))] for [n, d > 0]: [log2 n - log2 d] or one less. *)
Definition flog2 (n d : Z) : Z :=
  let l := Z.log2 n - Z.log2 d in
  if 0 <=? l then (if n <? d * 2 ^ l then l - 1 else l)
  else (if n * 2 ^ (- l) <? d then l - 1 else l).

(** [n / d / 2^E] as a fraction. *)
Definition scale2 (n d E : Z) : Z * Z :=
  if 0 <=? E then (n, d * 2 ^ E) else (n * 2 ^ (- E), d).

(** The double nearest [n / d >= 0]: [None] when it overflows. *)
Definition round_ratio (n d : Z) : option (Z * Z) :=
  if n =? 0 then Some (0, emin) else
  let E := Z.max (flog2 n d - 52) emin in
  let '(n', d') := scale2 n d E in
  let M := round_div n' d' in
  let '(M, E) := if M =? 2 ^ 53 then (2 ^ 52, E + 1) else (M, E) in
  if 971 <? E then None else Some (M, E).

(** [float(text)] for the decimal [m * 10^e] of a number's text.  A
    decimal that [dec_is_zero] finds at most [2^-1075] is zero, and one
    of [10^309] or more overflows, so that the powers computed stay of
    the size of the text. *)
Definition dec_to_double (m e : Z) : Double :=
  let neg := m <? 0 in
  if dec_is_zero m e then DFin neg 0 emin
  else if 309 <=? e then DInf neg
  else
    let '(n, d) := if 0 <=? e then (Z.abs m * 10 ^ e, 1) else (Z.abs m, 10 ^ (- e)) in
    match round_ratio n d with
    | Some (M, E) => DFin neg M E
    | None => DInf neg
    end.

(** ** [float.__repr__] *)

(** [M * 2^E] as a fraction. *)
Definition dbl_ratio (M E : Z) : Z * Z :=
  if 0 <=? E then (M * 2 ^ E, 1) else (M, 2 ^ (- E)).

(** [floor(log10(n / d))] for [n, d > 0]. *)
Definition flog10 (n d : Z) : Z :=
  if d <=? n then Z.of_nat (int_digits (n / d)) - 1
  else
    let j := Z.of_nat (int_digits (d / n)) in
    if n * 10 ^ (j - 1) <? d then - j else 1 - j.

(** [n / d / 10^s] as a fraction. *)
Definition scale10 (n d s : Z) : Z * Z :=
  if 0 <=? s then (n, d * 10 ^ s) else (n * 10 ^ (- s), d).

(** The [p]-digit decimal [c * 10^s] that reads back as [x = M * 2^E =
    n / d] (whose decimal exponent is [k]), if one does: the one below
    [x] or the one above, the nearer when both do. *)
Definition candidate (M E n d k p : Z) : option (Z * Z) :=
  let s := k - p + 1 in
  let '(n', d') := scale10 n d s in
  let lo := n' / d' in
  let r2 := 2 * (n' mod d') in
  let back c := bool_decide (dec_to_double c s = DFin false M E) in
  if r2 =? 0 then Some (lo, s)
  else
    match back lo, back (lo + 1) with
    | true, true => Some (if r2 <=? d' then lo else lo + 1, s)
    | true, false => Some (lo, s)
    | false, true => Some (lo + 1, s)
    | false, false => None
    end.

(** The fewest digits from [p] on; past the fuel, the nearest decimal of
    [p] digits. *)
Fixpoint shortest (fuel : nat) (M E n d k p : Z) : Z * Z :=
  match fuel with
  | O => let s := k - p + 1 in let '(n', d') := scale10 n d s in (round_div n' d', s)
  | S f =>
      match candidate M E n d k p with
      | Some r => r
      | None => shortest f M E n d k (p + 1)
      end
  end.

(** The digits without their trailing zeros. *)
Fixpoint strip_zeros (fuel : nat) (c s : Z) : Z * Z :=
  match fuel with
  | O => (c, s)
  | S f => if (c mod 10 =? 0) && negb (c =? 0) then strip_zeros f (c / 10) (s + 1) else (c, s)
  end.

Definition zeros (k : Z) : string := repeat_char (Z.to_nat k) "0"%char.

(** [format_float_short] with [repr]'s settings: the digits [ds] of
    [c], the decimal point [decpt] places from their left. *)
Definition format_repr (neg : bool) (c s : Z) : string :=
  let ds := digits_Z c in
  let nd := Z.of_nat (String.length ds) in
  let decpt := nd + s in
  (if neg then "-" else "") ++
  (if (decpt <=? -4) || (16 <? decpt) then
     let x := decpt - 1 in
     substring 0 1 ds ++ (if 1 <? nd then "." ++ substring 1 (String.length ds - 1)%nat ds else "") ++
     "e" ++ (if x <? 0 then "-" else "+") ++ (if Z.abs x <? 10 then "0" else "") ++ digits_Z (Z.abs x)
   else if decpt <=? 0 then "0." ++ zeros (- decpt) ++ ds
   else if decpt <? nd then
     substring 0 (Z.to_nat decpt) ds ++ "." ++ substring (Z.to_nat decpt) (Z.to_nat (nd - decpt)) ds
   else ds ++ zeros (decpt - nd) ++ ".0").

(** [repr(x)] of a finite double. *)
Definition float_repr (neg : bool) (M E : Z) : string :=
  if M =? 0 then (if neg then "-0.0" else "0.0")
  else
    let '(n, d) := dbl_ratio M E in
    let '(c, s) := shortest 17 M E n d (flog10 n d) 1 in
    let '(c, s) := strip_zeros 17 c s in
    format_repr neg c s.

(** [floatstr] of [json.encoder]: [repr] of a finite double, and the
    names of the other values. *)
Definition print_float (f : JFloat) : string :=
  match f with
  | FDec m e =>
      match dec_to_double m e with
      | DFin neg M E => float_repr neg M E
      | DInf neg => if neg then "-Infinity" else "Infinity"
      end
  | FNaN => "NaN"
  | FInf false => "Infinity"
  | FInf true => "-Infinity"
  end.

(** The value is a finite double. *)
Definition float_finite (f : JFloat) : bool :=
  match f with
  | FDec m e => match dec_to_double m e with DFin _ _ _ => true | DInf _ => false end
  | _ => false
  end.

(** ** [json.dumps(ensure_ascii=False, separators=(",", ":"))] *)

Fixpoint json_dumps (v : Value) : string :=
  match v with
  | VStr s => quote s
  | VInt z => print_Z z
  | VFloat f => print_float f
  | VBool true => "true"
  | VBool false => "false"
  | VNone => "null"
  | VList l => "[" ++ join "," (map json_dumps l) ++ "]"
  | VDict ps => "{" ++ join "," (map (fun kv => quote kv.1 ++ ":" ++ json_dumps kv.2) ps) ++ "}"
  end.

(** ** What [repr] prints *)

(** Python's outputs on a few texts: [0.1], [1.5], [1e16], [1e15],
    [1e-5], [1e-4], [123456789012345678.0], [5e-324], [-1e-400],
    [1e309], [0.30000000000000004] and [9007199254740993.0] print as
    below (the last is [2^53 + 1], rounded to even). *)
Lemma print_float_examples :
  map (fun me => print_float (FDec me.1 me.2))
    [(1, -1); (15, -1); (1, 16); (1, 15); (1, -5); (1, -4); (123456789012345678, 0); (5, -324);
     (-1, -400); (1, 309); (30000000000000004, -17); (90071992547409930, -1)] =
  ["0.1"; "1.5"; "1e+16"; "1000000000000000.0"; "1e-05"; "0.0001"; "1.2345678901234568e+17"; "5e-324";
   "-0.0"; "Infinity"; "0.30000000000000004"; "9007199254740992.0"].
Proof. vm_compute. reflexivity. Qed.
