(* ===== verification/Bytes.v ===== *)
(** * Bytes: [json.loads] of a [bytes] body

    FastAPI reads the body of [POST /workflow/{id}/human-step] (src/api.py,
    lines 12-13) as [bytes] and, when it is not empty, Starlette's
    [Request.json()] calls [json.loads] on those bytes.  On [bytes],
    [json.loads] (Python's [json/__init__.py], not code of this repository)
    first chooses a codec with [detect_encoding] from the byte order mark
    or the pattern of zero bytes among the first four, decodes with that
    codec and the ["surrogatepass"] error handler, then hands the [str] to
    the decoder of Json ([json_decode]): unlike [json.loads] on a [str] it
    does not refuse a leading U+FEFF, since [utf-8-sig] has already
    removed one.  A codec error is a [UnicodeDecodeError].

    The codecs follow CPython's decoders: UTF-8 with the shortest form
    only and code points up to U+10FFFF, where ["surrogatepass"] also
    accepts the three-byte form of a surrogate; UTF-16 and UTF-32 in
    either byte order, where it accepts a lone surrogate unit; an odd
    trailing byte or a UTF-32 unit above U+10FFFF is an error.  A [str] is
    represented as in Json, by the UTF-8 bytes of its code points
    ([text_of]); [utf8_decode] with [surrogatepass = false] is the strict
    codec, which [str.encode("utf-8")] of a response needs (ApiBody). *)

From S2P Require Import Prelude Model Json.
From Stdlib Require Import Ascii.
Open Scope list_scope.
Open Scope string_scope.

(** ** Bytes and code points *)

(** The value of a byte. *)
Definition bval (c : ascii) : Z := Z.of_nat (nat_of_ascii c).

(** A continuation byte [10xxxxxx] between [lo] and [hi]. *)
Definition byte_in (lo hi : Z) (c : ascii) : bool := (lo <=? bval c)%Z && (bval c <=? hi)%Z.

Definition cont_byte (c : ascii) : bool := byte_in 128 191 c.

(** A [str] given by its code points, in the representation of Json. *)
Definition text_of (cps : list Z) : string :=
  fold_right (fun cp t => utf8_encode cp ++ t) EmptyString cps.

(** ** UTF-8 ([Objects/stringlib/codecs.h], [utf8_decode]) *)

(** The range of the second byte after the lead byte [b0] of a three-byte
    form: [E0] needs [A0..BF] (shortest form), [ED] [80..9F] unless
    surrogates pass. *)
Definition second3 (sp : bool) (b0 : Z) (c : ascii) : bool :=
  if (b0 =? 224)%Z then byte_in 160 191 c
  else if (b0 =? 237)%Z && negb sp then byte_in 128 159 c
  else cont_byte c.

(** After [F0] the second byte is [90..BF], after [F4] [80..8F]. *)
Definition second4 (b0 : Z) (c : ascii) : bool :=
  if (b0 =? 240)%Z then byte_in 144 191 c
  else if (b0 =? 244)%Z then byte_in 128 143 c
  else cont_byte c.

(** The code point of a two-, three- or four-byte form, computed as
    CPython does: the bytes shifted into place, less the marker bits. *)
Definition cp2 (b0 b1 : Z) : Z :=
  (Z.shiftl b0 6 + b1 - (Z.shiftl 192 6 + 128))%Z.

Definition cp3 (b0 b1 b2 : Z) : Z :=
  (Z.shiftl b0 12 + Z.shiftl b1 6 + b2 - (Z.shiftl 224 12 + Z.shiftl 128 6 + 128))%Z.

Definition cp4 (b0 b1 b2 b3 : Z) : Z :=
  (Z.shiftl b0 18 + Z.shiftl b1 12 + Z.shiftl b2 6 + b3
   - (Z.shiftl 240 18 + Z.shiftl 128 12 + Z.shiftl 128 6 + 128))%Z.

(** [bytes.decode("utf-8", errors)]: [sp] is ["surrogatepass"]. *)
Fixpoint utf8_decode (sp : bool) (s : string) : option (list Z) :=
  match s with
  | EmptyString => Some []
  | String a r =>
      let b0 := bval a in
      if (b0 <? 128)%Z then option_map (cons b0) (utf8_decode sp r)
      else if (194 <=? b0)%Z && (b0 <=? 223)%Z then
        match r with
        | String a1 r1 =>
            if cont_byte a1 then option_map (cons (cp2 b0 (bval a1))) (utf8_decode sp r1) else None
        | EmptyString => None
        end
      else if (224 <=? b0)%Z && (b0 <=? 239)%Z then
        match r with
        | String a1 (String a2 r2) =>
            if second3 sp b0 a1 && cont_byte a2
            then option_map (cons (cp3 b0 (bval a1) (bval a2))) (utf8_decode sp r2) else None
        | _ => None
        end
      else if (240 <=? b0)%Z && (b0 <=? 244)%Z then
        match r with
        | String a1 (String a2 (String a3 r3)) =>
            if second4 b0 a1 && cont_byte a2 && cont_byte a3
            then option_map (cons (cp4 b0 (bval a1) (bval a2) (bval a3))) (utf8_decode sp r3) else None
        | _ => None
        end
      else None
  end.

(** ** UTF-16 and UTF-32 *)

(** The code units of [s], two bytes each; an odd trailing byte is
    "truncated data". *)
Fixpoint utf16_units (be : bool) (s : string) : option (list Z) :=
  match s with
  | EmptyString => Some []
  | String a (String b r) =>
      option_map (cons (if be then 256 * bval a + bval b else 256 * bval b + bval a)%Z) (utf16_units be r)
  | String _ EmptyString => None
  end.

(** A high surrogate followed by a low one is one code point; a lone
    surrogate passes. *)
Fixpoint utf16_pairs (us : list Z) : list Z :=
  match us with
  | u1 :: (u2 :: rest) as tl =>
      if high_surrogate u1 && low_surrogate u2
      then (65536 + Z.lor (Z.shiftl (u1 - 55296) 10) (u2 - 56320))%Z :: utf16_pairs rest
      else u1 :: utf16_pairs tl
  | _ => us
  end.

Definition utf16_decode (be : bool) (s : string) : option (list Z) :=
  option_map utf16_pairs (utf16_units be s).

(** Four bytes a unit; a unit above U+10FFFF is an error. *)
Fixpoint utf32_decode (be : bool) (s : string) : option (list Z) :=
  match s with
  | EmptyString => Some []
  | String a (String b (String c (String d r))) =>
      let u := if be then (16777216 * bval a + 65536 * bval b + 256 * bval c + bval d)%Z
               else (16777216 * bval d + 65536 * bval c + 256 * bval b + bval a)%Z in
      if (u <=? 1114111)%Z then option_map (cons u) (utf32_decode be r) else None
  | _ => None
  end.

(** ** [detect_encoding] and [json.loads] on [bytes] *)

Inductive Encoding :=
| Utf8 | Utf8Sig | Utf16 | Utf16BE | Utf16LE | Utf32 | Utf32BE | Utf32LE.

Definition bytes_of (l : list nat) : string := fold_right (fun n s => String (ascii_of_nat n) s) EmptyString l.

Definition bom_utf32_be : string := bytes_of [0; 0; 254; 255].
Definition bom_utf32_le : string := bytes_of [255; 254; 0; 0].
Definition bom_utf16_be : string := bytes_of [254; 255].
Definition bom_utf16_le : string := bytes_of [255; 254].

Definition is_zero (c : ascii) : bool := Nat.eqb (nat_of_ascii c) 0.

(** [detect_encoding(b)] *)
Definition detect_encoding (b : string) : Encoding :=
  if String.prefix bom_utf32_be b || String.prefix bom_utf32_le b then Utf32
  else if String.prefix bom_utf16_be b || String.prefix bom_utf16_le b then Utf16
  else if String.prefix utf8_bom b then Utf8Sig
  else if (4 <=? String.length b)%nat then
    match b with
    | String b0 (String b1 (String b2 (String b3 _))) =>
        if is_zero b0 then (if is_zero b1 then Utf32BE else Utf16BE)
        else if is_zero b1 then (if is_zero b2 && is_zero b3 then Utf32LE else Utf16LE)
        else Utf8
    | _ => Utf8
    end
  else if Nat.eqb (String.length b) 2 then
    match b with
    | String b0 (String b1 _) =>
        if is_zero b0 then Utf16BE else if is_zero b1 then Utf16LE else Utf8
    | _ => Utf8
    end
  else Utf8.

(** [b.decode(encoding, "surrogatepass")]: [utf-16] and [utf-32] read
    the byte order from the mark and drop it, [utf-8-sig] drops the UTF-8
    mark. *)
Definition decode_bytes (e : Encoding) (b : string) : option (list Z) :=
  match e with
  | Utf8 => utf8_decode true b
  | Utf8Sig => utf8_decode true (if String.prefix utf8_bom b then substring 3 (String.length b - 3) b else b)
  | Utf16 =>
      if String.prefix bom_utf16_be b then utf16_decode true (substring 2 (String.length b - 2) b)
      else utf16_decode false (substring 2 (String.length b - 2) b)
  | Utf16BE => utf16_decode true b
  | Utf16LE => utf16_decode false b
  | Utf32 =>
      if String.prefix bom_utf32_be b then utf32_decode true (substring 4 (String.length b - 4) b)
      else utf32_decode false (substring 4 (String.length b - 4) b)
  | Utf32BE => utf32_decode true b
  | Utf32LE => utf32_decode false b
  end.

(** [json.loads(b)] on [bytes]. *)
Definition json_loads_bytes (b : string) : JsonError + Value :=
  match decode_bytes (detect_encoding b) b with
  | None => inl UnicodeDecodeError
  | Some cps => json_decode (text_of cps)
  end.

(** ** Bit arithmetic of the codecs *)

Lemma shiftl_6 x : Z.shiftl x 6 = (x * 64)%Z.
Proof. by rewrite Z.shiftl_mul_pow2 by lia. Qed.
Lemma shiftl_12 x : Z.shiftl x 12 = (x * 4096)%Z.
Proof. by rewrite Z.shiftl_mul_pow2 by lia. Qed.
Lemma shiftl_18 x : Z.shiftl x 18 = (x * 262144)%Z.
Proof. by rewrite Z.shiftl_mul_pow2 by lia. Qed.
Lemma shiftr_6 x : Z.shiftr x 6 = (x / 64)%Z.
Proof. by rewrite Z.shiftr_div_pow2 by lia. Qed.
Lemma shiftr_12 x : Z.shiftr x 12 = (x / 4096)%Z.
Proof. by rewrite Z.shiftr_div_pow2 by lia. Qed.
Lemma shiftr_18 x : Z.shiftr x 18 = (x / 262144)%Z.
Proof. by rewrite Z.shiftr_div_pow2 by lia. Qed.
Lemma land_63 x : Z.land x 63 = (x mod 64)%Z.
Proof. exact (Z.land_ones x 6 ltac:(lia)). Qed.

Create Rewrite HintDb zbits.
#[export] Hint Rewrite shiftl_6 shiftl_12 shiftl_18 shiftr_6 shiftr_12 shiftr_18 land_63 Z.shiftr_0_r : zbits.

(** [c lor y] is [c + y] when [y] fits below the low zero bits of [c]. *)
Lemma lor_add_pow2 c y n :
  (0 <= n)%Z -> (0 <= y < 2 ^ n)%Z -> (c mod 2 ^ n = 0)%Z -> Z.lor c y = (c + y)%Z.
Proof.
  intros Hn Hy Hc.
  assert (Hl : Z.land c y = 0%Z).
  { apply Z.bits_inj'. intros i Hi. rewrite Z.land_spec, Z.bits_0.
    destruct (Z.lt_ge_cases i n) as [Hin|Hin].
    - rewrite (Z.div_mod c (2 ^ n)) by (apply Z.pow_nonzero; lia). rewrite Hc, Z.add_0_r, Z.mul_comm.
      by rewrite Z.mul_pow2_bits_low by lia.
    - rewrite <- (Z.mod_small y (2 ^ n)) by lia. rewrite Z.mod_pow2_bits_high by lia. apply andb_false_r. }
  rewrite <- Z.lxor_lor by exact Hl. by rewrite Z.add_nocarry_lxor.
Qed.

Lemma bval_range c : (0 <= bval c < 256)%Z.
Proof. unfold bval. pose proof (nat_ascii_bounded c). lia. Qed.

Lemma byte_of_bval z c : z = bval c -> byte z = c.
Proof.
  intros ->. unfold byte, bval, nat_of_ascii. rewrite <- nat_N_Z, N2Z.id, N2Nat.id.
  apply ascii_N_embedding.
Qed.

(** Linear arithmetic with division and remainder by constants. *)
Ltac zlia := Z.div_mod_to_equations; lia.

(** The bytes [utf8_encode] writes, in each of its four ranges. *)
Lemma utf8_encode_1 cp : (cp < 128)%Z -> utf8_encode cp = String (byte cp) EmptyString.
Proof. intros H. unfold utf8_encode. by rewrite (proj2 (Z.ltb_lt _ _) H). Qed.

Lemma utf8_encode_2 cp : (128 <= cp < 2048)%Z ->
  utf8_encode cp = String (byte (192 + cp / 64)) (String (byte (128 + cp mod 64)) EmptyString).
Proof.
  intros H. unfold utf8_encode. rewrite (proj2 (Z.ltb_ge cp 128)), (proj2 (Z.ltb_lt cp 2048)) by lia.
  autorewrite with zbits.
  rewrite (lor_add_pow2 192 _ 5), (lor_add_pow2 128 _ 6); try done; change (2 ^ 5)%Z with 32%Z;
    change (2 ^ 6)%Z with 64%Z; zlia.
Qed.

Lemma utf8_encode_3 cp : (2048 <= cp < 65536)%Z ->
  utf8_encode cp = String (byte (224 + cp / 4096))
                     (String (byte (128 + (cp / 64) mod 64)) (String (byte (128 + cp mod 64)) EmptyString)).
Proof.
  intros H. unfold utf8_encode.
  rewrite (proj2 (Z.ltb_ge cp 128)), (proj2 (Z.ltb_ge cp 2048)), (proj2 (Z.ltb_lt cp 65536)) by lia.
  autorewrite with zbits.
  rewrite (lor_add_pow2 224 _ 4), !(lor_add_pow2 128 _ 6); try done; change (2 ^ 4)%Z with 16%Z;
    change (2 ^ 6)%Z with 64%Z; zlia.
Qed.

Lemma utf8_encode_4 cp : (65536 <= cp < 2097152)%Z ->
  utf8_encode cp = String (byte (240 + cp / 262144))
                     (String (byte (128 + (cp / 4096) mod 64))
                        (String (byte (128 + (cp / 64) mod 64)) (String (byte (128 + cp mod 64)) EmptyString))).
Proof.
  intros H. unfold utf8_encode.
  rewrite (proj2 (Z.ltb_ge cp 128)), (proj2 (Z.ltb_ge cp 2048)), (proj2 (Z.ltb_ge cp 65536)) by lia.
  autorewrite with zbits.
  rewrite (lor_add_pow2 240 _ 3), !(lor_add_pow2 128 _ 6); try done; change (2 ^ 3)%Z with 8%Z;
    change (2 ^ 6)%Z with 64%Z; zlia.
Qed.

(** ** UTF-8 round trip *)

Lemma text_of_cons cp cps : text_of (cp :: cps) = utf8_encode cp ++ text_of cps.
Proof. reflexivity. Qed.

(** The arithmetic facts of the tests the decoder passed. *)
Ltac byte_facts :=
  repeat match goal with
  | H : (_ && _) = true |- _ => apply andb_prop in H as [? ?]
  | H : negb _ = true |- _ => apply negb_true_iff in H
  | H : (_ <? _)%Z = true |- _ => apply Z.ltb_lt in H
  | H : (_ <? _)%Z = false |- _ => apply Z.ltb_ge in H
  | H : (_ <=? _)%Z = true |- _ => apply Z.leb_le in H
  | H : (_ =? _)%Z = true |- _ => apply Z.eqb_eq in H
  | H : (_ =? _)%Z = false |- _ => apply Z.eqb_neq in H
  | H : cont_byte _ = true |- _ => unfold cont_byte in H
  | H : byte_in _ _ _ = true |- _ => unfold byte_in in H
  | a : ascii |- _ =>
      lazymatch goal with _ : (0 <= bval a < 256)%Z |- _ => fail | _ => pose proof (bval_range a) end
  end.

(** The cases of one step of [utf8_decode] on [String a r] that succeed. *)
Ltac utf8_cases H :=
  cbn [utf8_decode] in H; unfold second3, second4, option_map in H;
  repeat match type of H with
  | context [match ?x with _ => _ end] =>
      lazymatch x with context [match _ with _ => _ end] => fail | _ => idtac end;
      let E := fresh "E" in destruct x eqn:E; cbn [andb negb] in H; try discriminate H
  end; injection H as <-.
Ltac utf8_step H := utf8_cases H; byte_facts.

(** Rewrite the goal with the outcomes of the tests already made. *)
Ltac use_tests :=
  repeat match goal with
  | E : ?b = true |- context [?b] => rewrite E
  | E : ?b = false |- context [?b] => rewrite E
  end.

(** A byte [b] the decoder accepted is the byte of the arithmetic
    expression [z] of the encoder. *)
Ltac cp_range := unfold cp2, cp3, cp4; autorewrite with zbits; zlia.
Ltac byte_eq := apply byte_of_bval; cp_range.

Lemma utf8_decode_text sp s cps : utf8_decode sp s = Some cps -> text_of cps = s.
Proof.
  revert cps. induction s as [s IH] using (induction_ltof1 _ String.length); unfold ltof in IH.
  intros cps H. destruct s as [|a r]; [by injection H as <-|].
  utf8_step H; rewrite text_of_cons;
    match goal with E : utf8_decode _ ?y = Some ?l |- _ => rewrite (IH y ltac:(cbn; lia) l E) end.
  1: rewrite utf8_encode_1 by lia; autorewrite with str; f_equal; byte_eq.
  all: first [rewrite utf8_encode_2 by cp_range | rewrite utf8_encode_3 by cp_range
             | rewrite utf8_encode_4 by cp_range]; autorewrite with str;
    repeat (f_equal; try byte_eq).
Qed.

(** Decoding is compositional at the end of a decoded text. *)
Lemma utf8_decode_app sp a b x :
  utf8_decode sp a = Some x -> utf8_decode sp (a ++ b) = option_map (app x) (utf8_decode sp b).
Proof.
  revert x. induction a as [a IH] using (induction_ltof1 _ String.length); unfold ltof in IH.
  intros x H. destruct a as [|c r]; [injection H as <-; rewrite str_app_nil_l; by destruct (utf8_decode sp b)|].
  utf8_cases H; autorewrite with str; cbn [utf8_decode]; cbv [second3 second4]; use_tests; cbn [andb negb];
    match goal with E : utf8_decode _ ?y = Some ?l |- _ => rewrite (IH y ltac:(cbn; lia) l E) end;
    by destruct (utf8_decode _ b).
Qed.

(** ** The text [json.dumps] writes is UTF-8 *)

(** [utf8_valid sp s]: [s] decodes, with or without surrogates. *)
Definition utf8_valid (sp : bool) (s : string) : bool :=
  match utf8_decode sp s with Some _ => true | None => false end.

(** Every [str] of the value is UTF-8 (the representation of a Python
    [str] is, when [sp] lets surrogates pass). *)
Fixpoint text_value (sp : bool) (v : Value) : bool :=
  match v with
  | VStr s => utf8_valid sp s
  | VList l => forallb (text_value sp) l
  | VDict ps => forallb (fun kv => utf8_valid sp kv.1 && text_value sp kv.2) ps
  | _ => true
  end.

Lemma utf8_valid_spec sp s : utf8_valid sp s = true <-> is_Some (utf8_decode sp s).
Proof.
  unfold utf8_valid. destruct (utf8_decode sp s); split; intros H; first [done | by eexists | by destruct H].
Qed.

Lemma utf8_app sp a b :
  is_Some (utf8_decode sp a) -> is_Some (utf8_decode sp b) -> is_Some (utf8_decode sp (a ++ b)).
Proof. intros [x Hx] [y Hy]. rewrite (utf8_decode_app _ _ _ _ Hx), Hy. by eexists. Qed.

(** An ASCII character followed by UTF-8 is UTF-8. *)
Lemma utf8_ascii sp c t :
  (bval c < 128)%Z -> is_Some (utf8_decode sp t) -> is_Some (utf8_decode sp (String c t)).
Proof.
  intros Hc [y Hy]. cbn [utf8_decode]. rewrite (proj2 (Z.ltb_lt _ _) Hc), Hy. by eexists.
Qed.

(** [escape_char] copies a byte of a multi-byte form and writes ASCII for
    the others (checked for all 256). *)
Lemma escape_char_cases sp c :
  ((bval c < 128)%Z /\ is_Some (utf8_decode sp (escape_char c))) \/ escape_char c = String c EmptyString.
Proof.
  destruct c as [[] [] [] [] [] [] [] []];
    first [right; reflexivity | left; split; [reflexivity | eexists; reflexivity]].
Qed.

Lemma escape_char_high c : (128 <= bval c)%Z -> escape_char c = String c EmptyString.
Proof. intros Hc. destruct (escape_char_cases true c) as [[Hc' _]|H]; [lia|exact H]. Qed.

Lemma escape_utf8 sp s : is_Some (utf8_decode sp s) -> is_Some (utf8_decode sp (escape s)).
Proof.
  induction s as [s IH] using (induction_ltof1 _ String.length); unfold ltof in IH.
  intros [x H]. destruct s as [|a r]; [by eexists|].
  utf8_cases H; cbn [escape].
  1: { destruct (escape_char_cases sp a) as [[_ Hy] | ->].
       - apply utf8_app; [exact Hy|]. apply IH; [cbn; lia|by eexists].
       - apply utf8_ascii; [by apply Z.ltb_lt|]. apply IH; [cbn; lia|by eexists]. }
  all: rewrite !escape_char_high by (byte_facts; lia); autorewrite with str; cbn [utf8_decode];
    cbv [second3 second4]; use_tests; cbn [andb negb];
    match goal with E : utf8_decode _ ?y = Some _ |- _ =>
      destruct (IH y ltac:(cbn; lia) ltac:(by eexists)) as [z ->] end; by eexists.
Qed.

Lemma bval_digit_char d : (0 <= d < 10)%Z -> (bval (digit_char d) < 128)%Z.
Proof. intros Hd. unfold bval, digit_char. rewrite nat_ascii_embedding; lia. Qed.

Lemma utf8_digits sp ds t : Forall (fun d => (0 <= d < 10)%Z) ds ->
  is_Some (utf8_decode sp t) -> is_Some (utf8_decode sp (digits_str ds ++ t)).
Proof.
  induction 1 as [|d ds Hd _ IH]; intros Ht; [done|]. cbn [digits_str fold_right]. rewrite str_app_cons.
  apply utf8_ascii; [by apply bval_digit_char|]. exact (IH Ht).
Qed.

Lemma utf8_print_Z sp z t : is_Some (utf8_decode sp t) -> is_Some (utf8_decode sp (print_Z z ++ t)).
Proof.
  intros Ht. assert (Hd : forall n, is_Some (utf8_decode sp (digits_Z n ++ t))).
  { intros n. apply utf8_digits; [apply Forall_rev, lsd_bounds|exact Ht]. }
  unfold print_Z. destruct (_ <? _)%Z; [|apply Hd]. rewrite str_app_cons. apply utf8_ascii; [reflexivity|apply Hd].
Qed.

Lemma utf8_join sp sep l :
  is_Some (utf8_decode sp sep) -> Forall (fun x => is_Some (utf8_decode sp x)) l ->
  is_Some (utf8_decode sp (join sep l)).
Proof.
  intros Hs. induction 1 as [|x l Hx _ IH]; [by eexists|].
  destruct l as [|y l]; [exact Hx|]. cbn [join]. apply utf8_app; [exact Hx|]. by apply utf8_app.
Qed.

Lemma utf8_quote sp s : is_Some (utf8_decode sp s) -> is_Some (utf8_decode sp (quote s)).
Proof.
  intros Hs. unfold quote. apply utf8_ascii; [reflexivity|]. apply utf8_app; [by apply escape_utf8|by eexists].
Qed.

(** The text [json.dumps] writes for a value whose strings are UTF-8 is
    UTF-8. *)
Lemma text_utf8 sp v : text_value sp v = true -> is_Some (utf8_decode sp (json_text v)).
Proof.
  induction v as [s|z|[m e| |[]]|[]| |l Hl|ps Hps] using Value_ind'; cbn [text_value json_text];
    intros Hv; try (by eexists).
  - apply utf8_quote. by apply utf8_valid_spec.
  - rewrite <- (str_app_nil_r (print_Z z)). apply utf8_print_Z. by eexists.
  - cbn [float_text]. apply utf8_print_Z. apply utf8_app; [by eexists|].
    rewrite <- (str_app_nil_r (print_Z e)). apply utf8_print_Z. by eexists.
  - apply utf8_ascii; [reflexivity|]. apply utf8_app; [|by eexists]. apply utf8_join; [by eexists|].
    apply Forall_map. apply Forall_forall. intros x Hx.
    apply (proj1 (Forall_forall _ _) Hl x Hx). apply (proj1 (forallb_forall _ _) Hv). by apply list_elem_of_In.
  - apply utf8_ascii; [reflexivity|]. apply utf8_app; [|by eexists]. apply utf8_join; [by eexists|].
    apply Forall_map. apply Forall_forall. intros kv Hkv.
    pose proof (proj1 (forallb_forall _ _) Hv kv ltac:(by apply list_elem_of_In)) as Hk.
    apply andb_prop in Hk as [Hk1 Hk2]. apply utf8_app; [by apply utf8_quote, utf8_valid_spec|].
    apply utf8_ascii; [reflexivity|]. exact (proj1 (Forall_forall _ _) Hps kv Hkv Hk2).
Qed.

(** ** [json.loads] on the bytes of a UTF-8 text *)

Lemma is_zero_false c : bval c <> 0%Z -> is_zero c = false.
Proof. unfold is_zero, bval. intros H. apply Nat.eqb_neq. lia. Qed.

Lemma prefix_head_neq a p c s : a <> c -> String.prefix (String a p) (String c s) = false.
Proof. intros H. cbn. by destruct (ascii_dec a c). Qed.

Lemma ascii_neq_bval n c : (n < 256)%nat -> bval c <> Z.of_nat n -> ascii_of_nat n <> c.
Proof. intros Hn Hc <-. apply Hc. unfold bval. by rewrite nat_ascii_embedding. Qed.

(** A text that starts with two non-zero bytes, the first ASCII, is
    decoded as UTF-8. *)
Lemma detect_utf8 c0 c1 t :
  (0 < bval c0 < 128)%Z -> bval c1 <> 0%Z -> detect_encoding (String c0 (String c1 t)) = Utf8.
Proof.
  intros H0 H1. unfold detect_encoding, bom_utf32_be, bom_utf32_le, bom_utf16_be, bom_utf16_le, utf8_bom.
  cbn [bytes_of fold_right].
  rewrite !prefix_head_neq by (apply ascii_neq_bval; lia). cbn [orb].
  rewrite (is_zero_false c0), (is_zero_false c1) by lia.
  destruct t as [|c2 [|c3 t]]; reflexivity.
Qed.

Lemma loads_bytes_utf8 b :
  detect_encoding b = Utf8 -> is_Some (utf8_decode true b) -> json_loads_bytes b = json_decode b.
Proof.
  intros He [x Hx]. unfold json_loads_bytes. rewrite He. cbn [decode_bytes]. rewrite Hx.
  by rewrite (utf8_decode_text _ _ _ Hx).
Qed.

Lemma detect_no_bom b : detect_encoding b = Utf8 -> String.prefix utf8_bom b = false.
Proof.
  unfold detect_encoding. destruct (String.prefix utf8_bom b); [|done]. intros H. by repeat case_match.
Qed.

Lemma bytes_str_agree b :
  detect_encoding b = Utf8 -> is_Some (utf8_decode true b) -> json_loads_bytes b = json_loads b.
Proof.
  intros He Hv. rewrite loads_bytes_utf8 by done. unfold json_loads. by rewrite detect_no_bom.
Qed.

(** The text [json.dumps] writes for a dict is read as UTF-8. *)
Lemma detect_text_dict k x ps :
  detect_encoding (json_text (VDict ((k, x) :: ps))) = Utf8.
Proof.
  change (json_text (VDict ((k, x) :: ps))) with
    (String "{"%char (join "," (map (fun kv => quote kv.1 ++ ":" ++ json_text kv.2) ((k, x) :: ps)) ++ "}")).
  cbn [map]. rewrite join_app_cons, !str_app_assoc, quote_app.
  apply detect_utf8; [split; reflexivity|vm_compute; discriminate].
Qed.

(** ** An ASCII text in every encoding a client may use *)

(** Bytes [1..127]: a JSON text that escapes everything else. *)
Fixpoint ascii_text (s : string) : bool :=
  match s with
  | EmptyString => true
  | String c r => (0 <? bval c)%Z && (bval c <? 128)%Z && ascii_text r
  end.

(** [s.encode("utf-16-le")] and [s.encode("utf-16-be")] of an ASCII
    text. *)
Fixpoint utf16le (s : string) : string :=
  match s with
  | EmptyString => EmptyString
  | String c r => String c (String (ascii_of_nat 0) (utf16le r))
  end.

Fixpoint utf16be (s : string) : string :=
  match s with
  | EmptyString => EmptyString
  | String c r => String (ascii_of_nat 0) (String c (utf16be r))
  end.

(** The values of the bytes of [s]. *)
Fixpoint bvals (s : string) : list Z :=
  match s with
  | EmptyString => []
  | String c r => bval c :: bvals r
  end.

Lemma ascii_text_cons c r : ascii_text (String c r) = true -> (0 < bval c < 128)%Z /\ ascii_text r = true.
Proof. cbn [ascii_text]. intros H. byte_facts. split; [lia|done]. Qed.

Lemma utf8_decode_ascii sp s : ascii_text s = true -> utf8_decode sp s = Some (bvals s).
Proof.
  induction s as [|c r IH]; [done|]. intros [Hc Hr]%ascii_text_cons.
  cbn [utf8_decode]. rewrite (proj2 (Z.ltb_lt _ _) (proj2 Hc)), IH by done. reflexivity.
Qed.

Lemma text_of_ascii s : ascii_text s = true -> text_of (bvals s) = s.
Proof.
  induction s as [|c r IH]; [done|]. intros [Hc Hr]%ascii_text_cons.
  cbn [bvals]. rewrite text_of_cons, utf8_encode_1, IH by (done || lia).
  rewrite (byte_of_bval _ c) by done. reflexivity.
Qed.

Lemma utf16_pairs_ascii s : ascii_text s = true -> utf16_pairs (bvals s) = bvals s.
Proof.
  induction s as [|c r IH]; [done|]. intros [Hc Hr]%ascii_text_cons.
  destruct r as [|c' r']; [done|]. cbn [bvals utf16_pairs].
  replace (high_surrogate (bval c)) with false
    by (unfold high_surrogate; symmetry; apply andb_false_iff; left; apply Z.leb_gt; lia).
  cbn [andb]. f_equal. exact (IH Hr).
Qed.

Lemma utf16_units_le s : utf16_units false (utf16le s) = Some (bvals s).
Proof. induction s as [|c r IH]; [done|]. cbn [utf16le utf16_units]. rewrite IH. reflexivity. Qed.

Lemma utf16_units_be s : utf16_units true (utf16be s) = Some (bvals s).
Proof. induction s as [|c r IH]; [done|]. cbn [utf16be utf16_units]. rewrite IH. reflexivity. Qed.

Lemma substring_all s : substring 0 (String.length s) s = s.
Proof. induction s as [|c s IH]; [done|]. cbn. by rewrite IH. Qed.

Lemma ascii_head_neq c n : (0 < bval c < 128)%Z -> (n = 0 \/ 128 <= n < 256)%nat -> ascii_of_nat n <> c.
Proof. intros Hc Hn. apply ascii_neq_bval; lia. Qed.

Lemma detect_ascii b : b <> "" -> ascii_text b = true -> detect_encoding b = Utf8.
Proof.
  intros Hne Hb. destruct b as [|c0 [|c1 t]]; [done| |].
  - apply ascii_text_cons in Hb as [Hc _].
    unfold detect_encoding, bom_utf32_be, bom_utf32_le, bom_utf16_be, bom_utf16_le, utf8_bom.
    cbn [bytes_of fold_right]. rewrite !prefix_head_neq by (apply ascii_head_neq; [done|lia]). reflexivity.
  - apply ascii_text_cons in Hb as [Hc Hb]. apply ascii_text_cons in Hb as [Hc1 _].
    apply detect_utf8; [done|lia].
Qed.

Lemma loads_bytes_ascii b : b <> "" -> ascii_text b = true -> json_loads_bytes b = json_decode b.
Proof.
  intros Hne Hb. unfold json_loads_bytes. rewrite detect_ascii by done. cbn [decode_bytes].
  by rewrite utf8_decode_ascii, text_of_ascii.
Qed.

Lemma prefix_cons_eq a p s : String.prefix (String a p) (String a s) = String.prefix p s.
Proof. cbn. by destruct (ascii_dec a a). Qed.

Lemma prefix_app p s : String.prefix p (p ++ s) = true.
Proof. induction p as [|a p IH]; [by destruct s|]. by rewrite str_app_cons, prefix_cons_eq. Qed.

(** Decide the byte order mark tests of [detect_encoding] on a text whose
    first bytes are known. *)
Ltac prefix_tests :=
  unfold detect_encoding, bom_utf32_be, bom_utf32_le, bom_utf16_be, bom_utf16_le, utf8_bom;
  cbn [bytes_of fold_right];
  repeat first [ rewrite prefix_cons_eq
               | rewrite prefix_head_neq by (discriminate || (apply ascii_head_neq; [done|lia])) ];
  cbn [orb String.prefix].

(** [utf-8-sig] drops the mark and decodes the rest as [utf-8] does. *)
Lemma loads_bytes_bom b : detect_encoding b = Utf8 -> json_loads_bytes (utf8_bom ++ b) = json_loads_bytes b.
Proof.
  intros He. unfold json_loads_bytes. rewrite He.
  replace (detect_encoding (utf8_bom ++ b)) with Utf8Sig
    by (change (utf8_bom ++ b) with (String (ascii_of_nat 239) (String (ascii_of_nat 187) (String (ascii_of_nat 191) b)));
        prefix_tests; by destruct b).
  change (decode_bytes Utf8Sig (utf8_bom ++ b)) with
    (utf8_decode true (if String.prefix utf8_bom (utf8_bom ++ b) then substring 0 (String.length b - 0) b
                       else utf8_bom ++ b)).
  by rewrite prefix_app, Nat.sub_0_r, substring_all.
Qed.

Lemma loads_bytes_utf16le b :
  b <> "" -> ascii_text b = true -> json_loads_bytes (bom_utf16_le ++ utf16le b) = json_decode b.
Proof.
  intros Hne Hb. destruct b as [|c r]; [done|]. pose proof (ascii_text_cons _ _ Hb) as [Hc _].
  unfold json_loads_bytes.
  change (bom_utf16_le ++ utf16le (String c r)) with
    (String (ascii_of_nat 255) (String (ascii_of_nat 254) (String c (String (ascii_of_nat 0) (utf16le r))))).
  replace (detect_encoding _) with Utf16 by (prefix_tests; reflexivity).
  cbn [decode_bytes]. unfold bom_utf16_be, bytes_of. cbn [fold_right].
  rewrite prefix_head_neq by discriminate.
  change (substring 2 _ _) with (substring 0 (String.length (utf16le (String c r)) - 0) (utf16le (String c r))).
  rewrite Nat.sub_0_r, substring_all. unfold utf16_decode. rewrite utf16_units_le. cbn [option_map].
  by rewrite utf16_pairs_ascii, text_of_ascii.
Qed.

Lemma loads_bytes_utf16be b :
  ascii_text b = true -> json_loads_bytes (bom_utf16_be ++ utf16be b) = json_decode b.
Proof.
  intros Hb. unfold json_loads_bytes.
  change (bom_utf16_be ++ utf16be b) with (String (ascii_of_nat 254) (String (ascii_of_nat 255) (utf16be b))).
  replace (detect_encoding _) with Utf16 by (prefix_tests; by destruct (utf16be b)).
  cbn [decode_bytes]. unfold bom_utf16_be, bytes_of. cbn [fold_right]. rewrite !prefix_cons_eq.
  replace (String.prefix "" (utf16be b)) with true by (by destruct (utf16be b)).
  change (substring 2 _ _) with (substring 0 (String.length (utf16be b) - 0) (utf16be b)).
  rewrite Nat.sub_0_r, substring_all. unfold utf16_decode. rewrite utf16_units_be. cbn [option_map].
  by rewrite utf16_pairs_ascii, text_of_ascii.
Qed.
