(* ===== verification/ClaimGraph.v ===== *)
(** * ClaimGraph: the claim-handling workflow of [build_claim_workflow]

    src/test.py, lines 44-161.  Five nodes ask for one key of the [bag]
    and pause with a prompt while it is missing; two terminal nodes set the
    status, the end time and a result.  Five conditional edges read the
    bag to choose the next node or [END].

    [Spec] states the transition table of the specification as an
    inductive big-step relation [traverse]; the theorems show that [invoke]
    on this graph always returns (no recursion error), that its result and
    the state it leaves are exactly those of [traverse] with the Gather
    guard the code has (Python truthiness), that this agrees with the
    specification's table whenever the claim details, when present, are
    truthy, and that a second run on the state a run leaves behind gives
    the same result (the re-run-from-entry strategy of the engine is
    idempotent). *)

From S2P Require Import Prelude Model Graph.
Open Scope wf_scope.
Open Scope string_scope.

(** ** Nodes and node functions *)

(** The nodes registered with [g.add_node] (lines 103-109). *)
Inductive ClaimNode :=
| ValidateRequest
| GatherClaimInfo
| IdentifyAccounts
| CancelCWDRequest
| HoldRequest
| ApplyTemporarySuppression
| FulfillCaseAndDetect.

#[export] Instance ClaimNode_eq_dec : EqDecision ClaimNode.
Proof. solve_decision. Defined.

Definition node_name (n : ClaimNode) : string :=
  match n with
  | ValidateRequest => "Validate Request"
  | GatherClaimInfo => "Gather Claim Info"
  | IdentifyAccounts => "Identify Accounts & Process Decision"
  | CancelCWDRequest => "Cancel CWD Request"
  | HoldRequest => "Hold Request"
  | ApplyTemporarySuppression => "Apply Temporary Suppression"
  | FulfillCaseAndDetect => "Fulfill Case and Detect"
  end.

(** The pure effect of [ensure_defaults] once [now_iso()] has returned
    [t]: [status] defaults to ["in_progress"], [start_time] to [t]. *)
Definition apply_defaults (s : ExecState) (t : Time) : ExecState :=
  let m := es_meta s in
  set_meta s (mkExecMeta (Some (default status_in_progress (em_status m)))
                         (Some (default t (em_start_time m)))
                         (em_last_node m) (em_end_time m)).

(** [ensure_defaults] (lines 45-49); the argument [now_iso()] of the last
    [setdefault] is evaluated whether or not the key exists. *)
Definition ensure_defaults : G unit :=
  t <- now_iso ;;
  modify_s (fun s => apply_defaults s t).

(** The shape shared by the five asking nodes (lines 51-56, 58-63,
    65-70, 80-85, 87-92): defaults, record the node, pause while [key] is
    not in the bag. *)
Definition interrupt_node (name key prompt : string) : G NodeRet :=
  ensure_defaults ;;
  modify_s (fun s => set_last_node s name) ;;
  s <- get_s ;;
  match es_bag s !! key with
  | None => ret (NInterrupt prompt)
  | Some _ => ret NReturn
  end.

Definition validate_request : G NodeRet :=
  interrupt_node "Validate Request" "validate" "Validate request? (yes/no)".

Definition gather_claim_info : G NodeRet :=
  interrupt_node "Gather Claim Info" "claim_details" "Provide claim details".

Definition identify_accounts : G NodeRet :=
  interrupt_node "Identify Accounts & Process Decision" "process_decision"
    "Decision? cancel / hold / suppress".

Definition hold_request : G NodeRet :=
  interrupt_node "Hold Request" "hold_action" "Workflow on hold. Command: resume / abort".

Definition apply_suppression : G NodeRet :=
  interrupt_node "Apply Temporary Suppression" "proceed_fulfill" "Proceed to fulfill? (yes/no)".

(** The shape shared by the two terminal nodes (lines 72-78, 94-100). *)
Definition terminal_node (name status result : string) : G NodeRet :=
  ensure_defaults ;;
  modify_s (fun s => set_last_node s name) ;;
  modify_s (fun s => set_exec_status s status) ;;
  t <- now_iso ;;
  modify_s (fun s => set_end_time s t) ;;
  modify_s (fun s => set_bag s (<["result" := VStr result]> (es_bag s))) ;;
  ret NReturn.

Definition cancel_request : G NodeRet :=
  terminal_node "Cancel CWD Request" status_aborted "Workflow aborted.".

Definition fulfill_case : G NodeRet :=
  terminal_node "Fulfill Case and Detect" status_completed "Fulfilled and detection complete.".

Definition claim_node (n : ClaimNode) : G NodeRet :=
  match n with
  | ValidateRequest => validate_request
  | GatherClaimInfo => gather_claim_info
  | IdentifyAccounts => identify_accounts
  | CancelCWDRequest => cancel_request
  | HoldRequest => hold_request
  | ApplyTemporarySuppression => apply_suppression
  | FulfillCaseAndDetect => fulfill_case
  end.

(** ** Conditional edges (lines 114-159) *)

(** The lambda of lines 116-120 ([isinstance(s, Interrupt)] is the
    [NInterrupt] case of [run_from]). *)
Definition validate_edge (s : ExecState) : Next ClaimNode :=
  if bag_get_eq (es_bag s) "validate" "yes" then Goto GatherClaimInfo
  else if bag_get_eq (es_bag s) "validate" "no" then Goto CancelCWDRequest
  else GoEnd.

(** Lines 125-127: the claim details must be truthy, not merely present. *)
Definition gather_edge (s : ExecState) : Next ClaimNode :=
  match es_bag s !! "claim_details" with
  | Some v => if truthy v then Goto IdentifyAccounts else GoEnd
  | None => GoEnd
  end.

Definition identify_edge (s : ExecState) : Next ClaimNode :=
  if bag_get_eq (es_bag s) "process_decision" "cancel" then Goto CancelCWDRequest
  else if bag_get_eq (es_bag s) "process_decision" "hold" then Goto HoldRequest
  else if bag_get_eq (es_bag s) "process_decision" "suppress" then Goto ApplyTemporarySuppression
  else GoEnd.

Definition hold_edge (s : ExecState) : Next ClaimNode :=
  if bag_get_eq (es_bag s) "hold_action" "resume" then Goto ApplyTemporarySuppression
  else if bag_get_eq (es_bag s) "hold_action" "abort" then Goto CancelCWDRequest
  else GoEnd.

Definition suppress_edge (s : ExecState) : Next ClaimNode :=
  if bag_get_eq (es_bag s) "proceed_fulfill" "yes" then Goto FulfillCaseAndDetect
  else if bag_get_eq (es_bag s) "proceed_fulfill" "no" then Goto CancelCWDRequest
  else GoEnd.

Definition claim_edge (n : ClaimNode) (s : ExecState) : Next ClaimNode :=
  match n with
  | ValidateRequest => validate_edge s
  | GatherClaimInfo => gather_edge s
  | IdentifyAccounts => identify_edge s
  | HoldRequest => hold_edge s
  | ApplyTemporarySuppression => suppress_edge s
  | CancelCWDRequest => GoEnd
  | FulfillCaseAndDetect => GoEnd
  end.

(** The compiled graph, entry point [Validate Request] (line 111). *)
Definition build_claim_workflow : StateGraph ClaimNode :=
  mkStateGraph ValidateRequest claim_node claim_edge.

(** The prompt each asking node pauses with. *)
Definition prompt_of (n : ClaimNode) : string :=
  match n with
  | ValidateRequest => "Validate request? (yes/no)"
  | GatherClaimInfo => "Provide claim details"
  | IdentifyAccounts => "Decision? cancel / hold / suppress"
  | HoldRequest => "Workflow on hold. Command: resume / abort"
  | ApplyTemporarySuppression => "Proceed to fulfill? (yes/no)"
  | CancelCWDRequest | FulfillCaseAndDetect => ""
  end.

(** ** The specification's transition table *)

Module Spec.
(** The "Required bag key" column. *)
Definition required_key (n : ClaimNode) : option string :=
  match n with
  | ValidateRequest => Some "validate"
  | GatherClaimInfo => Some "claim_details"
  | IdentifyAccounts => Some "process_decision"
  | HoldRequest => Some "hold_action"
  | ApplyTemporarySuppression => Some "proceed_fulfill"
  | CancelCWDRequest | FulfillCaseAndDetect => None
  end.

Definition is_str (v : Value) (lit : string) : bool :=
  match v with VStr s => String.eqb s lit | _ => false end.

(** The "Next on value" column; [present_ok] is the test that a present
    claim-details value lets Gather Claim Info proceed (the table says
    any present value does). *)
Definition table (present_ok : Value -> bool) (n : ClaimNode) (v : Value) : option ClaimNode :=
  match n with
  | ValidateRequest =>
      if is_str v "yes" then Some GatherClaimInfo
      else if is_str v "no" then Some CancelCWDRequest else None
  | GatherClaimInfo => if present_ok v then Some IdentifyAccounts else None
  | IdentifyAccounts =>
      if is_str v "cancel" then Some CancelCWDRequest
      else if is_str v "hold" then Some HoldRequest
      else if is_str v "suppress" then Some ApplyTemporarySuppression else None
  | HoldRequest =>
      if is_str v "resume" then Some ApplyTemporarySuppression
      else if is_str v "abort" then Some CancelCWDRequest else None
  | ApplyTemporarySuppression =>
      if is_str v "yes" then Some FulfillCaseAndDetect
      else if is_str v "no" then Some CancelCWDRequest else None
  | CancelCWDRequest | FulfillCaseAndDetect => None
  end.

(** The terminal steps: the status and result they set. *)
Definition terminal (n : ClaimNode) : option (string * string) :=
  match n with
  | CancelCWDRequest => Some (status_aborted, "Workflow aborted.")
  | FulfillCaseAndDetect => Some (status_completed, "Fulfilled and detection complete.")
  | _ => None
  end.

(** Where a traversal stops: a pause at a step whose key is missing, a
    terminal step, or a step whose guard value is unmatched. *)
Inductive Outcome :=
| OPause (n : ClaimNode)
| OTerminal (n : ClaimNode)
| OStall (n : ClaimNode).

Inductive traverse (ok : Value -> bool) (b : gmap string Value) : ClaimNode -> Outcome -> Prop :=
| tr_pause n k :
    required_key n = Some k -> b !! k = None -> traverse ok b n (OPause n)
| tr_step n k v n' o :
    required_key n = Some k -> b !! k = Some v -> table ok n v = Some n' ->
    traverse ok b n' o -> traverse ok b n o
| tr_stall n k v :
    required_key n = Some k -> b !! k = Some v -> table ok n v = None ->
    traverse ok b n (OStall n)
| tr_terminal n :
    required_key n = None -> traverse ok b n (OTerminal n).

(** The table as the specification states it. *)
Definition spec_ok : Value -> bool := fun _ => true.
End Spec.

(** ** What the node functions do *)

Lemma interrupt_node_run name key prompt gs :
  interrupt_node name key prompt gs =
  (inr (match es_bag (gs_state gs) !! key with
        | None => NInterrupt prompt
        | Some _ => NReturn
        end),
   mkGS (set_last_node (apply_defaults (gs_state gs) (gs_clock gs)) name) (S (gs_clock gs))).
Proof. destruct gs as [s c]. mrun. by destruct (es_bag s !! key). Qed.

Lemma terminal_node_run name st res gs :
  terminal_node name st res gs =
  (inr NReturn,
   mkGS (set_bag (set_end_time (set_exec_status
          (set_last_node (apply_defaults (gs_state gs) (gs_clock gs)) name) st)
          (S (gs_clock gs)))
          (<["result" := VStr res]> (es_bag (gs_state gs))))
        (S (S (gs_clock gs)))).
Proof. reflexivity. Qed.

Lemma claim_node_asking n k :
  Spec.required_key n = Some k ->
  claim_node n = interrupt_node (node_name n) k (prompt_of n).
Proof. destruct n; simpl; intros H; simplify_eq; reflexivity. Qed.

Lemma claim_node_terminal n :
  Spec.required_key n = None ->
  exists st res, Spec.terminal n = Some (st, res) /\
                 claim_node n = terminal_node (node_name n) st res.
Proof. destruct n; simpl; intros H; simplify_eq; eauto. Qed.

Lemma claim_edge_terminal n s : Spec.required_key n = None -> claim_edge n s = GoEnd.
Proof. by destruct n. Qed.

(** Each guard reads the required key of its node and follows the table,
    with Python truthiness as the Gather Claim Info test. *)
Lemma claim_edge_table n k v s :
  Spec.required_key n = Some k -> es_bag s !! k = Some v ->
  claim_edge n s = match Spec.table truthy n v with
                   | Some n' => Goto n'
                   | None => GoEnd
                   end.
Proof.
  destruct n; simpl; intros Hk Hv; simplify_eq;
    unfold validate_edge, gather_edge, identify_edge, hold_edge, suppress_edge, bag_get_eq;
    rewrite Hv; destruct v; simpl; repeat case_match; done.
Qed.

Lemma claim_node_total n gs : exists r gs', claim_node n gs = (inr r, gs').
Proof.
  destruct (Spec.required_key n) as [k|] eqn:Hk.
  - rewrite (claim_node_asking _ _ Hk), interrupt_node_run. eauto.
  - destruct (claim_node_terminal _ Hk) as (st & res & _ & ->).
    rewrite terminal_node_run. eauto.
Qed.

(** ** Termination *)

(** The longest path, Validate, Gather, Identify, Hold, Suppress, Fulfill,
    visits six nodes. *)
Definition rank (n : ClaimNode) : nat :=
  match n with
  | ValidateRequest => 6
  | GatherClaimInfo => 5
  | IdentifyAccounts => 4
  | HoldRequest => 3
  | ApplyTemporarySuppression => 2
  | CancelCWDRequest | FulfillCaseAndDetect => 1
  end.

Lemma table_rank ok n v n' : Spec.table ok n v = Some n' -> rank n' < rank n.
Proof. destruct n; simpl; intros Ht; repeat case_match; simplify_eq; simpl; lia. Qed.

Lemma claim_edge_rank n s n' : claim_edge n s = Goto n' -> rank n' < rank n.
Proof.
  destruct n; simpl;
    unfold validate_edge, gather_edge, identify_edge, hold_edge, suppress_edge;
    intros Ht; repeat case_match; simplify_eq; simpl; lia.
Qed.

#[export] Hint Resolve claim_node_total table_rank : wf.

(** ** The traversal relation: determinism and independence of [result] *)

Ltac same_lookup :=
  repeat match goal with
  | H1 : ?x = Some _, H2 : ?x = Some _ |- _ => rewrite H1 in H2; simplify_eq
  | H1 : ?x = Some _, H2 : ?x = None |- _ => rewrite H1 in H2; simplify_eq
  end.

Lemma traverse_det ok b n o1 o2 :
  Spec.traverse ok b n o1 -> Spec.traverse ok b n o2 -> o1 = o2.
Proof.
  intros H1. revert o2.
  induction H1 as [n k Hk Hb|n k v n1 o Hk Hb Ht Htr IH|n k v Hk Hb Ht|n Hk]; intros o2 Ho2; invc Ho2; same_lookup; simplify_eq; eauto; congruence.
Qed.

Lemma required_key_not_result n : Spec.required_key n <> Some "result".
Proof. by destruct n. Qed.

(** No guard reads the key [result] the terminal steps write. *)
Lemma traverse_insert_result ok b n o v :
  Spec.traverse ok b n o -> Spec.traverse ok (<["result" := v]> b) n o.
Proof.
  assert (Hne : forall n k, Spec.required_key n = Some k -> "result" <> k).
  { intros n' k Hk <-. by apply (required_key_not_result n'). }
  induction 1.
  - eapply Spec.tr_pause; [done|]. rewrite lookup_insert_ne; eauto.
  - eapply Spec.tr_step; [done| |done|done]. rewrite lookup_insert_ne; eauto.
  - eapply Spec.tr_stall; [done| |done]. rewrite lookup_insert_ne; eauto.
  - by apply Spec.tr_terminal.
Qed.

(** The code's table and the specification's agree when the claim
    details, if present, are truthy. *)
Definition claim_details_ok (b : gmap string Value) : Prop :=
  forall v, b !! "claim_details" = Some v -> truthy v = true.

Lemma table_truthy_spec b n k v :
  claim_details_ok b -> Spec.required_key n = Some k -> b !! k = Some v ->
  Spec.table truthy n v = Spec.table Spec.spec_ok n v.
Proof.
  intros Hok Hk Hv. destruct n; simpl in *; simplify_eq; try done.
  by rewrite (Hok v Hv).
Qed.

Lemma traverse_truthy_spec b n o :
  claim_details_ok b -> Spec.traverse truthy b n o -> Spec.traverse Spec.spec_ok b n o.
Proof.
  intros Hok. induction 1.
  - by eapply Spec.tr_pause.
  - eapply Spec.tr_step; eauto. by erewrite <- table_truthy_spec.
  - eapply Spec.tr_stall; eauto. by erewrite <- table_truthy_spec.
  - by apply Spec.tr_terminal.
Qed.

(** ** Refinement: [invoke] computes the traversal *)

(** What the state a run leaves looks like for each outcome: the result
    handed back, the node recorded, the bag and the status. [st0] is the
    status before the run. *)
Definition outcome_ok (b : gmap string Value) (st0 : option string)
    (o : Spec.Outcome) (r : InvokeResult) (s' : ExecState) : Prop :=
  match o with
  | Spec.OPause n =>
      r = IInterrupt (prompt_of n) /\ last_node_of s' = Some (node_name n) /\
      es_bag s' = b /\ em_status (es_meta s') = Some (default status_in_progress st0)
  | Spec.OStall n =>
      r = IDone /\ last_node_of s' = Some (node_name n) /\
      es_bag s' = b /\ em_status (es_meta s') = Some (default status_in_progress st0)
  | Spec.OTerminal n =>
      r = IDone /\ last_node_of s' = Some (node_name n) /\
      exists st res, Spec.terminal n = Some (st, res) /\
        es_bag s' = <["result" := VStr res]> b /\ em_status (es_meta s') = Some st
  end.

Lemma outcome_ok_default b st0 o r s' :
  outcome_ok b (Some (default status_in_progress st0)) o r s' -> outcome_ok b st0 o r s'.
Proof. by destruct o. Qed.

Lemma run_from_refines f n gs :
  rank n < f ->
  exists o r gs',
    Spec.traverse truthy (es_bag (gs_state gs)) n o /\
    run_from build_claim_workflow f n gs = (inr r, gs') /\
    outcome_ok (es_bag (gs_state gs)) (em_status (es_meta (gs_state gs))) o r (gs_state gs').
Proof.
  revert n gs. induction f as [|f IH]; intros n [s c] Hf; [lia|].
  cbn [run_from sg_node sg_edge build_claim_workflow gs_state].
  destruct (Spec.required_key n) as [k|] eqn:Hk.
  - rewrite (claim_node_asking _ _ Hk). unfold bind at 1. rewrite interrupt_node_run. simpl.
    destruct (es_bag s !! k) as [v|] eqn:Hv.
    + mrun. erewrite claim_edge_table by eauto.
      destruct (Spec.table truthy n v) as [n'|] eqn:Ht.
      * destruct (IH n' (mkGS (set_last_node (apply_defaults s c) (node_name n)) (S c)))
          as (o & r & gs' & Htr & Hrun & Hok); [pose proof (table_rank _ _ _ _ Ht); lia|].
        exists o, r, gs'. split; [by eapply Spec.tr_step|]. split; [done|].
        by apply outcome_ok_default.
      * eexists (Spec.OStall n), IDone, _. split; [by eapply Spec.tr_stall|]. done.
    + eexists (Spec.OPause n), _, _. split; [by eapply Spec.tr_pause|]. done.
  - destruct (claim_node_terminal _ Hk) as (st & res & Hterm & ->).
    unfold bind at 1. rewrite terminal_node_run. mrun. rewrite claim_edge_terminal by done.
    eexists (Spec.OTerminal n), IDone, _. split; [by apply Spec.tr_terminal|].
    split; [done|]. simpl. repeat split. eauto.
Qed.

Lemma invoke_claim_outcome gs :
  exists o r gs',
    Spec.traverse truthy (es_bag (gs_state gs)) ValidateRequest o /\
    invoke build_claim_workflow gs = (inr r, gs') /\
    outcome_ok (es_bag (gs_state gs)) (em_status (es_meta (gs_state gs))) o r (gs_state gs').
Proof. apply run_from_refines. simpl. unfold recursion_limit. lia. Qed.

(** C3. The claim graph always returns to the engine: [invoke] never
    raises LangGraph's recursion error, whatever the state. *)
Theorem claim_invoke_total gs :
  exists r gs', invoke build_claim_workflow gs = (inr r, gs').
Proof.
  unfold invoke. apply (run_from_total _ rank); [exact claim_edge_rank|exact claim_node_total|].
  simpl. unfold recursion_limit. lia.
Qed.

(** C1. Refinement: one run of the claim graph stops where the
    transition table (with the code's truthiness test at Gather Claim Info)
    stops, and leaves the result, recorded node, bag and status that
    outcome prescribes. *)
Theorem claim_invoke_refines gs :
  exists o r gs',
    Spec.traverse truthy (es_bag (gs_state gs)) ValidateRequest o /\
    invoke build_claim_workflow gs = (inr r, gs') /\
    outcome_ok (es_bag (gs_state gs)) (em_status (es_meta (gs_state gs))) o r (gs_state gs').
Proof. exact (invoke_claim_outcome gs). Qed.

(** C20. Against the specification's own table: when the claim details,
    if present, are truthy, a run stops where the table stops. *)
Theorem claim_invoke_refines_table gs :
  claim_details_ok (es_bag (gs_state gs)) ->
  exists o r gs',
    Spec.traverse Spec.spec_ok (es_bag (gs_state gs)) ValidateRequest o /\
    invoke build_claim_workflow gs = (inr r, gs') /\
    outcome_ok (es_bag (gs_state gs)) (em_status (es_meta (gs_state gs))) o r (gs_state gs').
Proof.
  intros Hok. destruct (invoke_claim_outcome gs) as (o & r & gs' & Htr & Hrun & Hout).
  exists o, r, gs'. split; [by apply traverse_truthy_spec|]. done.
Qed.

(** A concrete state: the bag of the specification's happy path. *)
Definition happy_bag : gmap string Value :=
  <["validate" := VStr "yes"]> (<["claim_details" := VStr "x"]>
  (<["process_decision" := VStr "suppress"]> (<["proceed_fulfill" := VStr "yes"]> ∅))).

Definition sample_state (b : gmap string Value) : ExecState :=
  mkExecState "i1" "C1" "ClaimWorkflow" b (mkExecMeta (Some status_in_progress) (Some 0) None None).

Lemma claim_invoke_refines_table_witness :
  claim_details_ok happy_bag /\
  exists o r gs',
    Spec.traverse Spec.spec_ok happy_bag ValidateRequest o /\
    invoke build_claim_workflow (mkGS (sample_state happy_bag) 1) = (inr r, gs') /\
    outcome_ok happy_bag (Some status_in_progress) o r (gs_state gs').
Proof.
  assert (H : claim_details_ok happy_bag).
  { intros v Hv. vm_compute in Hv. injection Hv as <-. reflexivity. }
  split; [exact H|].
  exact (claim_invoke_refines_table (mkGS (sample_state happy_bag) 1) H).
Defined.

Lemma invoke_claim_stable gs r gs' c :
  invoke build_claim_workflow gs = (inr r, gs') ->
  exists gs'',
    invoke build_claim_workflow (mkGS (gs_state gs') c) = (inr r, gs'') /\
    es_bag (gs_state gs'') = es_bag (gs_state gs') /\
    last_node_of (gs_state gs'') = last_node_of (gs_state gs') /\
    em_status (es_meta (gs_state gs'')) = em_status (es_meta (gs_state gs')).
Proof.
  intros Hrun.
  destruct (invoke_claim_outcome gs) as (o & r1 & gs1 & Htr & Hrun1 & Hok1).
  rewrite Hrun in Hrun1. simplify_eq.
  destruct (invoke_claim_outcome (mkGS (gs_state gs1) c)) as (o2 & r2 & gs2 & Htr2 & Hrun2 & Hok2).
  exists gs2. rewrite Hrun2. simpl in *.
  destruct o as [n|n|n]; simpl in Hok1;
    [destruct Hok1 as (-> & Hl & Hb & Hs)
    |destruct Hok1 as (-> & Hl & st & res & Hterm & Hb & Hs)
    |destruct Hok1 as (-> & Hl & Hb & Hs)];
    rewrite Hb in Htr2;
    [|apply (traverse_det _ _ _ _ _ (traverse_insert_result _ _ _ _ (VStr res) Htr)) in Htr2
     |]; try apply (traverse_det _ _ _ _ _ Htr) in Htr2; subst o2; simpl in Hok2.
  - destruct Hok2 as (-> & Hl2 & Hb2 & Hs2). rewrite Hs in Hs2. simpl in Hs2.
    rewrite Hb. repeat split; congruence.
  - destruct Hok2 as (-> & Hl2 & st2 & res2 & Hterm2 & Hb2 & Hs2).
    rewrite Hterm in Hterm2. simplify_eq. rewrite Hb in Hb2.
    rewrite insert_insert_eq in Hb2. repeat split; congruence.
  - destruct Hok2 as (-> & Hl2 & Hb2 & Hs2). rewrite Hs in Hs2. simpl in Hs2.
    rewrite Hb. repeat split; congruence.
Qed.

(** C24. Idempotence of a run: running the graph again on the state a run
    left behind (at any later time) gives the same result, the same bag,
    the same recorded node and the same status. *)
Theorem claim_invoke_idempotent gs r gs' c :
  invoke build_claim_workflow gs = (inr r, gs') ->
  exists gs'',
    invoke build_claim_workflow (mkGS (gs_state gs') c) = (inr r, gs'') /\
    es_bag (gs_state gs'') = es_bag (gs_state gs') /\
    last_node_of (gs_state gs'') = last_node_of (gs_state gs') /\
    em_status (es_meta (gs_state gs'')) = em_status (es_meta (gs_state gs')).
Proof. exact (invoke_claim_stable gs r gs' c). Qed.

(** The state the happy-path run leaves behind. *)
Definition happy_run : GS := snd (invoke build_claim_workflow (mkGS (sample_state happy_bag) 1)).

Lemma claim_invoke_idempotent_witness :
  invoke build_claim_workflow (mkGS (sample_state happy_bag) 1) = (inr IDone, happy_run) /\
  exists gs'',
    invoke build_claim_workflow (mkGS (gs_state happy_run) 9) = (inr IDone, gs'') /\
    es_bag (gs_state gs'') = es_bag (gs_state happy_run) /\
    last_node_of (gs_state gs'') = last_node_of (gs_state happy_run) /\
    em_status (es_meta (gs_state gs'')) = em_status (es_meta (gs_state happy_run)).
Proof.
  assert (H : invoke build_claim_workflow (mkGS (sample_state happy_bag) 1) = (inr IDone, happy_run)).
  { vm_compute. reflexivity. }
  split; [exact H|]. exact (claim_invoke_idempotent _ IDone happy_run 9 H).
Defined.


(** ** What a run leaves in the state *)

(** A status the engine can hold: absent, or one of the three values the
    code writes into the state. *)
Definition status_ok (o : option string) : Prop :=
  o = None \/ exists x, o = Some x /\ x ∈ [status_in_progress; status_completed; status_aborted].

Lemma node_name_truthy n : truthy_str (Some (node_name n)) = true.
Proof. by destruct n. Qed.

Lemma invoke_claim_post gs r gs' :
  invoke build_claim_workflow gs = (inr r, gs') ->
  status_ok (em_status (es_meta (gs_state gs))) ->
  truthy_str (last_node_of (gs_state gs')) = true /\
  exists x, em_status (es_meta (gs_state gs')) = Some x /\
            x ∈ [status_in_progress; status_completed; status_aborted].
Proof.
  intros Hrun Hst.
  destruct (invoke_claim_outcome gs) as (o & r1 & gs1 & _ & Hrun1 & Hok).
  rewrite Hrun in Hrun1. simplify_eq.
  destruct o as [n|n|n]; simpl in Hok.
  - destruct Hok as (_ & -> & _ & ->). split; [apply node_name_truthy|].
    destruct Hst as [->|(x & -> & Hx)]; eexists; split; eauto; simpl; set_solver.
  - destruct Hok as (_ & -> & st & res & Ht & _ & ->). split; [apply node_name_truthy|].
    eexists; split; [done|]. destruct n; simpl in Ht; simplify_eq; set_solver.
  - destruct Hok as (_ & -> & _ & ->). split; [apply node_name_truthy|].
    destruct Hst as [->|(x & -> & Hx)]; eexists; split; eauto; simpl; set_solver.
Qed.
