(* ===== verification/Store.v ===== *)
(** * Store: the engine's key-value store, the event log and the index

    [Engine] keeps everything in one [InMemoryStore] under four namespaces
    (src/test.py, lines 167-170).  The model types each namespace: a
    [World] has one [gmap] per namespace (the key [instances] of the index
    namespace holds a list), and the clock [now_iso()] reads.  [_unwrap]
    (lines 180-181) and the [or []] defaults are the [option] lookups.

    The event log ([_append_event], lines 191-210) and the instance index
    ([_add_to_index], lines 184-188) are the two store-level operations;
    their laws: the log of an instance is only ever extended at its end, and
    the index never holds an identifier twice. *)

From S2P Require Import Prelude Model.
Open Scope wf_scope.
Open Scope string_scope.
Open Scope list_scope.

Record World := mkWorld {
  w_state : gmap string ExecState;        (** [workflow_state] *)
  w_meta : gmap string InstanceMeta;      (** [workflow_meta] *)
  w_events : gmap string (list Event);    (** [workflow_events] *)
  w_index : list string;                  (** [workflow_index]/["instances"] *)
  w_clock : Time;
}.

(** The store a fresh [InMemoryStore()] starts with. *)
Definition empty_world : World := mkWorld ∅ ∅ ∅ [] 0.

(** Computations of the engine. *)
Abbreviation E := (St World Err).

Definition set_w_state (w : World) (x : gmap string ExecState) : World :=
  mkWorld x (w_meta w) (w_events w) (w_index w) (w_clock w).
Definition set_w_meta (w : World) (x : gmap string InstanceMeta) : World :=
  mkWorld (w_state w) x (w_events w) (w_index w) (w_clock w).
Definition set_w_events (w : World) (x : gmap string (list Event)) : World :=
  mkWorld (w_state w) (w_meta w) x (w_index w) (w_clock w).
Definition set_w_index (w : World) (x : list string) : World :=
  mkWorld (w_state w) (w_meta w) (w_events w) x (w_clock w).
Definition set_w_clock (w : World) (x : Time) : World :=
  mkWorld (w_state w) (w_meta w) (w_events w) (w_index w) x.

(** [now_iso()] *)
Definition now_w : E Time :=
  fun w => (inr (w_clock w), set_w_clock w (S (w_clock w))).

(** [self.store.put(self.STATE_NS, instance_id, state)] *)
Definition put_state (iid : string) (s : ExecState) : E unit :=
  st_modify (fun w => set_w_state w (<[iid := s]> (w_state w))).

(** [self._unwrap(self.store.get(self.STATE_NS, instance_id))] *)
Definition get_state (iid : string) : E (option ExecState) :=
  fun w => (inr (w_state w !! iid), w).

(** [_put_meta] (lines 213-214): the key is the record's own id. *)
Definition _put_meta (m : InstanceMeta) : E unit :=
  st_modify (fun w => set_w_meta w (<[im_instance_id m := m]> (w_meta w))).

(** [_get_meta] (lines 216-218). *)
Definition _get_meta (iid : string) : E (option InstanceMeta) :=
  fun w => (inr (w_meta w !! iid), w).

(** [history] (lines 453-454): the events of one instance, [[]] if none. *)
Definition history (w : World) (iid : string) : list Event :=
  default [] (w_events w !! iid).

(** [_add_to_index] (lines 184-188). *)
Definition _add_to_index (iid : string) : E unit :=
  fun w =>
    let idx := w_index w in
    if decide (iid ∈ idx) then (inr tt, w)
    else (inr tt, set_w_index w (idx ++ [iid])).

(** [_append_event] (lines 191-210). *)
Definition _append_event (iid event : string) (node : option string)
    (status actor : string) (data : EventData) : E unit :=
  evs <- (fun w => (inr (history w iid), w)) ;;
  t <- now_w ;;
  st_modify (fun w => set_w_events w
    (<[iid := (evs ++ [mkEvent t iid event node status actor data])]> (w_events w))).

(** ** Laws *)

Lemma append_event_run iid event node status actor data w :
  _append_event iid event node status actor data w =
  (inr tt, mkWorld (w_state w) (w_meta w)
     (<[iid := (history w iid ++ [mkEvent (w_clock w) iid event node status actor data])]> (w_events w))
     (w_index w) (S (w_clock w))).
Proof. reflexivity. Qed.

(** The event log is append-only: appending an event extends the
    log of its instance at the end by exactly that event and leaves every
    other instance's log as it was. *)
Theorem append_event_log iid event node status actor data w w' :
  snd (_append_event iid event node status actor data w) = w' ->
  history w' iid = history w iid ++ [mkEvent (w_clock w) iid event node status actor data] /\
  forall j, j <> iid -> history w' j = history w j.
Proof.
  rewrite append_event_run. intros <-. unfold history at 1 3. simpl. split.
  - by rewrite lookup_insert_eq.
  - intros j Hj. unfold history. simpl. by rewrite lookup_insert_ne.
Qed.

Lemma append_event_log_witness :
  let w := snd (_append_event "a" "created" None "in_progress" "u" DEmpty empty_world) in
  history w "a" = history empty_world "a" ++ [mkEvent 0 "a" "created" None "in_progress" "u" DEmpty] /\
  (forall j, j <> "a" -> history w j = history empty_world j).
Proof. exact (append_event_log "a" "created" None "in_progress" "u" DEmpty empty_world _ eq_refl). Defined.

Lemma add_to_index_run iid w :
  _add_to_index iid w =
  (inr tt, if decide (iid ∈ w_index w) then w else set_w_index w (w_index w ++ [iid])).
Proof. unfold _add_to_index. by case_decide. Qed.

(** C4. The index is a registry without duplicates: after
    [_add_to_index], the identifier is in the index, the earlier members
    keep their order, and an index without duplicates stays without. *)
Theorem add_to_index_nodup iid w :
  NoDup (w_index w) ->
  let w' := snd (_add_to_index iid w) in
  NoDup (w_index w') /\ iid ∈ w_index w' /\ w_index w `prefix_of` w_index w'.
Proof.
  intros Hnd. rewrite add_to_index_run. simpl. case_decide as Hin; simpl.
  - done.
  - split; [by apply NoDup_snoc_fresh|]. split; [set_solver|]. by eexists.
Qed.

Lemma add_to_index_nodup_witness :
  NoDup (w_index (set_w_index empty_world ["a"])) /\
  let w' := snd (_add_to_index "b" (set_w_index empty_world ["a"])) in
  NoDup (w_index w') /\ "b" ∈ w_index w' /\ w_index (set_w_index empty_world ["a"]) `prefix_of` w_index w'.
Proof.
  assert (H : NoDup (w_index (set_w_index empty_world ["a"]))) by apply NoDup_singleton.
  split; [exact H|]. exact (add_to_index_nodup "b" _ H).
Defined.

(** ** Symbolic execution of the primitives under a continuation *)

Lemma bind_now_w {A} (k : Time -> E A) w :
  bind now_w k w = k (w_clock w) (set_w_clock w (S (w_clock w))).
Proof. reflexivity. Qed.

Lemma bind_put_state {A} iid s (k : unit -> E A) w :
  bind (put_state iid s) k w = k tt (set_w_state w (<[iid := s]> (w_state w))).
Proof. reflexivity. Qed.

Lemma bind_get_state {A} iid (k : option ExecState -> E A) w :
  bind (get_state iid) k w = k (w_state w !! iid) w.
Proof. reflexivity. Qed.

Lemma bind_put_meta {A} m (k : unit -> E A) w :
  bind (_put_meta m) k w = k tt (set_w_meta w (<[im_instance_id m := m]> (w_meta w))).
Proof. reflexivity. Qed.

Lemma bind_add_to_index {A} iid (k : unit -> E A) w :
  bind (_add_to_index iid) k w =
  k tt (if decide (iid ∈ w_index w) then w else set_w_index w (w_index w ++ [iid])).
Proof. unfold bind. by rewrite add_to_index_run. Qed.

Lemma bind_append_event {A} iid event node status actor data (k : unit -> E A) w :
  bind (_append_event iid event node status actor data) k w =
  k tt (mkWorld (w_state w) (w_meta w)
     (<[iid := (history w iid ++ [mkEvent (w_clock w) iid event node status actor data])]> (w_events w))
     (w_index w) (S (w_clock w))).
Proof. unfold bind. by rewrite append_event_run. Qed.

Create Rewrite HintDb wf_run.

(** Reduce the record projections of the world after symbolic steps. *)
Ltac wsimpl := cbn [w_state w_meta w_events w_index w_clock set_w_state set_w_meta
                   set_w_events set_w_index set_w_clock] in *.
#[export] Hint Rewrite @bind_assoc @bind_ret_l @bind_now_w @bind_put_state @bind_get_state @bind_put_meta
  @bind_add_to_index @bind_append_event : wf_run.

(** ** Growth of the event log between two worlds *)

(** [w'] differs from [w] in its event logs only by events appended at
    the end of [iid]'s log. *)
Definition events_extend (w w' : World) (iid : string) : Prop :=
  (exists evs, history w' iid = history w iid ++ evs) /\
  forall j, j <> iid -> history w' j = history w j.

Lemma events_extend_insert w w' iid evs :
  w_events w' = <[iid := (history w iid ++ evs)]> (w_events w) -> events_extend w w' iid.
Proof.
  intros He. unfold events_extend, history. rewrite He. split.
  - exists evs. by rewrite lookup_insert_eq.
  - intros j Hj. by rewrite lookup_insert_ne.
Qed.

Lemma events_extend_same w w' iid : w_events w' = w_events w -> events_extend w w' iid.
Proof. intros He. unfold events_extend, history. rewrite He. split; [exists []; by rewrite app_nil_r|done]. Qed.

Lemma events_extend_trans w1 w2 w3 iid :
  events_extend w1 w2 iid -> events_extend w2 w3 iid -> events_extend w1 w3 iid.
Proof.
  intros [[e1 H1] O1] [[e2 H2] O2]. split.
  - exists (e1 ++ e2). by rewrite H2, H1, app_assoc.
  - intros j Hj. by rewrite O2, O1.
Qed.

Lemma events_extend_prefix w w' iid :
  events_extend w w' iid -> forall k, history w k `prefix_of` history w' k.
Proof.
  intros [[evs H] O] k. destruct (decide (k = iid)) as [->|Hk].
  - rewrite H. by eexists.
  - by rewrite O.
Qed.

#[export] Hint Resolve events_extend_insert events_extend_same events_extend_trans : wf.
