(* ===== verification/Projector.v ===== *)
(** * Projector: [_update_meta_from_state]

    src/test.py, lines 220-247.  The audit record of an instance is
    re-derived from its execution state after every run: the last actor,
    the current node (when set), the start time (only the first time), the
    end time (when set) and the status are copied, and a step-history entry
    is appended when the current node differs from the node of the last
    entry.  The record must exist ([ValueError("Missing meta")]).

    Theorems: the step history is only ever appended to (by at most one
    entry), it never holds the same node twice in a row, its last entry is
    the current node, and a missing record raises without writing. *)

From S2P Require Import Prelude Model Store.
Open Scope wf_scope.
Open Scope string_scope.
Open Scope list_scope.

(** Lines 224-234: the fields copied from the state into the record. *)
Definition meta_fields (m : InstanceMeta) (actor : string) (s : ExecState) : InstanceMeta :=
  let sm := es_meta s in
  mkInstanceMeta (im_instance_id m) (im_customer_id m) (im_workflow_name m) (im_started_by m)
    (Some actor)
    (default (im_status m) (em_status sm))
    (if truthy_str (em_last_node sm) then em_last_node sm else im_last_node m)
    (match em_start_time sm, im_start_time m with
     | Some t, None => Some t
     | _, st => st
     end)
    (match em_end_time sm with Some t => Some t | None => im_end_time m end)
    (im_steps_history m).

(** The node of the last history entry ([prev_node], line 237). *)
Definition prev_node (m : InstanceMeta) : option string :=
  se_node <$> last (im_steps_history m).

(** Line 238: an entry is due when the node is set and differs from the
    previous entry's. *)
Definition needs_entry (m : InstanceMeta) (last_node : option string) : bool :=
  truthy_str last_node && negb (bool_decide (last_node = prev_node m)).

Definition add_entry (m : InstanceMeta) (e : StepEntry) : InstanceMeta :=
  mkInstanceMeta (im_instance_id m) (im_customer_id m) (im_workflow_name m) (im_started_by m)
    (im_last_actor m) (im_status m) (im_last_node m) (im_start_time m) (im_end_time m)
    (im_steps_history m ++ [e]).

Definition _update_meta_from_state (iid actor : string) (s : ExecState) : E InstanceMeta :=
  mo <- _get_meta iid ;;
  match mo with
  | None => throw EMissingMeta
  | Some m0 =>
      let m1 := meta_fields m0 actor s in
      let ln := em_last_node (es_meta s) in
      m2 <- (if needs_entry m1 ln then
               t <- now_w ;;
               ret (add_entry m1 (mkStepEntry t (default "" ln) actor (im_status m1)))
             else ret m1) ;;
      _put_meta m2 ;;
      ret m2
  end.

(** ** The pure part of the projection *)

(** The record the projection computes from [m0] when the clock reads
    [t]. *)
Definition project (m0 : InstanceMeta) (actor : string) (s : ExecState) (t : Time) : InstanceMeta :=
  let m1 := meta_fields m0 actor s in
  let ln := em_last_node (es_meta s) in
  if needs_entry m1 ln then add_entry m1 (mkStepEntry t (default "" ln) actor (im_status m1))
  else m1.

Definition project_clock (m0 : InstanceMeta) (actor : string) (s : ExecState) (t : Time) : Time :=
  if needs_entry (meta_fields m0 actor s) (em_last_node (es_meta s)) then S t else t.

Lemma update_meta_run iid actor s w m0 :
  w_meta w !! iid = Some m0 ->
  _update_meta_from_state iid actor s w =
  (inr (project m0 actor s (w_clock w)),
   let m2 := project m0 actor s (w_clock w) in
   mkWorld (w_state w) (<[im_instance_id m2 := m2]> (w_meta w)) (w_events w) (w_index w)
           (project_clock m0 actor s (w_clock w))).
Proof.
  intros Hm. unfold _update_meta_from_state, project, project_clock.
  mrun. rewrite Hm. simpl. by destruct (needs_entry _ _).
Qed.

Lemma meta_fields_history m actor s : im_steps_history (meta_fields m actor s) = im_steps_history m.
Proof. reflexivity. Qed.

Lemma prev_node_fields m actor s : prev_node (meta_fields m actor s) = prev_node m.
Proof. reflexivity. Qed.

Lemma project_id m0 actor s t : im_instance_id (project m0 actor s t) = im_instance_id m0.
Proof. unfold project. by case_match. Qed.

(** The history after the projection: unchanged, or one entry more. *)
Lemma project_history m0 actor s t :
  im_steps_history (project m0 actor s t) = im_steps_history m0 \/
  exists e, im_steps_history (project m0 actor s t) = im_steps_history m0 ++ [e] /\
            needs_entry m0 (em_last_node (es_meta s)) = true /\
            Some (se_node e) = em_last_node (es_meta s).
Proof.
  unfold project. destruct (needs_entry _ _) eqn:He; [right|by left].
  eexists. split; [reflexivity|]. split; [done|].
  unfold needs_entry in He. destruct (em_last_node (es_meta s)); done.
Qed.

#[export] Hint Resolve project_id : wf.

(** The node sequence of the history. *)
Definition history_nodes (m : InstanceMeta) : list string := se_node <$> im_steps_history m.

(** The laws of one projection on the step history. *)
Lemma project_laws m0 actor s t :
  im_steps_history m0 `prefix_of` im_steps_history (project m0 actor s t) /\
  length (im_steps_history (project m0 actor s t)) <= S (length (im_steps_history m0)) /\
  (no_stutter (history_nodes m0) -> no_stutter (history_nodes (project m0 actor s t))) /\
  (truthy_str (em_last_node (es_meta s)) = true ->
   prev_node (project m0 actor s t) = em_last_node (es_meta s)).
Proof.
  split_and!.
  all: destruct (project_history m0 actor s t) as [Hh|(e & Hh & He & Hn)];
    unfold history_nodes, prev_node; rewrite Hh; try done.
  - by eexists.
  - lia.
  - rewrite length_app. simpl. lia.
  - intros Hns. rewrite fmap_app. apply no_stutter_snoc; [done|].
    rewrite fmap_last. unfold needs_entry, prev_node in He. rewrite <- Hn in He.
    apply andb_true_iff in He as [_ He]. apply negb_true_iff, bool_decide_eq_false in He.
    intros Heq. apply He. by rewrite Heq.
  - intros Ht. unfold project in Hh.
    destruct (needs_entry _ _) eqn:He in Hh.
    + simpl in Hh. apply (f_equal length) in Hh. rewrite length_app in Hh. simpl in Hh. lia.
    + unfold needs_entry in He. rewrite Ht in He. simpl in He.
      apply negb_false_iff, bool_decide_eq_true in He. by rewrite He.
  - intros _. by rewrite last_snoc.
Qed.

(** C2. What the projection does to the step history: the old history is
    a prefix of the new one, at most one entry is added, no two
    consecutive entries name the same node if none did before, the last
    entry names the state's current node whenever that is set, and the
    record is written back under its id. *)
Theorem update_meta_history iid actor s w m0 m w' :
  w_meta w !! iid = Some m0 ->
  _update_meta_from_state iid actor s w = (inr m, w') ->
  im_steps_history m0 `prefix_of` im_steps_history m /\
  length (im_steps_history m) <= S (length (im_steps_history m0)) /\
  (no_stutter (history_nodes m0) -> no_stutter (history_nodes m)) /\
  (truthy_str (em_last_node (es_meta s)) = true -> prev_node m = em_last_node (es_meta s)) /\
  w_meta w' !! im_instance_id m0 = Some m.
Proof.
  intros Hm Hrun. rewrite (update_meta_run _ _ _ _ _ Hm) in Hrun. simplify_eq.
  destruct (project_laws m0 actor s (w_clock w)) as (? & ? & ? & ?).
  split_and!; try done. simpl. by rewrite project_id, lookup_insert_eq.
Qed.

Lemma update_meta_history_witness :
  let m0 := mkInstanceMeta "i" "C1" "ClaimWorkflow" "u1" None status_in_progress None None None [] in
  let w := set_w_meta empty_world {["i" := m0]} in
  let s := mkExecState "i" "C1" "ClaimWorkflow" ∅ (mkExecMeta None None (Some "Validate Request") None) in
  w_meta w !! "i" = Some m0 /\
  exists m w', _update_meta_from_state "i" "u1" s w = (inr m, w') /\
  im_steps_history m0 `prefix_of` im_steps_history m /\
  length (im_steps_history m) <= S (length (im_steps_history m0)) /\
  (no_stutter (history_nodes m0) -> no_stutter (history_nodes m)) /\
  (truthy_str (em_last_node (es_meta s)) = true -> prev_node m = em_last_node (es_meta s)) /\
  w_meta w' !! im_instance_id m0 = Some m.
Proof.
  intros m0 w s.
  assert (Hm : w_meta w !! "i" = Some m0) by (vm_compute; reflexivity).
  split; [exact Hm|].
  destruct (_update_meta_from_state "i" "u1" s w) as [[e|m] w'] eqn:Hrun.
  - rewrite (update_meta_run _ _ _ _ _ Hm) in Hrun. discriminate.
  - exists m, w'. split; [reflexivity|]. exact (update_meta_history _ _ _ _ _ _ _ Hm Hrun).
Defined.

(** A missing record raises [ValueError("Missing meta")] and writes
    nothing. *)
Theorem update_meta_missing iid actor s w :
  w_meta w !! iid = None -> _update_meta_from_state iid actor s w = (inl EMissingMeta, w).
Proof. intros Hm. unfold _update_meta_from_state. mrun. by rewrite Hm. Qed.

Lemma update_meta_missing_witness :
  let s := mkExecState "x" "C1" "ClaimWorkflow" ∅ (mkExecMeta None None None None) in
  w_meta empty_world !! "x" = None /\
  _update_meta_from_state "x" "u" s empty_world = (inl EMissingMeta, empty_world).
Proof.
  intros s. assert (H : w_meta empty_world !! "x" = None) by reflexivity.
  split; [exact H|]. exact (update_meta_missing "x" "u" s empty_world H).
Defined.

Lemma bind_update_meta {A} iid actor s (k : InstanceMeta -> E A) w m0 :
  w_meta w !! iid = Some m0 ->
  bind (_update_meta_from_state iid actor s) k w =
  k (project m0 actor s (w_clock w))
    (mkWorld (w_state w)
       (<[im_instance_id m0 := project m0 actor s (w_clock w)]> (w_meta w))
       (w_events w) (w_index w) (project_clock m0 actor s (w_clock w))).
Proof. intros Hm. unfold bind at 1. rewrite (update_meta_run _ _ _ _ _ Hm). simpl. by rewrite project_id. Qed.

Lemma project_status m0 actor s t :
  im_status (project m0 actor s t) = default (im_status m0) (em_status (es_meta s)).
Proof. unfold project. by case_match. Qed.

Lemma project_last_actor m0 actor s t : im_last_actor (project m0 actor s t) = Some actor.
Proof. unfold project. by case_match. Qed.

(** A second projection of the same state adds no entry: the first one
    made the last entry the current node. *)
Lemma project_again m0 m1 actor actor' s t t' :
  im_steps_history m1 = im_steps_history (project m0 actor s t) ->
  im_steps_history (project m1 actor' s t') = im_steps_history m1.
Proof.
  intros H1. unfold project at 1. destruct (needs_entry _ _) eqn:He; [|done]. exfalso.
  unfold needs_entry in He. apply andb_true_iff in He as [Ht He].
  apply negb_true_iff, bool_decide_eq_false in He. apply He.
  unfold prev_node. simpl. rewrite H1.
  destruct (project_history m0 actor s t) as [Hh|(e & Hh & _ & Hn)].
  - unfold project in Hh |- *. destruct (needs_entry (meta_fields m0 actor s) _) eqn:He2.
    + simpl in Hh. apply (f_equal length) in Hh. rewrite length_app in Hh. simpl in Hh. lia.
    + unfold needs_entry in He2. rewrite Ht in He2. simpl in He2.
      apply negb_false_iff, bool_decide_eq_true in He2. done.
  - rewrite Hh, last_snoc. done.
Qed.

(** The projection keeps who the record is about. *)
Definition same_identity (m m0 : InstanceMeta) : Prop :=
  im_instance_id m = im_instance_id m0 /\ im_customer_id m = im_customer_id m0 /\
  im_workflow_name m = im_workflow_name m0 /\ im_started_by m = im_started_by m0.

Lemma project_identity m0 actor s t : same_identity (project m0 actor s t) m0.
Proof. unfold project. by case_match. Qed.

Lemma set_status_identity m st : same_identity (set_status m st) m.
Proof. done. Qed.

Lemma same_identity_trans m1 m2 m3 :
  same_identity m1 m2 -> same_identity m2 m3 -> same_identity m1 m3.
Proof. unfold same_identity. intros (?&?&?&?) (?&?&?&?). split_and!; congruence. Qed.

#[export] Hint Resolve project_identity set_status_identity same_identity_trans : wf.
