(* ===== verification/Engine.v ===== *)
(** * Engine: [start], [resume] and [_run]

    src/test.py, lines 172-379, over any compiled graph (the engine never
    looks inside the graph, it only calls [invoke]).  [start] builds a
    fresh execution state and audit record, writes them, indexes the
    instance, logs [created] and runs the graph once; [resume] merges the
    actor's updates into the bag, writes the state back, logs
    [resume_command] and runs the graph once; [_run] handles the three
    outcomes (paused, terminal, progressed), projecting the state into the
    audit record and appending events.

    The whole of [_run] is modelled, including [update_and_return]
    (lines 303-306), which re-projects the state after the branch has set
    the status: on a pause this overwrites the [paused] status just
    written. *)

From S2P Require Import Prelude Model Graph Store Projector.
Open Scope wf_scope.
Open Scope string_scope.
Open Scope list_scope.

(** Lines 314-315 and 338-339: a state that names no node is recorded as
    standing at ["Validate Request"]. *)
Definition default_last_node (s : ExecState) : ExecState :=
  if truthy_str (last_node_of s) then s else set_last_node s "Validate Request".

Section Engine.
Context {N : Type} (graph : StateGraph N) (workflow_name : string).

(** [self.graph.invoke(state)]: the graph mutates the dict it is given,
    and reads the same clock. *)
Definition invoke_graph (s : ExecState) : E (InvokeResult * ExecState) :=
  fun w =>
    let '(r, g') := invoke graph (mkGS s (w_clock w)) in
    (match r with
     | inl e => inl e
     | inr x => inr (x, gs_state g')
     end, set_w_clock w (gs_clock g')).

(** [update_and_return] (lines 303-306). *)
Definition update_and_return (iid actor : string) (payload : Summary) (s : ExecState) : E Summary :=
  m <- _update_meta_from_state iid actor s ;;
  _put_meta m ;;
  ret payload.

(** Lines 311-332: the pause branch.  The store holds the dict it was
    given, so the default node written after the [put] is in the store
    too: the model writes the state again. *)
Definition run_paused (iid actor prompt : string) (s1 : ExecState) : E Summary :=
  put_state iid s1 ;;
  let s2 := default_last_node s1 in
  put_state iid s2 ;;
  m <- _update_meta_from_state iid actor s2 ;;
  m' <- (if decide (im_status m ∈ [status_completed; status_aborted]) then ret m
         else _put_meta (set_status m status_paused) ;; ret (set_status m status_paused)) ;;
  _append_event iid "paused" (last_node_of s2) (im_status m') actor (DPrompt prompt) ;;
  update_and_return iid actor (SumPaused prompt iid) s2.

(** Lines 334-379: the graph returned the state. *)
Definition run_done (iid actor : string) (s1 : ExecState) : E Summary :=
  put_state iid s1 ;;
  let s2 := default_last_node s1 in
  put_state iid s2 ;;
  m <- _update_meta_from_state iid actor s2 ;;
  let node := default "" (last_node_of s2) in
  let status := default (im_status m) (em_status (es_meta s2)) in
  let result := es_bag s2 !! "result" in
  if String.eqb status status_completed then
    _put_meta (set_status m status_completed) ;;
    _append_event iid "completed" (Some node) status_completed actor (DResult result) ;;
    update_and_return iid actor (SumCompleted node result iid) s2
  else if String.eqb status status_aborted then
    _put_meta (set_status m status_aborted) ;;
    _append_event iid "aborted" (Some node) status_aborted actor (DResult result) ;;
    update_and_return iid actor (SumAborted node result iid) s2
  else
    _put_meta (set_status m status_in_progress) ;;
    _append_event iid "progressed" (Some node) status_in_progress actor DEmpty ;;
    update_and_return iid actor (SumInProgress node iid) s2.

(** [_run] (lines 302-379). *)
Definition _run (iid : string) (state : ExecState) (actor : string) : E Summary :=
  rs <- invoke_graph state ;;
  match rs with
  | (IInterrupt prompt, s1) => run_paused iid actor prompt s1
  | (IDone, s1) => run_done iid actor s1
  end.

(** [start] (lines 250-278); [iid] is the fresh [uuid4()]. *)
Definition start (iid customer_id started_by : string) : E (string * Summary) :=
  t <- now_w ;;
  let state := mkExecState iid customer_id workflow_name ∅
                 (mkExecMeta (Some status_in_progress) (Some t) None None) in
  let meta := mkInstanceMeta iid customer_id workflow_name started_by (Some started_by)
                status_in_progress None (Some t) None [] in
  put_state iid state ;;
  _put_meta meta ;;
  _add_to_index iid ;;
  _append_event iid "created" None (im_status meta) started_by (DCustomer customer_id) ;;
  r <- _run iid state started_by ;;
  ret (iid, r).

(** [resume] (lines 280-300): [bag.update(updates)] lets the updates
    win over the bag, which is stdpp's left-biased union. *)
Definition resume (iid actor : string) (updates : gmap string Value) : E Summary :=
  so <- get_state iid ;;
  match so with
  | None => throw (ENotFound iid)
  | Some state =>
      let state' := set_bag state (updates ∪ es_bag state) in
      put_state iid state' ;;
      _append_event iid "resume_command" (last_node_of state') status_in_progress actor
        (DUpdates updates) ;;
      _run iid state' actor
  end.

(** [get_meta] (lines 450-451) and [get_state] (lines 447-448) as
    reads of a world. *)
Definition get_meta (w : World) (iid : string) : option InstanceMeta := w_meta w !! iid.
Definition get_state_of (w : World) (iid : string) : option ExecState := w_state w !! iid.
End Engine.

(** ** Symbolic execution of [_run] *)

(** The summary [_run] returns when the graph returned the state. *)
Definition done_summary (iid : string) (status : string) (s2 : ExecState) : Summary :=
  let node := default "" (last_node_of s2) in
  let result := es_bag s2 !! "result" in
  if String.eqb status status_completed then SumCompleted node result iid
  else if String.eqb status status_aborted then SumAborted node result iid
  else SumInProgress node iid.

Lemma default_project_status m0 actor s t :
  default (im_status (project m0 actor s t)) (em_status (es_meta s)) =
  default (im_status m0) (em_status (es_meta s)).
Proof. rewrite project_status. by destruct (em_status (es_meta s)). Qed.

(** The pause branch writes the defaulted state, one record and one
    event; the record's history is that of one projection, and its final
    status is the state's status (when the state has one). *)
Lemma run_paused_spec iid actor prompt s1 w m0 :
  w_meta w !! iid = Some m0 -> im_instance_id m0 = iid ->
  let s2 := default_last_node s1 in
  exists w' m ev,
    run_paused iid actor prompt s1 w = (inr (SumPaused prompt iid), w') /\
    w_state w' = <[iid := s2]> (w_state w) /\
    w_meta w' = <[iid := m]> (w_meta w) /\
    w_index w' = w_index w /\
    w_events w' = <[iid := (history w iid ++ [ev])]> (w_events w) /\
    same_identity m m0 /\
    im_steps_history m = im_steps_history (project m0 actor s2 (w_clock w)) /\
    (forall x, em_status (es_meta s2) = Some x -> im_status m = x).
Proof.
  intros Hm Hid s2. unfold run_paused. autorewrite with wf_run. fold s2.
  rewrite (bind_update_meta _ _ _ _ _ m0) by exact Hm. wsimpl.
  set (m := project m0 actor s2 (w_clock w)).
  set (c := project_clock m0 actor s2 (w_clock w)).
  assert (Hmid : im_instance_id m = iid) by (subst m; rewrite project_id; done).
  destruct (decide _) as [Hst|Hst]; autorewrite with wf_run; wsimpl;
    unfold update_and_return; rewrite Hid.
  - rewrite (bind_update_meta _ _ _ _ _ m) by (simpl; by rewrite lookup_insert_eq).
    autorewrite with wf_run; wsimpl.
    eexists _, (project m actor s2 (S c)), _. split; [reflexivity|]. simpl.
    rewrite !project_id, !Hmid, !insert_insert_eq.
    split_and!; try reflexivity.
    + eauto with wf.
    + by apply (project_again m0 m actor actor s2 (w_clock w)).
    + intros x Hx. by rewrite project_status, Hx.
  - set (mp := set_status m status_paused).
    assert (Hmp : im_instance_id mp = iid) by exact Hmid.
    rewrite (bind_update_meta _ _ _ _ _ mp)
      by (cbn [w_meta]; rewrite Hmp; apply lookup_insert_eq).
    autorewrite with wf_run; wsimpl.
    eexists _, (project mp actor s2 (S c)), _. split; [reflexivity|]. simpl.
    rewrite !project_id, Hmp, Hmid, !insert_insert_eq.
    split_and!; try reflexivity.
    + eauto with wf.
    + by apply (project_again m0 mp actor actor s2 (w_clock w)).
    + intros x Hx. by rewrite project_status, Hx.
Qed.

(** The terminal/progress branch writes the same things. *)
Lemma run_done_spec iid actor s1 w m0 :
  w_meta w !! iid = Some m0 -> im_instance_id m0 = iid ->
  let s2 := default_last_node s1 in
  exists w' m ev,
    run_done iid actor s1 w =
      (inr (done_summary iid (default (im_status m0) (em_status (es_meta s2))) s2), w') /\
    w_state w' = <[iid := s2]> (w_state w) /\
    w_meta w' = <[iid := m]> (w_meta w) /\
    w_index w' = w_index w /\
    w_events w' = <[iid := (history w iid ++ [ev])]> (w_events w) /\
    same_identity m m0 /\
    im_steps_history m = im_steps_history (project m0 actor s2 (w_clock w)) /\
    (forall x, em_status (es_meta s2) = Some x -> im_status m = x).
Proof.
  intros Hm Hid s2. unfold run_done. autorewrite with wf_run. fold s2.
  rewrite (bind_update_meta _ _ _ _ _ m0) by exact Hm. wsimpl.
  rewrite default_project_status.
  set (m := project m0 actor s2 (w_clock w)).
  assert (Hmid : im_instance_id m = iid) by (subst m; rewrite project_id; done).
  unfold done_summary.
  destruct (String.eqb _ status_completed) eqn:E1;
    [|destruct (String.eqb _ status_aborted) eqn:E2];
    autorewrite with wf_run; wsimpl; unfold update_and_return;
    match goal with |- context [set_status m ?st] => set (mp := set_status m st) end;
    (assert (Hmp : im_instance_id mp = iid) by exact Hmid);
    rewrite Hmp;
    (rewrite (bind_update_meta _ _ _ _ _ mp)
       by (cbn [w_meta]; apply lookup_insert_eq));
    autorewrite with wf_run; wsimpl;
    eexists _, (project mp actor s2 _), _; (split; [reflexivity|]); simpl;
    rewrite !project_id, Hmp, ?Hmid, ?Hid, !insert_insert_eq;
    (split_and!; try reflexivity);
    repeat match goal with
    | |- same_identity ?a ?a => done
    | |- same_identity _ _ => eapply same_identity_trans; [apply project_identity|]
    | |- im_steps_history _ = _ => by apply (project_again m0 mp actor actor s2 (w_clock w))
    | |- forall x, _ => intros x Hx; by rewrite project_status, Hx
    end.
Qed.

Section RunSpec.
Context {N : Type} (graph : StateGraph N).

Lemma run_spec iid s actor w m0 r g' :
  w_meta w !! iid = Some m0 -> im_instance_id m0 = iid ->
  invoke graph (mkGS s (w_clock w)) = (inr r, g') ->
  let s2 := default_last_node (gs_state g') in
  exists sum w' m ev,
    _run graph iid s actor w = (inr sum, w') /\
    sum = match r with
          | IInterrupt p => SumPaused p iid
          | IDone => done_summary iid (default (im_status m0) (em_status (es_meta s2))) s2
          end /\
    w_state w' = <[iid := s2]> (w_state w) /\
    w_meta w' = <[iid := m]> (w_meta w) /\
    w_index w' = w_index w /\
    w_events w' = <[iid := (history w iid ++ [ev])]> (w_events w) /\
    same_identity m m0 /\
    im_steps_history m = im_steps_history (project m0 actor s2 (gs_clock g')) /\
    (forall x, em_status (es_meta s2) = Some x -> im_status m = x).
Proof.
  intros Hm Hid Hinv s2. unfold _run, bind at 1, invoke_graph. rewrite Hinv.
  destruct r as [p|].
  - destruct (run_paused_spec iid actor p (gs_state g') (set_w_clock w (gs_clock g')) m0 Hm Hid)
      as (w' & m & ev & Hrun & ?). exists (SumPaused p iid), w', m, ev. by rewrite Hrun.
  - destruct (run_done_spec iid actor (gs_state g') (set_w_clock w (gs_clock g')) m0 Hm Hid)
      as (w' & m & ev & Hrun & ?). eexists _, w', m, ev. by rewrite Hrun.
Qed.
End RunSpec.

(** ** Errors *)

(** [resume] on an unknown instance raises [ValueError("No workflow
    found")] and writes nothing to the store. *)
Theorem resume_not_found {N} (graph : StateGraph N) iid actor updates w :
  w_state w !! iid = None ->
  resume graph iid actor updates w = (inl (ENotFound iid), w).
Proof. intros H. unfold resume. autorewrite with wf_run. by rewrite H. Qed.

Lemma resume_not_found_witness :
  w_state empty_world !! "unknown-id" = None /\
  resume (mkStateGraph tt (fun _ => ret NReturn) (fun _ _ => GoEnd)) "unknown-id" "u" ∅ empty_world =
    (inl (ENotFound "unknown-id"), empty_world).
Proof.
  assert (H : w_state empty_world !! "unknown-id" = None) by reflexivity.
  split; [exact H|]. exact (resume_not_found _ "unknown-id" "u" ∅ empty_world H).
Defined.
