(* ===== verification/ClaimEngine.v ===== *)
(** * ClaimEngine: the process-wide engine and what it guarantees

    [src/workflow_backend.py] builds one [InMemoryStore] and one
    [Engine(store)], whose graph is [build_claim_workflow] and whose
    workflow name is the default ["ClaimWorkflow"] (src/test.py, line 172).
    This file runs [start] and [resume] of that engine symbolically, defines
    the worlds reachable from the empty store by any sequence of [start]
    (with a fresh [uuid4]) and [resume] calls, and proves the invariants of
    those worlds: the index, the state namespace and the metadata namespace
    name the same instances, without duplicates; every record's history has
    no two consecutive equal nodes; the record's status is the state's
    status, so it is never ["paused"] (the part [core], which the
    dashboard's and the API's requests keep as well), and every stored
    state is one a run of the graph returned.  It also proves what one step does
    to the logs and histories (they only grow) and the idempotence of
    [resume] with no updates. *)

From S2P Require Import Prelude Model Graph ClaimGraph Store Projector Engine.
Open Scope wf_scope.
Open Scope string_scope.
Open Scope list_scope.

(** [engine = Engine(store)] (src/workflow_backend.py, lines 5-6). *)
Definition engine_start : string -> string -> string -> E (string * Summary) :=
  start build_claim_workflow "ClaimWorkflow".

Definition engine_resume : string -> string -> gmap string Value -> E Summary :=
  resume build_claim_workflow.

Definition statuses : list string := [status_in_progress; status_completed; status_aborted].

(** A state some run of the graph produced. *)
Definition settled (s : ExecState) : Prop :=
  exists gs r c, invoke build_claim_workflow gs = (inr r, mkGS s c).

Lemma default_last_node_truthy s : truthy_str (last_node_of s) = true -> default_last_node s = s.
Proof. unfold default_last_node. by intros ->. Qed.

(** The summary [_run] returns for a graph result and the state stored. *)
Definition run_summary (iid : string) (r : InvokeResult) (st : string) (s2 : ExecState) : Summary :=
  match r with
  | IInterrupt p => SumPaused p iid
  | IDone => done_summary iid st s2
  end.

(** One run of the claim engine on an instance with a record. *)
Lemma claim_run_spec iid s actor w m0 :
  w_meta w !! iid = Some m0 -> im_instance_id m0 = iid -> status_ok (em_status (es_meta s)) ->
  exists r s2 c2 m w',
    _run build_claim_workflow iid s actor w = (inr (run_summary iid r (im_status m) s2), w') /\
    invoke build_claim_workflow (mkGS s (w_clock w)) = (inr r, mkGS s2 c2) /\
    w_state w' = <[iid := s2]> (w_state w) /\
    w_meta w' = <[iid := m]> (w_meta w) /\
    w_index w' = w_index w /\
    events_extend w w' iid /\
    settled s2 /\ em_status (es_meta s2) = Some (im_status m) /\ im_status m ∈ statuses /\
    same_identity m m0 /\
    im_steps_history m0 `prefix_of` im_steps_history m /\
    (no_stutter (history_nodes m0) -> no_stutter (history_nodes m)).
Proof.
  intros Hm Hid Hst.
  destruct (invoke_claim_outcome (mkGS s (w_clock w))) as (_ & r & g' & _ & Hinv & _).
  destruct (invoke_claim_post _ _ _ Hinv Hst) as (Hln & x & Hx & Hxs).
  destruct (run_spec build_claim_workflow iid s actor w m0 r g' Hm Hid Hinv)
    as (sum & w' & m & ev & Hrun & Hsum & Hs & Hmeta & Hi & He & Hident & Hh & Hstm).
  rewrite default_last_node_truthy in * by done.
  specialize (Hstm x Hx). destruct g' as [s2 c2]. simpl in *.
  destruct (project_laws m0 actor s2 c2) as (Hp & _ & Hns & _).
  exists r, s2, c2, m, w'. split_and!.
  - rewrite Hrun, Hsum. destruct r; [done|]. simpl. rewrite Hx. simpl. congruence.
  - done.
  - done.
  - done.
  - done.
  - by eapply events_extend_insert.
  - by exists (mkGS s (w_clock w)), r, c2.
  - by rewrite Hx, Hstm.
  - by rewrite Hstm.
  - done.
  - by rewrite Hh.
  - unfold history_nodes in *. by rewrite Hh.
Qed.

Lemma status_ok_in_progress : status_ok (Some status_in_progress).
Proof. right. eexists. split; [done|]. set_solver. Qed.

(** Runs [claim_run_spec] on the world reached just before [_run], whose
    record for the instance is [m0]. *)
Ltac run_spec_at i s a w5 m0 Hst :=
  let r := fresh "r" in let s2 := fresh "s2" in let c2 := fresh "c2" in
  let m := fresh "m" in let w' := fresh "w'" in
  let Hm5 := fresh "Hm5" in let Hid5 := fresh "Hid5" in
  assert (Hm5 : w_meta w5 !! i = Some m0) by (cbn [w_meta]; try simplify_map_eq; done);
  assert (Hid5 : im_instance_id m0 = i) by done;
  destruct (claim_run_spec i s a w5 m0 Hm5 Hid5 Hst)
    as (r & s2 & c2 & m & w' & ?Hrun & ?Hinv & ?Hs & ?Hmeta & ?Hi & ?He & ?Hset
        & ?Hst2 & ?Hsts & ?Hident & ?Hpre & ?Hns).

Ltac use_run_spec m0 Hst :=
  match goal with
  | |- context [bind (_run build_claim_workflow ?i ?s ?a) ?k ?w5] =>
      run_spec_at i s a w5 m0 Hst; unfold bind at 1;
      match goal with H : _run _ i s a w5 = _ |- _ => rewrite H end
  | |- context [_run build_claim_workflow ?i ?s ?a ?w5] =>
      run_spec_at i s a w5 m0 Hst;
      match goal with H : _run _ i s a w5 = _ |- _ => rewrite H end
  end.

Lemma engine_start_spec iid cid u w :
  w_meta w !! iid = None -> iid ∉ w_index w ->
  exists r s2 m w',
    engine_start iid cid u w = (inr (iid, run_summary iid r (im_status m) s2), w') /\
    w_state w' = <[iid := s2]> (w_state w) /\
    w_meta w' = <[iid := m]> (w_meta w) /\
    w_index w' = w_index w ++ [iid] /\
    events_extend w w' iid /\
    settled s2 /\ em_status (es_meta s2) = Some (im_status m) /\ im_status m ∈ statuses /\
    im_instance_id m = iid /\ im_customer_id m = cid /\ im_started_by m = u /\
    im_workflow_name m = "ClaimWorkflow" /\ no_stutter (history_nodes m).
Proof.
  intros Hm0 Hi0. unfold engine_start, start. autorewrite with wf_run. wsimpl.
  rewrite decide_False by done. autorewrite with wf_run. wsimpl.
  use_run_spec (mkInstanceMeta iid cid "ClaimWorkflow" u (Some u) status_in_progress None
                  (Some (w_clock w)) None []) status_ok_in_progress.
  wsimpl. cbn [im_instance_id] in *. rewrite insert_insert_eq in Hs. rewrite insert_insert_eq in Hmeta.
  destruct Hident as (Hi1 & Hi2 & Hi3 & Hi4).
  exists r, s2, m, w'. split_and!; try done.
  - eapply events_extend_trans; [|exact He]. by eapply events_extend_insert.
  - by apply Hns.
Qed.

Lemma engine_resume_spec iid a up w s m0 :
  w_state w !! iid = Some s -> w_meta w !! iid = Some m0 -> im_instance_id m0 = iid ->
  status_ok (em_status (es_meta s)) ->
  exists r s2 c2 m w',
    engine_resume iid a up w = (inr (run_summary iid r (im_status m) s2), w') /\
    invoke build_claim_workflow (mkGS (set_bag s (up ∪ es_bag s)) (S (w_clock w))) =
      (inr r, mkGS s2 c2) /\
    w_state w' = <[iid := s2]> (w_state w) /\
    w_meta w' = <[iid := m]> (w_meta w) /\
    w_index w' = w_index w /\
    events_extend w w' iid /\
    settled s2 /\ em_status (es_meta s2) = Some (im_status m) /\ im_status m ∈ statuses /\
    same_identity m m0 /\
    im_steps_history m0 `prefix_of` im_steps_history m /\
    (no_stutter (history_nodes m0) -> no_stutter (history_nodes m)).
Proof.
  intros Hs0 Hm0 Hid0 Hst0. unfold engine_resume, resume. autorewrite with wf_run.
  rewrite Hs0. autorewrite with wf_run. wsimpl.
  use_run_spec m0 Hst0.
  wsimpl. rewrite insert_insert_eq in Hs.
  exists r, s2, c2, m, w'. split_and!; try done.
  eapply events_extend_trans; [|exact He]. by eapply events_extend_insert.
Qed.

(** ** Reachable worlds *)

(** One call of the engine's public API that changes the store: [start]
    with an identifier not yet indexed (a fresh [uuid4()]), or [resume],
    whatever its outcome. *)
Inductive engine_step : World -> World -> Prop :=
| step_start w iid cid u res w' :
    iid ∉ w_index w -> engine_start iid cid u w = (res, w') -> engine_step w w'
| step_resume w iid a up res w' :
    engine_resume iid a up w = (res, w') -> engine_step w w'.

Definition reachable (w : World) : Prop := rtc engine_step empty_world w.

(** The invariant of the store that every operation of the process
    keeps: the index, the states and the records name the same
    instances, the index has no duplicates, each record is filed under its
    own identifier, no history stutters, and each record's status is the
    status of its instance's state, one of [statuses]. *)
Record core (w : World) : Prop := mk_core {
  core_state_index : forall k, is_Some (w_state w !! k) <-> k ∈ w_index w;
  core_meta_index : forall k, is_Some (w_meta w !! k) <-> k ∈ w_index w;
  core_nodup : NoDup (w_index w);
  core_meta_id : forall k m, w_meta w !! k = Some m -> im_instance_id m = k;
  core_no_stutter : forall k m, w_meta w !! k = Some m -> no_stutter (history_nodes m);
  core_status : forall k s m, w_state w !! k = Some s -> w_meta w !! k = Some m ->
    em_status (es_meta s) = Some (im_status m) /\ im_status m ∈ statuses;
}.

(** The invariant of reachable worlds: [core], and every stored state is
    one that a run of the graph returned. *)
Record inv (w : World) : Prop := mk_inv {
  inv_core : core w;
  inv_settled : forall k s, w_state w !! k = Some s -> settled s;
}.

Lemma inv_state_index w : inv w -> forall k, is_Some (w_state w !! k) <-> k ∈ w_index w.
Proof. intros H. apply (core_state_index _ (inv_core _ H)). Qed.

Lemma inv_meta_index w : inv w -> forall k, is_Some (w_meta w !! k) <-> k ∈ w_index w.
Proof. intros H. apply (core_meta_index _ (inv_core _ H)). Qed.

Lemma inv_status w : inv w -> forall k s m, w_state w !! k = Some s -> w_meta w !! k = Some m ->
  em_status (es_meta s) = Some (im_status m) /\ im_status m ∈ statuses.
Proof. intros H. apply (core_status _ (inv_core _ H)). Qed.

Lemma core_empty : core empty_world.
Proof.
  split; simpl; intros *; rewrite ?lookup_empty; try done.
  - split; [by intros []|set_solver].
  - split; [by intros []|set_solver].
  - constructor.
Qed.

Lemma inv_empty : inv empty_world.
Proof. split; [exact core_empty|]. intros k s. cbn. by rewrite lookup_empty. Qed.

Lemma status_ok_of w k s m :
  core w -> w_state w !! k = Some s -> w_meta w !! k = Some m -> status_ok (em_status (es_meta s)).
Proof. intros Hc Hs Hm. destruct (core_status _ Hc _ _ _ Hs Hm) as [-> ?]. right. eauto. Qed.

(** Case analysis on a lookup in an updated map. *)
Ltac lookup_cases x y :=
  let E := fresh "E" in
  destruct (decide (x = y)) as [E|?]; [subst x|]; simplify_map_eq.

(** A fresh instance with its state and record keeps [core]. *)
Lemma core_insert_fresh w w' iid s2 m :
  core w -> iid ∉ w_index w ->
  w_state w' = <[iid := s2]> (w_state w) -> w_meta w' = <[iid := m]> (w_meta w) ->
  w_index w' = w_index w ++ [iid] ->
  im_instance_id m = iid -> no_stutter (history_nodes m) ->
  em_status (es_meta s2) = Some (im_status m) -> im_status m ∈ statuses ->
  core w'.
Proof.
  intros Hc Hfresh Hs Hm Hi Hid Hns Hst Hsts. split; rewrite ?Hs, ?Hm, ?Hi.
  - intros k. rewrite lookup_insert_is_Some', elem_of_app, list_elem_of_singleton,
      (core_state_index _ Hc). naive_solver.
  - intros k. rewrite lookup_insert_is_Some', elem_of_app, list_elem_of_singleton,
      (core_meta_index _ Hc). naive_solver.
  - apply NoDup_snoc_fresh; [apply Hc|done].
  - intros k m' Hk. lookup_cases k iid; [done|]. by apply (core_meta_id _ Hc).
  - intros k m' Hk. lookup_cases k iid; [done|]. by apply (core_no_stutter _ Hc k).
  - intros k s m' Hk Hk'. lookup_cases k iid; [done|]. by apply (core_status _ Hc k).
Qed.

(** A new state and record for an indexed instance keep [core] when the
    record keeps its identifier, its history does not start to stutter,
    and its status is the state's. *)
Lemma core_update w w' iid s2 m m0 :
  core w -> w_meta w !! iid = Some m0 ->
  w_state w' = <[iid := s2]> (w_state w) -> w_meta w' = <[iid := m]> (w_meta w) ->
  w_index w' = w_index w ->
  im_instance_id m = iid -> (no_stutter (history_nodes m0) -> no_stutter (history_nodes m)) ->
  em_status (es_meta s2) = Some (im_status m) -> im_status m ∈ statuses ->
  core w'.
Proof.
  intros Hc Hm0 Hs Hm Hi Hid Hns Hst Hsts.
  assert (Hin : iid ∈ w_index w) by (apply (core_meta_index _ Hc); by rewrite Hm0).
  split; rewrite ?Hs, ?Hm, ?Hi.
  - intros k. rewrite lookup_insert_is_Some', (core_state_index _ Hc). naive_solver.
  - intros k. rewrite lookup_insert_is_Some', (core_meta_index _ Hc). naive_solver.
  - apply Hc.
  - intros k m' Hk. lookup_cases k iid; [done|]. by apply (core_meta_id _ Hc).
  - intros k m' Hk. lookup_cases k iid; [apply Hns; by eapply (core_no_stutter _ Hc)|].
    by apply (core_no_stutter _ Hc k).
  - intros k s' m' Hk Hk'. lookup_cases k iid; [done|]. by apply (core_status _ Hc k).
Qed.

(** Settledness after a state is stored at one key. *)
Lemma settled_insert (st : gmap string ExecState) iid s2 :
  (forall k s, st !! k = Some s -> settled s) -> settled s2 ->
  forall k s, <[iid := s2]> st !! k = Some s -> settled s.
Proof. intros Hall Hs2 k s Hk. lookup_cases k iid; [done|]. by apply (Hall k). Qed.

(** [start] with a fresh identifier keeps [core]. *)
Lemma core_start w iid cid u res w' :
  core w -> iid ∉ w_index w -> engine_start iid cid u w = (res, w') ->
  core w' /\ exists s2, w_state w' = <[iid := s2]> (w_state w) /\ settled s2.
Proof.
  intros Hc Hfresh Hrun.
  assert (Hm0 : w_meta w !! iid = None).
  { destruct (w_meta w !! iid) eqn:E; [|done]. exfalso. apply Hfresh, (core_meta_index _ Hc). by rewrite E. }
  destruct (engine_start_spec iid cid u w Hm0 Hfresh)
    as (r & s2 & m & w2 & Hrun2 & Hs & Hm & Hi & _ & Hset & Hst & Hsts & Hid & _ & _ & _ & Hns).
  rewrite Hrun in Hrun2. injection Hrun2 as -> ->.
  split; [exact (core_insert_fresh w _ iid s2 m Hc Hfresh Hs Hm Hi Hid Hns Hst Hsts)|eauto].
Qed.

(** [start] with a fresh identifier pauses at Validate Request with an
    empty bag and the status [in_progress]. *)
Lemma engine_start_outcome iid cid u w :
  core w -> iid ∉ w_index w ->
  exists s2 w', engine_start iid cid u w = (inr (iid, SumPaused (prompt_of ValidateRequest) iid), w') /\
    w_state w' !! iid = Some s2 /\ es_bag s2 = ∅ /\ em_status (es_meta s2) = Some status_in_progress /\
    core w'.
Proof.
  intros Hc Hf.
  assert (Hm0 : w_meta w !! iid = None).
  { destruct (w_meta w !! iid) eqn:E; [|done]. exfalso. apply Hf, (core_meta_index _ Hc). by rewrite E. }
  destruct (engine_start iid cid u w) as [res w'] eqn:Hrun.
  destruct (core_start w iid cid u res w' Hc Hf Hrun) as [Hc' _].
  revert Hrun. unfold engine_start, start. autorewrite with wf_run. wsimpl.
  rewrite decide_False by done. autorewrite with wf_run. wsimpl.
  use_run_spec (mkInstanceMeta iid cid "ClaimWorkflow" u (Some u) status_in_progress None
                  (Some (w_clock w)) None []) status_ok_in_progress.
  wsimpl. rewrite insert_insert_eq in Hs.
  match goal with H : invoke _ ?gs = _ |- _ =>
    destruct (invoke_claim_outcome gs) as (o & r' & gs' & Htr & Hinvk & Hok); rewrite H in Hinvk end.
  injection Hinvk as <- <-. cbn [gs_state es_bag es_meta em_status] in Htr, Hok.
  assert (Hp : Spec.traverse truthy ∅ ValidateRequest (Spec.OPause ValidateRequest))
    by (eapply Spec.tr_pause; [reflexivity|apply lookup_empty]).
  rewrite (traverse_det _ _ _ _ _ Htr Hp) in Hok. destruct Hok as (-> & _ & Hb & Hsts0).
  intros [= <- <-]. exists s2, w'0. split_and!; try done. by rewrite Hs, lookup_insert_eq.
Qed.

Lemma inv_start w iid cid u res w' :
  inv w -> iid ∉ w_index w -> engine_start iid cid u w = (res, w') -> inv w'.
Proof.
  intros Hinv Hfresh Hrun.
  destruct (core_start w iid cid u res w' (inv_core _ Hinv) Hfresh Hrun) as (Hc & s2 & Hs & Hset).
  split; [done|]. rewrite Hs. exact (settled_insert _ _ _ (inv_settled _ Hinv) Hset).
Qed.

(** [resume] of an instance the store does not hold changes nothing. *)
Lemma engine_resume_unknown iid a up w :
  w_state w !! iid = None -> engine_resume iid a up w = (inl (ENotFound iid), w).
Proof. intros H. unfold engine_resume, resume. autorewrite with wf_run. by rewrite H. Qed.

(** The facts [resume] needs from the invariant about an indexed instance. *)
Lemma core_instance w iid s :
  core w -> w_state w !! iid = Some s ->
  exists m0, w_meta w !! iid = Some m0 /\ im_instance_id m0 = iid /\ status_ok (em_status (es_meta s)).
Proof.
  intros Hc Hs.
  assert (Hin : iid ∈ w_index w) by (apply (core_state_index _ Hc); by rewrite Hs).
  apply (core_meta_index _ Hc) in Hin as [m0 Hm0].
  exists m0. split_and!; [done|by eapply core_meta_id|by eapply status_ok_of].
Qed.

Lemma inv_instance w iid s :
  inv w -> w_state w !! iid = Some s ->
  exists m0, w_meta w !! iid = Some m0 /\ im_instance_id m0 = iid /\ status_ok (em_status (es_meta s)).
Proof. intros Hinv. apply core_instance, Hinv. Qed.

(** [resume] keeps [core]. *)
Lemma core_resume w iid a up res w' :
  core w -> engine_resume iid a up w = (res, w') -> core w'.
Proof.
  intros Hc Hrun. destruct (w_state w !! iid) as [s|] eqn:Hs0.
  2:{ rewrite engine_resume_unknown in Hrun by done. by injection Hrun as _ <-. }
  destruct (core_instance w iid s Hc Hs0) as (m0 & Hm0 & Hid0 & Hst0).
  destruct (engine_resume_spec iid a up w s m0 Hs0 Hm0 Hid0 Hst0)
    as (r & s2 & c2 & m & w2 & Hrun2 & _ & Hs & Hm & Hi & _ & _ & Hst & Hsts & Hident & _ & Hns).
  rewrite Hrun in Hrun2. injection Hrun2 as -> ->.
  eapply core_update; eauto. by destruct Hident as [-> _].
Qed.

Lemma inv_resume w iid a up res w' :
  inv w -> engine_resume iid a up w = (res, w') -> inv w'.
Proof.
  intros Hinv Hrun. split; [exact (core_resume w iid a up res w' (inv_core _ Hinv) Hrun)|].
  destruct (w_state w !! iid) as [s|] eqn:Hs0.
  2:{ rewrite engine_resume_unknown in Hrun by done. injection Hrun as _ <-. apply Hinv. }
  destruct (inv_instance w iid s Hinv Hs0) as (m0 & Hm0 & Hid0 & Hst0).
  destruct (engine_resume_spec iid a up w s m0 Hs0 Hm0 Hid0 Hst0)
    as (r & s2 & c2 & m & w2 & Hrun2 & _ & Hs & _ & _ & _ & Hset & _).
  rewrite Hrun in Hrun2. injection Hrun2 as -> ->.
  rewrite Hs. exact (settled_insert _ _ _ (inv_settled _ Hinv) Hset).
Qed.

Lemma inv_engine_step w w' : inv w -> engine_step w w' -> inv w'.
Proof.
  intros Hinv Hstep. destruct Hstep as [w iid cid u res w' Hf Hr|w iid a up res w' Hr].
  - by eapply inv_start.
  - by eapply inv_resume.
Qed.

Lemma rtc_inv w w' : inv w -> rtc engine_step w w' -> inv w'.
Proof. intros Hinv Hr. induction Hr; eauto using inv_engine_step. Qed.

Lemma reachable_inv w : reachable w -> inv w.
Proof. intros Hr. by eapply rtc_inv; [apply inv_empty|]. Qed.

(** ** A concrete reachable world *)

Definition w_started : World := snd (engine_start "id1" "C1" "u1" empty_world).

Lemma reachable_started : reachable w_started.
Proof.
  apply rtc_once. eapply (step_start _ "id1" "C1" "u1" _ _ _ (surjective_pairing _)).
  Unshelve. set_solver.
Qed.

(** ** Invariants of reachable worlds *)

Lemma status_not_paused st : st ∈ statuses -> st <> status_paused.
Proof.
  unfold statuses, status_in_progress, status_completed, status_aborted, status_paused.
  intros Hin ->. apply list_elem_of_In in Hin. simpl in Hin. naive_solver.
Qed.

(** Every record's status is one of [statuses]. *)
Lemma core_meta_status w iid m : core w -> w_meta w !! iid = Some m -> im_status m ∈ statuses.
Proof.
  intros Hc Hm.
  assert (Hin : iid ∈ w_index w) by (apply (core_meta_index _ Hc); by rewrite Hm).
  apply (core_state_index _ Hc) in Hin as [s Hs].
  by destruct (core_status _ Hc _ _ _ Hs Hm).
Qed.

Lemma inv_meta_status w iid m : inv w -> w_meta w !! iid = Some m -> im_status m ∈ statuses.
Proof. intros Hinv. apply core_meta_status, Hinv. Qed.

(** [resume] of an indexed instance returns a summary. *)
Lemma inv_resume_ok w iid a up :
  inv w -> iid ∈ w_index w -> exists sum w', engine_resume iid a up w = (inr sum, w').
Proof.
  intros Hinv Hin. apply (inv_state_index _ Hinv) in Hin as [s Hs].
  destruct (inv_instance w iid s Hinv Hs) as (m0 & Hm0 & Hid0 & Hst0).
  destruct (engine_resume_spec iid a up w s m0 Hs Hm0 Hid0 Hst0) as (? & ? & ? & ? & w' & Hrun & _).
  eauto.
Qed.

(** C5. The audit status is never ["paused"]: in every reachable world,
    every record's status is [in_progress], [completed] or [aborted], the
    status of the instance's execution state.  [_run] writes ["paused"] on a
    pause (line 318), but [update_and_return] (lines 303-306) projects the
    state once more and overwrites it with the state's status. *)
Theorem reachable_status_not_paused w iid m :
  reachable w -> w_meta w !! iid = Some m ->
  im_status m ∈ statuses /\ im_status m <> status_paused.
Proof.
  intros Hr Hm. pose proof (inv_meta_status w iid m (reachable_inv w Hr) Hm).
  split; [done|by apply status_not_paused].
Qed.

Lemma reachable_status_not_paused_witness :
  exists m, w_meta w_started !! "id1" = Some m /\
            im_status m ∈ statuses /\ im_status m <> status_paused.
Proof.
  destruct (w_meta w_started !! "id1") as [m|] eqn:E.
  - exists m. split; [reflexivity|]. exact (reachable_status_not_paused _ _ _ reachable_started E).
  - exfalso. vm_compute in E. discriminate E.
Defined.

(** C6. The index is a registry of exactly the instances the store holds:
    in every reachable world it has no duplicates, and an identifier is
    indexed exactly when the store holds an execution state for it, and
    exactly when it holds a record for it. *)
Theorem reachable_registry w :
  reachable w ->
  NoDup (w_index w) /\
  forall k, (k ∈ w_index w <-> is_Some (w_state w !! k)) /\
            (k ∈ w_index w <-> is_Some (w_meta w !! k)).
Proof.
  intros Hr. pose proof (reachable_inv w Hr) as Hinv. split; [apply (core_nodup _ (inv_core _ Hinv))|].
  intros k. split; symmetry; [apply (inv_state_index _ Hinv)|apply (inv_meta_index _ Hinv)].
Qed.

Lemma reachable_registry_witness :
  reachable w_started /\
  NoDup (w_index w_started) /\
  forall k, (k ∈ w_index w_started <-> is_Some (w_state w_started !! k)) /\
            (k ∈ w_index w_started <-> is_Some (w_meta w_started !! k)).
Proof. split; [exact reachable_started|exact (reachable_registry _ reachable_started)]. Defined.

(** C7. [resume] fails exactly on unknown instances: in a reachable
    world, [resume] of an indexed instance returns a summary (it raises
    neither the missing-metadata error nor LangGraph's recursion error),
    and [resume] of any other identifier raises the not-found error. *)
Theorem reachable_resume_total w iid a up :
  reachable w ->
  (iid ∈ w_index w -> exists sum w', engine_resume iid a up w = (inr sum, w')) /\
  (iid ∉ w_index w -> engine_resume iid a up w = (inl (ENotFound iid), w)).
Proof.
  intros Hr. pose proof (reachable_inv w Hr) as Hinv. split.
  - by apply inv_resume_ok.
  - intros Hnin. apply engine_resume_unknown.
    destruct (w_state w !! iid) eqn:E; [|done]. exfalso. apply Hnin, (inv_state_index _ Hinv). by rewrite E.
Qed.

Lemma reachable_resume_total_witness :
  reachable w_started /\
  ("id1" ∈ w_index w_started ->
     exists sum w', engine_resume "id1" "u2" ∅ w_started = (inr sum, w')) /\
  ("id1" ∉ w_index w_started ->
     engine_resume "id1" "u2" ∅ w_started = (inl (ENotFound "id1"), w_started)).
Proof. split; [exact reachable_started|exact (reachable_resume_total _ _ _ _ reachable_started)]. Defined.

(** C22. The step history of every record in every reachable world has
    no two consecutive entries for the same node. *)
Theorem reachable_history_no_stutter w iid m :
  reachable w -> w_meta w !! iid = Some m -> no_stutter (history_nodes m).
Proof. intros Hr Hm. exact (core_no_stutter _ (inv_core _ (reachable_inv w Hr)) _ _ Hm). Qed.

Lemma reachable_history_no_stutter_witness :
  exists m, w_meta w_started !! "id1" = Some m /\ no_stutter (history_nodes m).
Proof.
  destruct (w_meta w_started !! "id1") as [m|] eqn:E.
  - exists m. split; [reflexivity|]. exact (reachable_history_no_stutter _ _ _ reachable_started E).
  - exfalso. vm_compute in E. discriminate E.
Defined.

(** C21. Audit data only grows: one [start] or [resume] from a reachable
    world keeps every instance's event log as a prefix of its new log,
    every record's step history as a prefix of its new history, and the
    index as a prefix of the new index. *)
Theorem engine_step_grows w w' :
  reachable w -> engine_step w w' ->
  (forall k, history w k `prefix_of` history w' k) /\
  (forall k m, w_meta w !! k = Some m ->
     exists m', w_meta w' !! k = Some m' /\ im_steps_history m `prefix_of` im_steps_history m') /\
  w_index w `prefix_of` w_index w'.
Proof.
  intros Hr Hstep. pose proof (reachable_inv w Hr) as Hinv.
  destruct Hstep as [w iid cid u res w' Hf Hrun|w iid a up res w' Hrun].
  - assert (Hm0 : w_meta w !! iid = None).
    { destruct (w_meta w !! iid) eqn:E; [|done]. exfalso. apply Hf, (inv_meta_index _ Hinv). by rewrite E. }
    destruct (engine_start_spec iid cid u w Hm0 Hf)
      as (r & s2 & m & w2 & Hrun2 & _ & Hm & Hi & He & _).
    rewrite Hrun in Hrun2. injection Hrun2 as -> ->.
    split_and!; [by apply events_extend_prefix with iid| |rewrite Hi; by eexists].
    intros k m' Hk. exists m'. split; [|done]. rewrite Hm, lookup_insert_ne; [done|].
    intros ->. by rewrite Hm0 in Hk.
  - destruct (w_state w !! iid) as [s|] eqn:Hs0.
    2:{ rewrite engine_resume_unknown in Hrun by done. injection Hrun as _ <-.
        split_and!; [done|eauto|done]. }
    destruct (inv_instance w iid s Hinv Hs0) as (m0 & Hm0 & Hid0 & Hst0).
    destruct (engine_resume_spec iid a up w s m0 Hs0 Hm0 Hid0 Hst0)
      as (r & s2 & c2 & m & w2 & Hrun2 & _ & _ & Hm & Hi & He & _ & _ & _ & _ & Hpre & _).
    rewrite Hrun in Hrun2. injection Hrun2 as -> ->.
    split_and!; [by apply events_extend_prefix with iid| |by rewrite Hi].
    intros k m' Hk. rewrite Hm. destruct (decide (k = iid)) as [->|Hne].
    + rewrite lookup_insert_eq. rewrite Hm0 in Hk. injection Hk as <-. eauto.
    + rewrite lookup_insert_ne by congruence. eauto.
Qed.

Lemma engine_step_grows_witness :
  reachable w_started /\
  engine_step w_started (snd (engine_resume "id1" "u2" {["validate" := VStr "yes"]} w_started)) /\
  let w' := snd (engine_resume "id1" "u2" {["validate" := VStr "yes"]} w_started) in
  (forall k, history w_started k `prefix_of` history w' k) /\
  (forall k m, w_meta w_started !! k = Some m ->
     exists m', w_meta w' !! k = Some m' /\ im_steps_history m `prefix_of` im_steps_history m') /\
  w_index w_started `prefix_of` w_index w'.
Proof.
  assert (Hs : engine_step w_started (snd (engine_resume "id1" "u2" {["validate" := VStr "yes"]} w_started))).
  { exact (step_resume _ "id1" "u2" _ _ _ (surjective_pairing _)). }
  split; [exact reachable_started|]. split; [exact Hs|].
  exact (engine_step_grows _ _ reachable_started Hs).
Defined.

(** ** Idempotence of [resume] with no updates *)

Lemma set_bag_empty_union s : set_bag s (∅ ∪ es_bag s) = s.
Proof. rewrite (left_id_L ∅ union). by destruct s. Qed.

(** The summary depends on the stored state only through its node, status
    and bag. *)
Lemma run_summary_congr iid r st s2 s3 :
  last_node_of s3 = last_node_of s2 -> es_bag s3 = es_bag s2 ->
  run_summary iid r st s3 = run_summary iid r st s2.
Proof. intros Hl Hb. unfold run_summary, done_summary. by rewrite Hl, Hb. Qed.

(** An empty [resume] of a settled state runs the graph to the same result
    and leaves the same node, status and bag. *)
Lemma resume_empty_step w iid s a :
  inv w -> w_state w !! iid = Some s ->
  exists r0 gs0 c0 r m s2 c2 w',
    invoke build_claim_workflow gs0 = (inr r0, mkGS s c0) /\
    invoke build_claim_workflow (mkGS s (S (w_clock w))) = (inr r, mkGS s2 c2) /\
    engine_resume iid a ∅ w = (inr (run_summary iid r (im_status m) s2), w') /\
    r = r0 /\ w_state w' !! iid = Some s2 /\ w_meta w' !! iid = Some m /\
    es_bag s2 = es_bag s /\ last_node_of s2 = last_node_of s /\
    em_status (es_meta s2) = em_status (es_meta s) /\
    em_status (es_meta s2) = Some (im_status m) /\ inv w'.
Proof.
  intros Hinv Hs.
  destruct (inv_instance w iid s Hinv Hs) as (m0 & Hm0 & Hid0 & Hst0).
  destruct (engine_resume_spec iid a ∅ w s m0 Hs Hm0 Hid0 Hst0)
    as (r & s2 & c2 & m & w' & Hrun & Hinv2 & Hs2 & Hm & _ & _ & _ & Hst2 & _).
  rewrite set_bag_empty_union in Hinv2.
  destruct (inv_settled _ Hinv _ _ Hs) as (gs0 & r0 & c0 & Hgs0).
  destruct (invoke_claim_stable gs0 r0 (mkGS s c0) (S (w_clock w)) Hgs0)
    as (g & Hg & Hb & Hl & Hst). simpl in *.
  rewrite Hinv2 in Hg. injection Hg as -> <-. simpl in *.
  exists r0, gs0, c0, r0, m, s2, c2, w'. split_and!; try done.
  - by rewrite Hs2, lookup_insert_eq.
  - by rewrite Hm, lookup_insert_eq.
  - by eapply inv_resume.
Qed.

(** C19. Idempotence of [resume] with no updates: in a reachable world,
    [resume(id, actor, {})] of a known instance leaves its bag and current
    node as they were, and a second [resume(id, actor', {})] returns the
    same summary (the same prompt, when paused). *)
Theorem resume_empty_idempotent w iid s a a' :
  reachable w -> w_state w !! iid = Some s ->
  exists sum w' s' w'',
    engine_resume iid a ∅ w = (inr sum, w') /\
    w_state w' !! iid = Some s' /\ es_bag s' = es_bag s /\ last_node_of s' = last_node_of s /\
    engine_resume iid a' ∅ w' = (inr sum, w'').
Proof.
  intros Hr Hs. pose proof (reachable_inv w Hr) as Hinv.
  destruct (resume_empty_step w iid s a Hinv Hs)
    as (r0 & gs0 & c0 & r & m & s2 & c2 & w' & _ & Hinv1 & Hrun & -> & Hs2 & _ & Hb & Hl & Hst & Hstm & Hinv').
  destruct (resume_empty_step w' iid s2 a' Hinv' Hs2)
    as (r1 & gs1 & c1 & r' & m' & s3 & c3 & w'' & Hgs1 & _ & Hrun' & -> & _ & _ & Hb' & Hl' & Hst' & Hstm' & _).
  (* a run of [s2] gives [r1] and, [s2] being what a run of [s] left, [r0] *)
  destruct (invoke_claim_stable gs1 r1 (mkGS s2 c1) 0 Hgs1) as (g1 & Hg1 & _).
  destruct (invoke_claim_stable _ r0 (mkGS s2 c2) 0 Hinv1) as (g0 & Hg0 & _).
  simpl in Hg0, Hg1. rewrite Hg0 in Hg1. injection Hg1 as <- _.
  exists (run_summary iid r0 (im_status m) s2), w', s2, w''. split_and!; try done.
  rewrite Hrun'. assert (Hmm : im_status m' = im_status m) by congruence.
  rewrite Hmm. by rewrite (run_summary_congr iid r0 (im_status m) s2 s3).
Qed.

Lemma resume_empty_idempotent_witness :
  exists s, w_state w_started !! "id1" = Some s /\
  exists sum w' s' w'',
    engine_resume "id1" "u2" ∅ w_started = (inr sum, w') /\
    w_state w' !! "id1" = Some s' /\ es_bag s' = es_bag s /\ last_node_of s' = last_node_of s /\
    engine_resume "id1" "u3" ∅ w' = (inr sum, w'').
Proof.
  destruct (w_state w_started !! "id1") as [s|] eqn:E.
  - exists s. split; [reflexivity|]. exact (resume_empty_idempotent _ _ _ "u2" "u3" reachable_started E).
  - exfalso. vm_compute in E. discriminate E.
Defined.


(** ** One resume can always finish an instance *)

(** The answers of the happy path: [validate = "yes"], truthy claim
    details, [process_decision = "suppress"], [proceed_fulfill = "yes"]. *)
Definition happy_answers (b : gmap string Value) : Prop :=
  b !! "validate" = Some (VStr "yes") /\
  (exists v, b !! "claim_details" = Some v /\ truthy v = true) /\
  b !! "process_decision" = Some (VStr "suppress") /\
  b !! "proceed_fulfill" = Some (VStr "yes").

Lemma happy_answers_union up b : happy_answers up -> happy_answers (up ∪ b).
Proof.
  intros (H1 & (v & H2 & Hv) & H3 & H4).
  split_and!; [|exists v; split; [|done]|..]; by apply lookup_union_Some_l.
Qed.

Lemma traverse_happy b : happy_answers b -> Spec.traverse truthy b ValidateRequest (Spec.OTerminal FulfillCaseAndDetect).
Proof.
  intros (H1 & (v & H2 & Hv) & H3 & H4).
  eapply Spec.tr_step; [reflexivity|exact H1|reflexivity|].
  eapply Spec.tr_step; [reflexivity|exact H2|cbn; by rewrite Hv|].
  eapply Spec.tr_step; [reflexivity|exact H3|reflexivity|].
  eapply Spec.tr_step; [reflexivity|exact H4|reflexivity|].
  by apply Spec.tr_terminal.
Qed.

(** A resume of a stored instance runs the graph on the merged bag: its
    summary, the state and the record it leaves follow the traversal of
    that bag. *)
Lemma engine_resume_outcome w iid a up s o :
  core w -> w_state w !! iid = Some s ->
  Spec.traverse truthy (up ∪ es_bag s) ValidateRequest o ->
  exists r s2 m w',
    engine_resume iid a up w = (inr (run_summary iid r (im_status m) s2), w') /\
    outcome_ok (up ∪ es_bag s) (em_status (es_meta s)) o r s2 /\
    w_state w' = <[iid := s2]> (w_state w) /\ w_meta w' = <[iid := m]> (w_meta w) /\
    em_status (es_meta s2) = Some (im_status m) /\ core w'.
Proof.
  intros Hc Hs0 Htr. destruct (core_instance w iid s Hc Hs0) as (m0 & Hm0 & Hid0 & Hst0).
  destruct (engine_resume_spec iid a up w s m0 Hs0 Hm0 Hid0 Hst0)
    as (r & s2 & c2 & m & w' & Hrun & Hinvk & Hs & Hm & _ & _ & _ & Hst & _).
  destruct (invoke_claim_outcome (mkGS (set_bag s (up ∪ es_bag s)) (S (w_clock w))))
    as (o' & r' & gs' & Htr' & Hinvk' & Hok).
  rewrite Hinvk in Hinvk'. injection Hinvk' as <- <-. cbn [gs_state es_bag es_meta set_bag] in Htr', Hok.
  rewrite (traverse_det _ _ _ _ _ Htr' Htr) in Hok.
  exists r, s2, m, w'. split_and!; try done. exact (core_resume _ _ _ _ _ _ Hc Hrun).
Qed.

(** A resume of an indexed instance whose updates carry the happy-path
    answers completes it, whatever it did before. *)
Lemma resume_happy w iid a up :
  core w -> iid ∈ w_index w -> happy_answers up ->
  exists w', engine_resume iid a up w =
               (inr (SumCompleted "Fulfill Case and Detect" (Some (VStr "Fulfilled and detection complete.")) iid), w') /\
             (im_status <$> w_meta w' !! iid) = Some status_completed.
Proof.
  intros Hc Hin Hup. apply (core_state_index _ Hc) in Hin as [s Hs0].
  destruct (engine_resume_outcome w iid a up s _ Hc Hs0 (traverse_happy _ (happy_answers_union _ _ Hup)))
    as (r & s2 & m & w' & Hrun & Hok & _ & Hm & Hst & _).
  destruct Hok as (-> & Hln & st & res & Ht & Hb & Hst2). injection Ht as <- <-.
  exists w'. rewrite Hrun, Hm, lookup_insert_eq. cbn [fmap option_fmap option_map].
  rewrite Hst2 in Hst. injection Hst as <-. split; [|done].
  cbn [run_summary]. unfold done_summary. rewrite Hln, Hb, lookup_insert_eq. reflexivity.
Qed.

(** ** A present but falsy claim details stalls the instance *)

(** C17. Where the code departs from the table: when the merged bag
    answers [validate = "yes"] and holds claim details that Python finds
    false ([""], [0], [0.0] or a float that rounds to it, [False], [None],
    an empty list or dict), a resume from any reachable world runs to
    Gather Claim Info and stops there without a prompt: the state records
    that step, the bag and the status are kept, and the summary is the
    one of a run that returned (for an instance in progress, [in_progress]
    at Gather Claim Info).  The specification's table, which lets any
    present value through, pauses at Identify Accounts instead when no
    decision is given. *)
Theorem resume_falsy_details_stall w iid a up s v :
  reachable w -> w_state w !! iid = Some s ->
  (up ∪ es_bag s) !! "validate" = Some (VStr "yes") ->
  (up ∪ es_bag s) !! "claim_details" = Some v -> truthy v = false ->
  (exists s2 w',
     engine_resume iid a up w = (inr (done_summary iid (default status_in_progress (em_status (es_meta s))) s2), w') /\
     w_state w' !! iid = Some s2 /\ last_node_of s2 = Some "Gather Claim Info" /\ es_bag s2 = up ∪ es_bag s /\
     em_status (es_meta s2) = Some (default status_in_progress (em_status (es_meta s)))) /\
  ((up ∪ es_bag s) !! "process_decision" = None ->
   Spec.traverse Spec.spec_ok (up ∪ es_bag s) ValidateRequest (Spec.OPause IdentifyAccounts)).
Proof.
  intros Hr Hs0 Hval Hcd Hv. split.
  - assert (Htr : Spec.traverse truthy (up ∪ es_bag s) ValidateRequest (Spec.OStall GatherClaimInfo)).
    { eapply Spec.tr_step; [reflexivity|exact Hval|reflexivity|].
      eapply Spec.tr_stall; [reflexivity|exact Hcd|]. cbn. by rewrite Hv. }
    destruct (engine_resume_outcome w iid a up s _ (inv_core _ (reachable_inv w Hr)) Hs0 Htr)
      as (r & s2 & m & w' & Hrun & (-> & Hln & Hb & Hst) & Hs & _ & Hst2 & _).
    exists s2, w'. rewrite Hst in Hst2. injection Hst2 as Hm. rewrite Hrun, Hs, lookup_insert_eq.
    cbn [run_summary]. rewrite <- Hm. split_and!; done.
  - intros Hpd. eapply Spec.tr_step; [reflexivity|exact Hval|reflexivity|].
    eapply Spec.tr_step; [reflexivity|exact Hcd|reflexivity|].
    by eapply Spec.tr_pause.
Qed.

Lemma resume_falsy_details_stall_witness :
  exists s, w_state w_started !! "id1" = Some s /\
  ({[ "validate" := VStr "yes"; "claim_details" := VStr "" ]} ∪ es_bag s) !! "validate" = Some (VStr "yes") /\
  ({[ "validate" := VStr "yes"; "claim_details" := VStr "" ]} ∪ es_bag s) !! "claim_details" = Some (VStr "") /\
  truthy (VStr "") = false /\
  (exists s2 w',
     engine_resume "id1" "u2" {[ "validate" := VStr "yes"; "claim_details" := VStr "" ]} w_started =
       (inr (done_summary "id1" (default status_in_progress (em_status (es_meta s))) s2), w') /\
     w_state w' !! "id1" = Some s2 /\ last_node_of s2 = Some "Gather Claim Info" /\
     es_bag s2 = {[ "validate" := VStr "yes"; "claim_details" := VStr "" ]} ∪ es_bag s /\
     em_status (es_meta s2) = Some (default status_in_progress (em_status (es_meta s)))).
Proof.
  destruct (w_state w_started !! "id1") as [s|] eqn:E.
  - assert (H1 : ({[ "validate" := VStr "yes"; "claim_details" := VStr "" ]} ∪ es_bag s) !! "validate" = Some (VStr "yes"))
      by (apply lookup_union_Some_l; vm_compute; reflexivity).
    assert (H2 : ({[ "validate" := VStr "yes"; "claim_details" := VStr "" ]} ∪ es_bag s) !! "claim_details" = Some (VStr ""))
      by (apply lookup_union_Some_l; vm_compute; reflexivity).
    assert (H3 : truthy (VStr "") = false) by reflexivity.
    exists s. split_and!; [reflexivity|exact H1|exact H2|exact H3|].
    exact (proj1 (resume_falsy_details_stall w_started "id1" "u2" _ s _ reachable_started E H1 H2 H3)).
  - exfalso. vm_compute in E. discriminate E.
Defined.
