(* ===== verification/Updates.v ===== *)
(** * Updates: [resume] with updates that are any JSON value

    [Engine.resume] (src/test.py, lines 280-300) applies the updates with
    [bag.update(updates)].  Through the REST API the updates are a dict
    (FastAPI validates [StepInput.updates: dict]), and that is the
    [resume] of [Engine].  The dashboard passes whatever [json.loads]
    returned (src/ui.py, lines 91-92): a list, a string, a number.
    [dict.update] then takes the argument as a sequence of key/value pairs
    ([PyDict_MergeFromSeq2]): each element must be a sequence of length
    two (a list, a string of two characters, a dict of two keys), and the
    pairs are inserted one by one; a bad element raises [TypeError] or
    [ValueError] after the earlier pairs were inserted.  A number,
    boolean or [None] raises [TypeError] at once.

    The store holds the very dict [resume] mutates (the in-memory store
    returns the stored object), so the pairs inserted before the error
    are in the store although nothing was [put] and no event was logged:
    [resume_json] writes the partly updated state before raising.

    A key of a type other than [str] (an integer, a float, a boolean,
    [None]) is hashable and Python inserts it; the model's bag has string
    keys only and drops such a key.  No code reads a bag key that is not a
    string literal, so nothing the model observes depends on it. *)

From S2P Require Import Prelude Model Json Graph ClaimGraph Store Projector Engine ClaimEngine.
From Stdlib Require Import Ascii.
Open Scope wf_scope.
Open Scope list_scope.
Open Scope string_scope.

(** [type(v).__name__] *)
Definition py_type_name (v : Value) : string :=
  match v with
  | VStr _ => "str"
  | VInt _ => "int"
  | VFloat _ => "float"
  | VBool _ => "bool"
  | VNone => "NoneType"
  | VList _ => "list"
  | VDict _ => "dict"
  end.

(** A continuation byte of UTF-8 ([10xxxxxx]). *)
Definition is_cont (c : ascii) : bool := (128 <=? nat_of_ascii c)%nat && (nat_of_ascii c <? 192)%nat.

(** The characters of a [str]: its code points, each as its UTF-8 bytes. *)
Fixpoint utf8_chars (s : string) : list string :=
  match s with
  | EmptyString => []
  | String c r =>
      match utf8_chars r with
      | String d t :: xs => if is_cont d then String c (String d t) :: xs else String c EmptyString :: String d t :: xs
      | l => String c EmptyString :: l
      end
  end.

(** [PySequence_Fast(item)]: the items of a list, the characters of a
    string, the keys of a dict; [None] for anything else. *)
Definition seq_items (v : Value) : option (list Value) :=
  match v with
  | VList l => Some l
  | VStr s => Some (map VStr (utf8_chars s))
  | VDict ps => Some (map (fun kv => VStr kv.1) ps)
  | _ => None
  end.

Definition show_nat (n : nat) : string := print_Z (Z.of_nat n).

(** [PyDict_MergeFromSeq2] from element [i] on: the bag reached and the
    exception raised, if any. *)
Fixpoint update_seq (bag : gmap string Value) (i : nat) (es : list Value) : gmap string Value * option Err :=
  match es with
  | [] => (bag, None)
  | e :: es' =>
      match seq_items e with
      | None =>
          (bag, Some (ETypeError ("cannot convert dictionary update sequence element #" ++ show_nat i ++
                                  " to a sequence")))
      | Some [k; v] =>
          match k with
          | VStr ks => update_seq (<[ks := v]> bag) (S i) es'
          | VList _ | VDict _ => (bag, Some (ETypeError ("unhashable type: '" ++ py_type_name k ++ "'")))
          | _ => update_seq bag (S i) es'
          end
      | Some l =>
          (bag, Some (EValueError ("dictionary update sequence element #" ++ show_nat i ++ " has length " ++
                                   show_nat (length l) ++ "; 2 is required")))
      end
  end.

(** [bag.update(u)] *)
Definition dict_update (bag : gmap string Value) (u : Value) : gmap string Value * option Err :=
  match u with
  | VDict ps => (fold_left (fun b kv => <[kv.1 := kv.2]> b) ps bag, None)
  | VList es => update_seq bag 0 es
  | VStr s => update_seq bag 0 (map VStr (utf8_chars s))
  | v => (bag, Some (ETypeError ("'" ++ py_type_name v ++ "' object is not iterable")))
  end.

(** [engine.resume(instance_id, actor, updates)] (src/test.py, lines
    280-300) with [updates] a value that is not a dict: [dict_update]
    applies it and, if that succeeds, the event records it as it is. *)
Definition resume_raw (iid actor : string) (u : Value) : E Summary :=
  so <- get_state iid ;;
  match so with
  | None => throw (ENotFound iid)
  | Some state =>
      let '(bag', err) := dict_update (es_bag state) u in
      let state' := set_bag state bag' in
      match err with
      | Some e => put_state iid state' ;; throw e
      | None =>
          put_state iid state' ;;
          _append_event iid "resume_command" (last_node_of state') status_in_progress actor
            (DUpdatesRaw u) ;;
          _run build_claim_workflow iid state' actor
      end
  end.

(** [engine.resume] with [updates] the value [json.loads] returned: a
    dict is the [resume] of [Engine] (its event records the dict),
    anything else is [resume_raw]. *)
Definition resume_json (iid actor : string) (u : Value) : E Summary :=
  match u with
  | VDict ps => engine_resume iid actor (list_to_map (rev ps))
  | _ => resume_raw iid actor u
  end.

(** ** [dict.update] on a mapping is the merge of [Engine.resume] *)

Definition insert_all (bag : gmap string Value) (ps : list (string * Value)) : gmap string Value :=
  fold_left (fun b kv => <[kv.1 := kv.2]> b) ps bag.

Lemma insert_all_cons bag k v ps : insert_all bag ((k, v) :: ps) = insert_all (<[k := v]> bag) ps.
Proof. reflexivity. Qed.

Lemma insert_all_union ps (m bag : gmap string Value) :
  insert_all m ps ∪ bag = insert_all (m ∪ bag) ps.
Proof.
  revert m. induction ps as [|[k v] ps IH]; intros m; [done|]. rewrite !insert_all_cons.
  rewrite IH. f_equal. by rewrite insert_union_l.
Qed.

Lemma insert_all_empty ps : insert_all ∅ ps = list_to_map (rev ps).
Proof.
  enough (H : forall m : gmap string Value, insert_all m ps = list_to_map (rev ps) ∪ m)
    by (rewrite H; apply map_union_empty).
  induction ps as [|[k v] ps IH]; intros m; [exact (eq_sym (map_empty_union m))|].
  rewrite insert_all_cons, IH. cbn [rev]. rewrite list_to_map_app. cbn [list_to_map foldr fst snd]. rewrite insert_union_singleton_l.
  by rewrite <- map_union_assoc, insert_empty.
Qed.

(** Python's [bag.update(d)] for a dict [d] (inserting its pairs in order,
    a later pair winning) is the left-biased union [updates ∪ bag] that
    [Engine.resume] uses. *)
Lemma dict_update_dict bag ps : dict_update bag (VDict ps) = (list_to_map (rev ps) ∪ bag, None).
Proof.
  cbn [dict_update]. fold (insert_all bag ps). f_equal.
  by rewrite <- insert_all_empty, insert_all_union, map_empty_union.
Qed.

(** A key/value pair as the list [[k, v]] of JSON. *)
Definition pair_value (kv : string * Value) : Value := VList [VStr kv.1; kv.2].

(** The pairs before element [i + length good] are inserted in order. *)
Lemma update_seq_pairs bag i good es :
  update_seq bag i (map pair_value good ++ es) =
  update_seq (insert_all bag good) (i + length good) es.
Proof.
  revert bag i. induction good as [|[k v] good IH]; intros bag i; cbn [map app]; [by rewrite Nat.add_0_r|].
  cbn [update_seq seq_items pair_value fst snd]. rewrite IH, <- insert_all_cons. cbn [length]. by rewrite Nat.add_succ_r.
Qed.

(** ** A failed update is not atomic *)

(** [bag.update] on a list that starts with well-formed pairs and
    then has an element that is not a sequence raises [TypeError] with
    Python's message, after the earlier pairs went into the stored state:
    the store's state has them, no [resume_command] event is logged, the
    record and the index are untouched, and the graph does not run. *)
Theorem resume_json_partial iid a s good bad rest w :
  w_state w !! iid = Some s -> seq_items bad = None ->
  resume_json iid a (VList (map pair_value good ++ bad :: rest)) w =
    (inl (ETypeError ("cannot convert dictionary update sequence element #" ++ show_nat (length good) ++
                      " to a sequence")),
     set_w_state w (<[iid := set_bag s (insert_all (es_bag s) good)]> (w_state w))).
Proof.
  intros Hs Hbad. unfold resume_json, resume_raw. rewrite bind_get_state, Hs. cbn [dict_update].
  rewrite update_seq_pairs. cbn [update_seq]. rewrite Hbad. reflexivity.
Qed.

(** ** [resume_json] keeps the store's invariant *)

Lemma resume_json_cases iid a u :
  (exists ps, u = VDict ps /\ resume_json iid a u = engine_resume iid a (list_to_map (rev ps))) \/
  resume_json iid a u = resume_raw iid a u.
Proof. destruct u; [right..|left; eexists; split]; reflexivity. Qed.

Lemma resume_json_unknown iid a u w :
  w_state w !! iid = None -> resume_json iid a u w = (inl (ENotFound iid), w).
Proof.
  intros Hs. destruct (resume_json_cases iid a u) as [(ps & _ & ->)| ->]; [by apply engine_resume_unknown|].
  unfold resume_raw. by rewrite bind_get_state, Hs.
Qed.

(** The partly updated state stored by a failed [dict.update] keeps
    [core]: only the bag of an existing state changes. *)
Lemma core_set_bag w iid s b :
  core w -> w_state w !! iid = Some s -> core (set_w_state w (<[iid := set_bag s b]> (w_state w))).
Proof.
  intros Hc Hs. split; wsimpl; try apply Hc.
  - intros k. rewrite lookup_insert_is_Some', (core_state_index _ Hc). split; [|naive_solver].
    intros [<-|]; [|done]. apply (core_state_index _ Hc). by rewrite Hs.
  - intros k s' m' Hk Hk'. lookup_cases k iid; [|by apply (core_status _ Hc k)].
    exact (core_status _ Hc _ _ _ Hs Hk').
Qed.

(** A successful [dict.update] on a value that is not a dict, then the
    run: what [resume_raw] writes is what [_run] writes. *)
Lemma resume_raw_spec iid a u w s m0 bag' :
  w_state w !! iid = Some s -> w_meta w !! iid = Some m0 -> im_instance_id m0 = iid ->
  status_ok (em_status (es_meta s)) -> dict_update (es_bag s) u = (bag', None) ->
  exists r s2 m w',
    resume_raw iid a u w = (inr (run_summary iid r (im_status m) s2), w') /\
    w_state w' = <[iid := s2]> (w_state w) /\ w_meta w' = <[iid := m]> (w_meta w) /\
    w_index w' = w_index w /\ em_status (es_meta s2) = Some (im_status m) /\ im_status m ∈ statuses /\
    same_identity m m0 /\ (no_stutter (history_nodes m0) -> no_stutter (history_nodes m)).
Proof.
  intros Hs0 Hm0 Hid0 Hst0 Hdu. unfold resume_raw. rewrite bind_get_state, Hs0, Hdu.
  autorewrite with wf_run. wsimpl.
  use_run_spec m0 Hst0.
  wsimpl. rewrite insert_insert_eq in Hs.
  exists r, s2, m, w'. split_and!; done.
Qed.

Lemma core_resume_json w iid a u res w' :
  core w -> resume_json iid a u w = (res, w') -> core w'.
Proof.
  intros Hc Hrun. destruct (resume_json_cases iid a u) as [(ps & _ & Heq)|Heq]; rewrite Heq in Hrun.
  { exact (core_resume _ _ _ _ _ _ Hc Hrun). }
  destruct (w_state w !! iid) as [s|] eqn:Hs0.
  2:{ unfold resume_raw in Hrun. rewrite bind_get_state, Hs0 in Hrun. by injection Hrun as _ <-. }
  destruct (core_instance w iid s Hc Hs0) as (m0 & Hm0 & Hid0 & Hst0).
  destruct (dict_update (es_bag s) u) as [bag' [e|]] eqn:Hdu.
  - unfold resume_raw in Hrun. rewrite bind_get_state, Hs0, Hdu in Hrun.
    autorewrite with wf_run in Hrun. injection Hrun as _ <-. by apply core_set_bag.
  - destruct (resume_raw_spec iid a u w s m0 bag' Hs0 Hm0 Hid0 Hst0 Hdu)
      as (r & s2 & m & w2 & Hrun2 & Hs & Hm & Hi & Hst & Hsts & Hident & Hns).
    rewrite Hrun in Hrun2. injection Hrun2 as -> ->.
    eapply core_update; eauto. by destruct Hident as [-> _].
Qed.
