(* ===== verification/Scenarios.v ===== *)
(** * Scenarios: concrete call sequences against the process-wide engine

    The scenarios of the specification's section 8 and of the demo at the
    end of src/test.py (lines 484-517), run on the model from an empty
    store, and two behaviours the specification does not expect: a
    terminal instance can be driven to the other terminal outcome, and an
    unmatched guard value leaves an instance [in_progress] with no prompt
    for good. *)

From S2P Require Import Prelude Model Graph ClaimGraph Store Projector Engine ClaimEngine.
Open Scope string_scope.
Open Scope list_scope.

(** A call of the engine's API. *)
Inductive Call :=
| CStart (iid cid started_by : string)
| CResume (iid actor : string) (updates : gmap string Value).

Definition run_call (c : Call) : E Summary :=
  match c with
  | CStart iid cid u => fun w =>
      let '(r, w') := engine_start iid cid u w in
      (match r with inl e => inl e | inr (_, s) => inr s end, w')
  | CResume iid a up => engine_resume iid a up
  end.

(** Runs the calls in order; returns what each returned and the final
    store. *)
Fixpoint run_calls (cs : list Call) (w : World) : list (Err + Summary) * World :=
  match cs with
  | [] => ([], w)
  | c :: cs' =>
      let '(r, w1) := run_call c w in
      let '(rs, w2) := run_calls cs' w1 in
      (r :: rs, w2)
  end.

Definition status_of (w : World) (iid : string) : option string := im_status <$> w_meta w !! iid.

Definition upd (k : string) (v : string) : gmap string Value := {[k := VStr v]}.

Definition abort_calls : list Call :=
  [CStart "id1" "C1" "u1"; CResume "id1" "u2" (upd "validate" "yes");
   CResume "id1" "u3" (upd "claim_details" "x"); CResume "id1" "u4" (upd "process_decision" "cancel")].

(** The specification's first scenario: start pauses at Validate
    Request, each answer moves the pause one step on, and deciding
    [cancel] aborts with the result "Workflow aborted."; the record ends
    [aborted]. *)
Theorem scenario_cancel :
  run_calls abort_calls empty_world =
  ([inr (SumPaused "Validate request? (yes/no)" "id1");
    inr (SumPaused "Provide claim details" "id1");
    inr (SumPaused "Decision? cancel / hold / suppress" "id1");
    inr (SumAborted "Cancel CWD Request" (Some (VStr "Workflow aborted.")) "id1")],
   snd (run_calls abort_calls empty_world)) /\
  status_of (snd (run_calls abort_calls empty_world)) "id1" = Some status_aborted.
Proof. split; vm_compute; reflexivity. Qed.

Definition happy_calls : list Call :=
  [CStart "id1" "C1" "u1"; CResume "id1" "u2" (upd "validate" "yes");
   CResume "id1" "u3" (upd "claim_details" "x"); CResume "id1" "u4" (upd "process_decision" "suppress");
   CResume "id1" "u5" (upd "proceed_fulfill" "yes")].

(** The happy path: validate, claim details, suppress, proceed ends
    [completed] with "Fulfilled and detection complete.", and the step
    history lists the five nodes the runs stopped at. *)
Theorem scenario_happy_path :
  last (fst (run_calls happy_calls empty_world)) =
    Some (inr (SumCompleted "Fulfill Case and Detect"
                 (Some (VStr "Fulfilled and detection complete.")) "id1")) /\
  status_of (snd (run_calls happy_calls empty_world)) "id1" = Some status_completed /\
  (history_nodes <$> w_meta (snd (run_calls happy_calls empty_world)) !! "id1") =
    Some ["Validate Request"; "Gather Claim Info"; "Identify Accounts & Process Decision";
          "Apply Temporary Suppression"; "Fulfill Case and Detect"].
Proof. split_and!; vm_compute; reflexivity. Qed.

(** The demo of src/test.py, lines 488-510. *)
Definition demo_calls : list Call :=
  [CStart "id1" "C1" "user_a"; CResume "id1" "user_b" (upd "validate" "yes");
   CResume "id1" "user_c" (upd "claim_details" "Claim for disputed withdrawal");
   CResume "id1" "user_d" (upd "process_decision" "hold");
   CResume "id1" "user_e" (upd "hold_action" "resume");
   CResume "id1" "user_f" (upd "proceed_fulfill" "yes")].

(** Terminal outcomes are not final: after an instance is aborted, a
    [resume] that changes the earlier decision drives it to [completed].
    The specification promises at most one terminal outcome per instance;
    the engine never checks the status before running the graph again. *)
Theorem aborted_then_completed :
  let w := snd (run_calls abort_calls empty_world) in
  status_of w "id1" = Some status_aborted /\
  run_calls [CResume "id1" "u5" (<["process_decision" := VStr "suppress"]> (upd "proceed_fulfill" "yes"))] w =
    ([inr (SumCompleted "Fulfill Case and Detect"
             (Some (VStr "Fulfilled and detection complete.")) "id1")],
     snd (run_calls [CResume "id1" "u5" (<["process_decision" := VStr "suppress"]> (upd "proceed_fulfill" "yes"))] w)) /\
  status_of (snd (run_calls [CResume "id1" "u5" (<["process_decision" := VStr "suppress"]> (upd "proceed_fulfill" "yes"))] w)) "id1" =
    Some status_completed.
Proof. split_and!; vm_compute; reflexivity. Qed.

(** An unmatched guard value stalls the instance: with
    [validate = "maybe"] the run ends at Validate Request without a
    prompt, the summary is [in_progress], and further empty resumes keep
    returning the same [in_progress] summary. *)
Theorem unmatched_guard_stalls :
  run_calls [CStart "id1" "C1" "u1"; CResume "id1" "u2" (upd "validate" "maybe");
             CResume "id1" "u3" ∅; CResume "id1" "u4" ∅] empty_world =
  ([inr (SumPaused "Validate request? (yes/no)" "id1");
    inr (SumInProgress "Validate Request" "id1");
    inr (SumInProgress "Validate Request" "id1");
    inr (SumInProgress "Validate Request" "id1")],
   snd (run_calls [CStart "id1" "C1" "u1"; CResume "id1" "u2" (upd "validate" "maybe");
                   CResume "id1" "u3" ∅; CResume "id1" "u4" ∅] empty_world)).
Proof. vm_compute. reflexivity. Qed.

(** The demo of src/test.py (lines 488-515): every prompt in turn,
    through Hold Request and back to suppression, ends [completed]; the
    event log alternates pauses and resume commands between [created] and
    [completed]; the history lists the six steps; the last actor is the
    one who completed it. *)
Theorem demo_run :
  fst (run_calls demo_calls empty_world) =
    [inr (SumPaused "Validate request? (yes/no)" "id1");
     inr (SumPaused "Provide claim details" "id1");
     inr (SumPaused "Decision? cancel / hold / suppress" "id1");
     inr (SumPaused "Workflow on hold. Command: resume / abort" "id1");
     inr (SumPaused "Proceed to fulfill? (yes/no)" "id1");
     inr (SumCompleted "Fulfill Case and Detect" (Some (VStr "Fulfilled and detection complete.")) "id1")] /\
  map ev_event (history (snd (run_calls demo_calls empty_world)) "id1") =
    ["created"; "paused"; "resume_command"; "paused"; "resume_command"; "paused";
     "resume_command"; "paused"; "resume_command"; "paused"; "resume_command"; "completed"] /\
  (history_nodes <$> w_meta (snd (run_calls demo_calls empty_world)) !! "id1") =
    Some ["Validate Request"; "Gather Claim Info"; "Identify Accounts & Process Decision";
          "Hold Request"; "Apply Temporary Suppression"; "Fulfill Case and Detect"] /\
  (im_last_actor <$> w_meta (snd (run_calls demo_calls empty_world)) !! "id1") = Some (Some "user_f").
Proof. split_and!; vm_compute; reflexivity. Qed.
