(* ===== verification/Paths.v ===== *)
(** * Paths: every decision path ends completed or aborted

    The first testable property of the specification (section 8): for
    every sequence of [resume] calls that supplies exactly the required
    keys in graph order, the final status is [completed] when the
    decisions end in Fulfill Case and Detect and [aborted] when they end
    in Cancel CWD Request.  A decision path is the relation [answers]:
    from a node, the answer to its prompt (its required key and a value
    the transition table accepts, with the code's truthiness at Gather
    Claim Info) and the path on from the node the table gives, down to a
    terminal node.  The calls are [start] and then one [resume] per
    answer, each with the one-key dict [{key: value}], as in the
    specification's scenarios; they run on the engine of ClaimEngine from
    any reachable store.

    The file also proves the fourth testable property: [N] starts with
    distinct identifiers index exactly those [N] instances, and a resume
    of one instance leaves the others untouched. *)

From S2P Require Import Prelude Model Graph ClaimGraph Store Projector Engine ClaimEngine Scenarios.
Open Scope string_scope.
Open Scope list_scope.

(** A decision path from [n] to the terminal node [t]. *)
Inductive answers : ClaimNode -> list (string * Value) -> ClaimNode -> Prop :=
| ans_end n : Spec.required_key n = None -> answers n [] n
| ans_step n k v n' rest t :
    Spec.required_key n = Some k -> Spec.table truthy n v = Some n' -> answers n' rest t ->
    answers n ((k, v) :: rest) t.

(** One [resume] per answer, each with the dict [{key: value}]. *)
Definition answer_calls (iid a : string) (L : list (string * Value)) : list Call :=
  map (fun kv => CResume iid a {[kv.1 := kv.2]}) L.

(** The keys the steps reachable from [n] (itself included) ask for. *)
Definition later_keys (n : ClaimNode) : list string :=
  match n with
  | ValidateRequest => ["validate"; "claim_details"; "process_decision"; "hold_action"; "proceed_fulfill"]
  | GatherClaimInfo => ["claim_details"; "process_decision"; "hold_action"; "proceed_fulfill"]
  | IdentifyAccounts => ["process_decision"; "hold_action"; "proceed_fulfill"]
  | HoldRequest => ["hold_action"; "proceed_fulfill"]
  | ApplyTemporarySuppression => ["proceed_fulfill"]
  | CancelCWDRequest | FulfillCaseAndDetect => []
  end.

(** ** The traversal along a path *)

(** A step of the table moves to a node whose keys are among the earlier
    node's, without the key just answered. *)
Lemma later_keys_step n k v n' :
  Spec.required_key n = Some k -> Spec.table truthy n v = Some n' ->
  In k (later_keys n) /\ ~ In k (later_keys n') /\ incl (later_keys n') (later_keys n).
Proof.
  intros Hk Ht. destruct n; cbn in Hk, Ht; simplify_eq; repeat case_match; simplify_eq;
    (split_and!; [cbn; tauto|cbn; intuition discriminate|intros x; cbn; tauto]).
Qed.

Lemma required_key_later n k : Spec.required_key n = Some k -> In k (later_keys n).
Proof. intros Hk. destruct n; cbn in Hk; simplify_eq; cbn; tauto. Qed.

Lemma traverse_pause_key b m n :
  Spec.traverse truthy b m (Spec.OPause n) -> exists k, Spec.required_key n = Some k /\ b !! k = None.
Proof.
  intros H. remember (Spec.OPause n) as o eqn:Eo. induction H; simplify_eq; eauto.
Qed.

(** Answering the prompt a traversal paused at: the traversal from the
    entry now passes the paused node and goes on as from there. *)
Lemma traverse_answer b m n k v o :
  Spec.traverse truthy b m (Spec.OPause n) -> b !! k = None ->
  Spec.traverse truthy (<[k := v]> b) n o -> Spec.traverse truthy (<[k := v]> b) m o.
Proof.
  intros H. remember (Spec.OPause n) as o0 eqn:Eo. induction H as [m k0 Hk0 Hb|m k0 v0 m' o1 Hk0 Hb Ht _ IH| |];
    intros Hkb Hn; simplify_eq; [done|].
  - eapply Spec.tr_step; [exact Hk0| |exact Ht|by apply IH].
    rewrite lookup_insert_ne; [done|]. intros <-. congruence.
Qed.

(** What the resume of one answer returns for a terminal node. *)
Definition terminal_summary (t : ClaimNode) (iid : string) : Summary :=
  match Spec.terminal t with
  | Some (st, res) =>
      if String.eqb st status_completed then SumCompleted (node_name t) (Some (VStr res)) iid
      else SumAborted (node_name t) (Some (VStr res)) iid
  | None => SumInProgress (node_name t) iid
  end.

Definition terminal_status (t : ClaimNode) : string := default status_in_progress (fst <$> Spec.terminal t).

Lemma last_cons_some {A} (x : A) l y : last l = Some y -> last (x :: l) = Some y.
Proof. destruct l; [discriminate|done]. Qed.

Lemma removelast_cons_ne {A} (x : A) l : l <> [] -> removelast (x :: l) = x :: removelast l.
Proof. destruct l; [done|reflexivity]. Qed.

Lemma answers_terminal n L t : answers n L t -> Spec.required_key t = None.
Proof. induction 1; done. Qed.

(** The traversal with the answer to the prompt it paused at. *)
Lemma traverse_answer_step b n k v n' o :
  Spec.traverse truthy b ValidateRequest (Spec.OPause n) -> Spec.required_key n = Some k ->
  Spec.table truthy n v = Some n' -> Spec.traverse truthy (<[k := v]> b) n' o ->
  Spec.traverse truthy (<[k := v]> b) ValidateRequest o.
Proof.
  intros Htr Hk Ht Hn'. destruct (traverse_pause_key _ _ _ Htr) as (k0 & Hk0 & Hkb).
  rewrite Hk in Hk0. injection Hk0 as <-.
  apply (traverse_answer _ _ _ _ _ _ Htr Hkb). eapply Spec.tr_step; [exact Hk|apply lookup_insert_eq|exact Ht|exact Hn'].
Qed.

(** The resume of the answer to the prompt at [n] runs the graph on the
    bag with that answer. *)
Lemma resume_answer w iid a s n k v n' o :
  core w -> w_state w !! iid = Some s ->
  Spec.traverse truthy (es_bag s) ValidateRequest (Spec.OPause n) -> Spec.required_key n = Some k ->
  Spec.table truthy n v = Some n' -> Spec.traverse truthy (<[k := v]> (es_bag s)) n' o ->
  exists r s2 m w1,
    engine_resume iid a {[k := v]} w = (inr (run_summary iid r (im_status m) s2), w1) /\
    outcome_ok (<[k := v]> (es_bag s)) (em_status (es_meta s)) o r s2 /\
    w_state w1 !! iid = Some s2 /\ w_meta w1 !! iid = Some m /\
    em_status (es_meta s2) = Some (im_status m) /\ core w1.
Proof.
  intros Hc Hs Htr Hk Ht Hn.
  assert (Hb : {[k := v]} ∪ es_bag s = <[k := v]> (es_bag s)) by (symmetry; apply insert_union_singleton_l).
  assert (Htr' : Spec.traverse truthy ({[k := v]} ∪ es_bag s) ValidateRequest o)
    by (rewrite Hb; exact (traverse_answer_step _ _ _ _ _ _ Htr Hk Ht Hn)).
  destruct (engine_resume_outcome w iid a _ s o Hc Hs Htr') as (r & s2 & m & w1 & Hrun & Hok & Hs1 & Hm1 & Hst & Hc1).
  rewrite Hb in Hok. exists r, s2, m, w1. rewrite Hs1, Hm1, !lookup_insert_eq. done.
Qed.

Definition all_paused (iid : string) (rs : list (Err + Summary)) : Prop :=
  Forall (fun r => exists p, r = inr (SumPaused p iid)) rs.

(** Along a path from a node the instance is paused at, every resume but
    the last pauses at the next node, and the last ends the run at the
    path's terminal node with its status. *)
Lemma answers_run n L t :
  answers n L t ->
  forall w iid a s, core w -> w_state w !! iid = Some s ->
  Spec.traverse truthy (es_bag s) ValidateRequest (Spec.OPause n) ->
  em_status (es_meta s) = Some status_in_progress ->
  (forall k, In k (later_keys n) -> es_bag s !! k = None) ->
  exists rs w', run_calls (answer_calls iid a L) w = (rs, w') /\
    all_paused iid (removelast rs) /\
    last rs = Some (inr (terminal_summary t iid)) /\ status_of w' iid = Some (terminal_status t).
Proof.
  induction 1 as [n Hn|n k v n' rest t Hk Ht Hans IH]; intros w iid a s Hc Hs Htr Hst Hlater.
  { destruct (traverse_pause_key _ _ _ Htr) as (k & Hk & _). congruence. }
  destruct (later_keys_step _ _ _ _ Hk Ht) as (Hkin & Hknot & Hincl).
  cbn [answer_calls map fst snd run_calls run_call].
  destruct (Spec.required_key n') as [k'|] eqn:Hk'.
  - assert (Hk'b : <[k := v]> (es_bag s) !! k' = None).
    { rewrite lookup_insert_ne; [apply Hlater, Hincl, (required_key_later _ _ Hk')|].
      intros ->. exact (Hknot (required_key_later _ _ Hk')). }
    destruct (resume_answer w iid a s n k v n' (Spec.OPause n') Hc Hs Htr Hk Ht (Spec.tr_pause _ _ _ _ Hk' Hk'b))
      as (r & s2 & m & w1 & Hrun & Hok & Hs1 & _ & _ & Hc1).
    destruct Hok as (-> & _ & Hb2 & Hst2). rewrite Hst in Hst2. cbn in Hst2.
    assert (Htr2 : Spec.traverse truthy (es_bag s2) ValidateRequest (Spec.OPause n')).
    { rewrite Hb2. exact (traverse_answer_step _ _ _ _ _ _ Htr Hk Ht (Spec.tr_pause _ _ _ _ Hk' Hk'b)). }
    edestruct (IH w1 iid a s2 Hc1 Hs1 Htr2 Hst2) as (rs & w' & Hcalls & Hp & Hlast & Hstat).
    { intros k'' Hk''. rewrite Hb2, lookup_insert_ne; [by apply Hlater, Hincl|]. intros ->. contradiction. }
    rewrite Hrun. change (map _ rest) with (answer_calls iid a rest). rewrite Hcalls.
    assert (Hne : rs <> []) by (intros ->; discriminate).
    exists (inr (SumPaused (prompt_of n') iid) :: rs), w'. split_and!; [done| |by apply last_cons_some|done].
    rewrite removelast_cons_ne by done. constructor; [by eexists|exact Hp].
  - destruct (resume_answer w iid a s n k v n' (Spec.OTerminal n') Hc Hs Htr Hk Ht (Spec.tr_terminal _ _ _ Hk'))
      as (r & s2 & m & w1 & Hrun & Hok & _ & Hm1 & Hst2 & _).
    destruct Hok as (-> & Hln & st & res & Hterm & Hb2 & Hst2'). rewrite Hst2' in Hst2. injection Hst2 as Hstm.
    inversion Hans as [? Hn'|? ? ? ? ? ? Hkey]; subst; [|congruence].
    rewrite Hrun. exists [inr (run_summary iid IDone (im_status m) s2)], w1. cbn [removelast last].
    split_and!; [done|constructor| |].
    + unfold terminal_summary. rewrite Hterm. cbn [run_summary]. unfold done_summary.
      rewrite Hln, Hb2, lookup_insert_eq. cbn [default].
      destruct t; cbn in Hterm; try discriminate; injection Hterm as Hs1 Hr1; rewrite <- Hs1, <- Hr1; reflexivity.
    + unfold status_of, terminal_status. rewrite Hm1, Hterm. reflexivity.
Qed.

(** C10. The specification's first testable property, for every decision
    path.  From any reachable store, [start] with a fresh identifier and
    then one [resume] per answer of a path (each supplying exactly the
    key the current step asks for, in graph order) pause at every step
    but the last, and the last call ends the instance: [completed] with
    "Fulfilled and detection complete." when the path ends in Fulfill
    Case and Detect, [aborted] with "Workflow aborted." when it ends in
    Cancel CWD Request. *)
Theorem answer_paths_end L t w iid cid u a :
  answers ValidateRequest L t -> reachable w -> iid ∉ w_index w ->
  exists rs w', run_calls (CStart iid cid u :: answer_calls iid a L) w = (rs, w') /\
    all_paused iid (removelast rs) /\
    ((t = FulfillCaseAndDetect /\
      last rs = Some (inr (SumCompleted "Fulfill Case and Detect" (Some (VStr "Fulfilled and detection complete.")) iid)) /\
      status_of w' iid = Some status_completed) \/
     (t = CancelCWDRequest /\
      last rs = Some (inr (SumAborted "Cancel CWD Request" (Some (VStr "Workflow aborted.")) iid)) /\
      status_of w' iid = Some status_aborted)).
Proof.
  intros Hans Hr Hf. pose proof (inv_core _ (reachable_inv w Hr)) as Hc.
  destruct (engine_start_outcome iid cid u w Hc Hf) as (s & w1 & Hrun & Hs & Hb & Hst & Hc1).
  assert (Htr : Spec.traverse truthy (es_bag s) ValidateRequest (Spec.OPause ValidateRequest))
    by (rewrite Hb; eapply Spec.tr_pause; [reflexivity|apply lookup_empty]).
  destruct (answers_run _ _ _ Hans w1 iid a s Hc1 Hs Htr Hst) as (rs & w' & Hcalls & Hp & Hlast & Hstat).
  { intros k _. rewrite Hb. apply lookup_empty. }
  cbn [run_calls run_call]. rewrite Hrun, Hcalls.
  assert (Hne : rs <> []) by (intros ->; discriminate).
  exists (inr (SumPaused (prompt_of ValidateRequest) iid) :: rs), w'. split; [done|]. split.
  { rewrite removelast_cons_ne by done. constructor; [by eexists|exact Hp]. }
  apply (last_cons_some (inr (SumPaused (prompt_of ValidateRequest) iid))) in Hlast.
  pose proof (answers_terminal _ _ _ Hans) as Ht.
  destruct t; cbn in Ht; try discriminate; [right|left]; split_and!; done.
Qed.

(** The decision path of the demo of src/test.py: validate, claim
    details, hold, resume, proceed. *)
Definition demo_path : list (string * Value) :=
  [("validate", VStr "yes"); ("claim_details", VStr "Claim for disputed withdrawal");
   ("process_decision", VStr "hold"); ("hold_action", VStr "resume"); ("proceed_fulfill", VStr "yes")].

Lemma answer_paths_end_witness :
  answers ValidateRequest demo_path FulfillCaseAndDetect /\ reachable empty_world /\
  ("id1" ∉ w_index empty_world) /\
  exists rs w', run_calls (CStart "id1" "C1" "user_a" :: answer_calls "id1" "user_b" demo_path) empty_world = (rs, w') /\
    all_paused "id1" (removelast rs) /\
    ((FulfillCaseAndDetect = FulfillCaseAndDetect /\
      last rs = Some (inr (SumCompleted "Fulfill Case and Detect" (Some (VStr "Fulfilled and detection complete.")) "id1")) /\
      status_of w' "id1" = Some status_completed) \/
     (FulfillCaseAndDetect = CancelCWDRequest /\
      last rs = Some (inr (SumAborted "Cancel CWD Request" (Some (VStr "Workflow aborted.")) "id1")) /\
      status_of w' "id1" = Some status_aborted)).
Proof.
  assert (Ha : answers ValidateRequest demo_path FulfillCaseAndDetect).
  { repeat (eapply ans_step; [reflexivity|reflexivity|]). by apply ans_end. }
  assert (Hr : reachable empty_world) by apply rtc_refl.
  assert (Hf : "id1" ∉ w_index empty_world) by (cbn; apply not_elem_of_nil).
  split; [exact Ha|]. split; [exact Hr|]. split; [exact Hf|].
  exact (answer_paths_end demo_path FulfillCaseAndDetect empty_world "id1" "C1" "user_a" "user_b" Ha Hr Hf).
Defined.

(** ** Independent instances *)

(** The start forms of [ids], one after the other, with the same
    customer and user. *)
Definition start_calls (ids : list string) (cid u : string) : list Call := map (fun i => CStart i cid u) ids.

Lemma starts_run ids cid u w :
  reachable w -> NoDup ids -> (forall i, i ∈ ids -> i ∉ w_index w) ->
  exists rs w', run_calls (map (fun i => CStart i cid u) ids) w = (rs, w') /\
    w_index w' = w_index w ++ ids /\
    rs = map (fun i => inr (SumPaused (prompt_of ValidateRequest) i)) ids /\ reachable w'.
Proof.
  revert w. induction ids as [|i ids IH]; intros w Hr Hnd Hf.
  { exists [], w. by rewrite app_nil_r. }
  apply NoDup_cons in Hnd as [Hi Hnd].
  assert (Hfi : i ∉ w_index w) by (apply Hf; set_solver).
  pose proof (inv_core _ (reachable_inv w Hr)) as Hc.
  destruct (engine_start_outcome i cid u w Hc Hfi) as (s & w1 & Hrun & _).
  assert (Hm0 : w_meta w !! i = None).
  { destruct (w_meta w !! i) eqn:E; [|done]. exfalso. apply Hfi, (core_meta_index _ Hc). by rewrite E. }
  destruct (engine_start_spec i cid u w Hm0 Hfi) as (r & s2 & m & w2 & Hrun2 & _ & _ & Hidx & _).
  rewrite Hrun in Hrun2. injection Hrun2 as _ <-.
  assert (Hr1 : reachable w1) by (eapply rtc_r; [exact Hr|exact (step_start _ _ _ _ _ _ Hfi Hrun)]).
  destruct (IH w1 Hr1 Hnd) as (rs & w' & Hcalls & Hidx' & Hrs & Hr').
  { intros j Hj. rewrite Hidx, elem_of_app, list_elem_of_singleton. intros [Hjw| ->]; [|done].
    exact (Hf j ltac:(set_solver) Hjw). }
  exists (inr (SumPaused (prompt_of ValidateRequest) i) :: rs), w'. cbn [map run_calls run_call].
  rewrite Hrun, Hcalls, Hidx', Hidx, <- app_assoc, Hrs. done.
Qed.

Lemma resume_isolated w iid a up res w' k :
  core w -> engine_resume iid a up w = (res, w') -> k <> iid ->
  w_state w' !! k = w_state w !! k /\ w_meta w' !! k = w_meta w !! k /\ history w' k = history w k /\
  w_index w' = w_index w.
Proof.
  intros Hc Hrun Hk. destruct (w_state w !! iid) as [s|] eqn:Hs0.
  2:{ rewrite engine_resume_unknown in Hrun by done. by injection Hrun as _ <-. }
  destruct (core_instance w iid s Hc Hs0) as (m0 & Hm0 & Hid0 & Hst0).
  destruct (engine_resume_spec iid a up w s m0 Hs0 Hm0 Hid0 Hst0)
    as (r & s2 & c2 & m & w2 & Hrun2 & _ & Hs & Hm & Hi & He & _).
  rewrite Hrun in Hrun2. injection Hrun2 as _ <-.
  rewrite Hs, Hm, !lookup_insert_ne by done. split_and!; [done|done| |done]. by apply He.
Qed.

(** C28. The specification's fourth testable property: starting [N]
    instances with distinct fresh identifiers from a reachable store
    appends exactly those [N] identifiers to the index, in order, each
    start pausing at Validate Request; and the instances are
    independent: a [resume] of one, whatever its outcome, leaves every
    other instance's state, record and event log and the index as they
    were. *)
Theorem independent_instances ids cid u w :
  reachable w -> NoDup ids -> (forall i, i ∈ ids -> i ∉ w_index w) ->
  (exists rs w', run_calls (start_calls ids cid u) w = (rs, w') /\
     w_index w' = w_index w ++ ids /\
     rs = map (fun i => inr (SumPaused (prompt_of ValidateRequest) i)) ids) /\
  (forall iid a up res w' k, engine_resume iid a up w = (res, w') -> k <> iid ->
     w_state w' !! k = w_state w !! k /\ w_meta w' !! k = w_meta w !! k /\ history w' k = history w k /\
     w_index w' = w_index w).
Proof.
  intros Hr Hnd Hf. split.
  - unfold start_calls. destruct (starts_run ids cid u w Hr Hnd Hf) as (rs & w' & H1 & H2 & H3 & _). eauto.
  - intros iid a up res w' k. apply resume_isolated, (inv_core _ (reachable_inv w Hr)).
Qed.

Lemma independent_instances_witness :
  reachable empty_world /\ NoDup ["id1"; "id2"] /\ (forall i, i ∈ ["id1"; "id2"] -> i ∉ w_index empty_world) /\
  exists rs w', run_calls (start_calls ["id1"; "id2"] "C1" "u1") empty_world = (rs, w') /\
    w_index w' = w_index empty_world ++ ["id1"; "id2"] /\
    rs = map (fun i => inr (SumPaused (prompt_of ValidateRequest) i)) ["id1"; "id2"].
Proof.
  assert (Hr : reachable empty_world) by apply rtc_refl.
  assert (Hnd : NoDup ["id1"; "id2"]) by (repeat constructor; set_solver).
  assert (Hf : forall i, i ∈ ["id1"; "id2"] -> i ∉ w_index empty_world) by (intros i _; apply not_elem_of_nil).
  split; [exact Hr|]. split; [exact Hnd|]. split; [exact Hf|].
  exact (proj1 (independent_instances ["id1"; "id2"] "C1" "u1" empty_world Hr Hnd Hf)).
Defined.
