(* ===== verification/Queries.v ===== *)
(** * Queries: [list_instances]

    src/test.py, lines 456-479.  The identifiers of the index are looked
    up in the metadata namespace; records are kept when they match every
    given filter (a filter that is [None] or the empty string is ignored,
    Python's [if workflow_name and ...]); the result is sorted by the
    timestamp of the last history entry, newest first, records without
    history last ([""] sorts below every ISO timestamp).  Python's
    [list.sort(reverse=True)] is stable: records with equal keys keep the
    index order.  The model sorts by stable insertion.

    Theorems: the result is sorted, it is a permutation of the matching
    records in index order, and which records it contains. *)

From S2P Require Import Prelude Model Store Projector.
From Stdlib Require Import Sorting.Sorted.
Open Scope string_scope.
Open Scope list_scope.

(** [if f and field != f: continue] keeps the record when this holds. *)
Definition filter_ok (f : option string) (field : string) : bool :=
  match f with
  | Some x => String.eqb x "" || String.eqb field x
  | None => true
  end.

Record Filters := mkFilters {
  f_customer_id : option string;
  f_status : option string;
  f_started_by : option string;
  f_workflow_name : option string;
}.

Definition no_filters : Filters := mkFilters None None None None.

(** The four tests of lines 469-476. *)
Definition matches (fs : Filters) (m : InstanceMeta) : bool :=
  filter_ok (f_workflow_name fs) (im_workflow_name m) &&
  filter_ok (f_customer_id fs) (im_customer_id m) &&
  filter_ok (f_status fs) (im_status m) &&
  filter_ok (f_started_by fs) (im_started_by m).

(** The sort key of line 478: the last entry's timestamp, or [""]. *)
Definition sort_key (m : InstanceMeta) : option Time := se_ts <$> last (im_steps_history m).

(** [k1 < k2] for keys, [""] below every timestamp. *)
Definition key_lt (k1 k2 : option Time) : bool :=
  match k1, k2 with
  | None, Some _ => true
  | Some a, Some b => Nat.ltb a b
  | _, None => false
  end.

(** Insert into a list sorted newest first, after every record whose key
    is not smaller (which keeps the sort stable). *)
Fixpoint insert_desc (x : InstanceMeta) (l : list InstanceMeta) : list InstanceMeta :=
  match l with
  | [] => [x]
  | y :: l' => if key_lt (sort_key y) (sort_key x) then x :: y :: l' else y :: insert_desc x l'
  end.

Definition sort_desc (l : list InstanceMeta) : list InstanceMeta :=
  fold_left (fun acc x => insert_desc x acc) l [].

(** The loop of lines 465-477. *)
Fixpoint collect (fs : Filters) (w : World) (ids : list string) : list InstanceMeta :=
  match ids with
  | [] => []
  | iid :: ids' =>
      match w_meta w !! iid with
      | None => collect fs w ids'
      | Some m => if matches fs m then m :: collect fs w ids' else collect fs w ids'
      end
  end.

Definition list_instances (fs : Filters) (w : World) : list InstanceMeta :=
  sort_desc (collect fs w (w_index w)).

(** ** Laws of the sort *)

(** [a] is listed before [b] only if [a]'s key is not below [b]'s. *)
Definition newer_first (a b : InstanceMeta) : Prop := key_lt (sort_key a) (sort_key b) = false.

Lemma key_lt_asym k1 k2 : key_lt k1 k2 = true -> key_lt k2 k1 = false.
Proof.
  destruct k1 as [a|], k2 as [b|]; simpl; try done.
  intros H. apply Nat.ltb_lt in H. apply Nat.ltb_ge. lia.
Qed.

Lemma insert_desc_perm x l : insert_desc x l ≡ₚ x :: l.
Proof.
  induction l as [|y l IH]; simpl; [done|]. case_match; [done|].
  rewrite IH. by constructor.
Qed.

Lemma sort_desc_perm l : sort_desc l ≡ₚ l.
Proof.
  unfold sort_desc. rewrite <- (app_nil_r l) at 2. generalize (@nil InstanceMeta).
  induction l as [|x l IH]; intros acc; simpl; [done|].
  rewrite IH, insert_desc_perm. by rewrite Permutation_middle.
Qed.

Lemma insert_desc_hd y x l :
  HdRel newer_first y l -> newer_first y x -> HdRel newer_first y (insert_desc x l).
Proof.
  destruct l as [|z l]; simpl; intros Hh Hyx; [by constructor|].
  case_match; constructor; [done|]. by inversion Hh.
Qed.

Lemma insert_desc_sorted x l : Sorted newer_first l -> Sorted newer_first (insert_desc x l).
Proof.
  induction l as [|y l IH]; simpl; intros Hs; [by repeat constructor|].
  destruct (key_lt (sort_key y) (sort_key x)) eqn:E.
  - constructor; [done|]. constructor. by apply key_lt_asym.
  - inversion Hs as [|? ? Hl Hh]; subst. constructor; [by apply IH|].
    by apply insert_desc_hd.
Qed.

Lemma sort_desc_sorted l : Sorted newer_first (sort_desc l).
Proof.
  unfold sort_desc. assert (H : Sorted newer_first (@nil InstanceMeta)) by constructor.
  revert H. generalize (@nil InstanceMeta).
  induction l as [|x l IH]; intros acc Hacc; simpl; [done|]. apply IH. by apply insert_desc_sorted.
Qed.

(** ** Stability: records with the same key keep their order *)

Lemma newer_first_trans a b c : newer_first a b -> newer_first b c -> newer_first a c.
Proof.
  unfold newer_first. destruct (sort_key a) as [x|], (sort_key b) as [y|], (sort_key c) as [z|]; cbn [key_lt];
    intros H1 H2; rewrite ?Nat.ltb_ge in *; rewrite ?Nat.ltb_ge; try discriminate; try done; lia.
Qed.

Lemma key_lt_neq a x z : key_lt (sort_key a) (sort_key x) = true -> newer_first a z -> sort_key z <> sort_key x.
Proof.
  unfold newer_first. destruct (sort_key a) as [p|], (sort_key x) as [q|], (sort_key z) as [r|]; cbn [key_lt];
    intros H1 H2 H3; rewrite ?Nat.ltb_lt, ?Nat.ltb_ge in *; try discriminate; try (injection H3 as ->); lia.
Qed.

Lemma filter_key_none t l :
  (forall z, z ∈ l -> sort_key z <> t) -> filter (fun m => sort_key m = t) l = [].
Proof.
  induction l as [|z l IH]; intros Hl; [done|]. rewrite filter_cons, decide_False by (apply Hl; set_solver).
  apply IH. set_solver.
Qed.

Lemma insert_desc_stable t x l :
  StronglySorted newer_first l ->
  filter (fun m => sort_key m = t) (insert_desc x l) = filter (fun m => sort_key m = t) l ++ filter (fun m => sort_key m = t) [x].
Proof.
  induction l as [|y l IH]; intros Hs; [done|]. cbn [insert_desc].
  apply StronglySorted_inv in Hs as [Hs Hy].
  destruct (key_lt (sort_key y) (sort_key x)) eqn:E.
  - destruct (decide (sort_key x = t)) as [<-|Hx].
    + assert (Hnone : forall z, z ∈ y :: l -> sort_key z <> sort_key x).
      { intros z Hz. apply elem_of_cons in Hz as [->|Hz].
        - intros Heq. rewrite Heq in E. destruct (sort_key x) as [q|]; cbn [key_lt] in E; [|done].
          apply Nat.ltb_lt in E. lia.
        - apply (key_lt_neq y x); [done|]. exact (proj1 (Forall_forall _ _) Hy z Hz). }
      rewrite filter_cons, decide_True, (filter_key_none _ (y :: l) Hnone) by done.
      by rewrite filter_cons, decide_True by done.
    + rewrite filter_cons, decide_False by done. by rewrite (filter_cons _ x []), decide_False, app_nil_r by done.
  - rewrite !filter_cons. rewrite IH by done. by case_decide.
Qed.

Lemma fold_insert_stable t l acc :
  Sorted newer_first acc ->
  filter (fun m => sort_key m = t) (fold_left (fun acc x => insert_desc x acc) l acc) =
  filter (fun m => sort_key m = t) acc ++ filter (fun m => sort_key m = t) l.
Proof.
  revert acc. induction l as [|x l IH]; intros acc Hacc; cbn [fold_left].
  - by rewrite app_nil_r.
  - rewrite IH by (by apply insert_desc_sorted).
    rewrite insert_desc_stable by (apply Sorted_StronglySorted; [exact newer_first_trans|done]).
    rewrite <- app_assoc. f_equal. by rewrite <- filter_app.
Qed.

Lemma sort_desc_stable t l :
  filter (fun m => sort_key m = t) (sort_desc l) = filter (fun m => sort_key m = t) l.
Proof. unfold sort_desc. rewrite fold_insert_stable by constructor. done. Qed.

Lemma collect_elem fs w ids m :
  m ∈ collect fs w ids <-> exists k, k ∈ ids /\ w_meta w !! k = Some m /\ matches fs m = true.
Proof.
  induction ids as [|k ids IH]; cbn [collect].
  - split; [set_solver|]. intros (k & Hk & _). set_solver.
  - setoid_rewrite elem_of_cons.
    destruct (w_meta w !! k) as [m'|] eqn:Ek; [destruct (matches fs m') eqn:Em|];
      rewrite ?elem_of_cons, IH; split.
    + intros [->|(k0 & ? & ? & ?)]; [exists k; auto|exists k0; auto].
    + intros (k0 & [->|?] & Hm & Ht); [left; congruence|right; eauto].
    + intros (k0 & ? & ? & ?). exists k0. auto.
    + intros (k0 & [->|?] & Hm & Ht); [congruence|eauto].
    + intros (k0 & ? & ? & ?). exists k0. auto.
    + intros (k0 & [->|?] & Hm & Ht); [congruence|eauto].
Qed.

(** C23. [list_instances] returns the records of indexed instances that
    match every filter, each once per index entry, newest last-step first:
    the result is sorted by the key of line 478 and is a permutation of
    the matching records taken in index order; as Python's sort is stable
    also with [reverse=True], records with the same key keep their index
    order. *)
Theorem list_instances_spec fs w :
  Sorted newer_first (list_instances fs w) /\
  list_instances fs w ≡ₚ collect fs w (w_index w) /\
  (forall m, m ∈ list_instances fs w <->
     exists k, k ∈ w_index w /\ w_meta w !! k = Some m /\ matches fs m = true) /\
  (forall t, filter (fun m => sort_key m = t) (list_instances fs w) =
             filter (fun m => sort_key m = t) (collect fs w (w_index w))).
Proof.
  unfold list_instances. split_and!; [apply sort_desc_sorted|apply sort_desc_perm| |intros t; apply sort_desc_stable].
  intros m. by rewrite (sort_desc_perm _), collect_elem.
Qed.
