(* ===== verification/Api.v ===== *)
(** * Api: the REST layer of src/api.py

    Two FastAPI handlers over the process-wide engine of
    src/workflow_backend.py.  [provide_human_input] (lines 12-23) looks the
    record up, answers 404 when there is none, answers 400 unless the
    record's [last_node] is in the allow-list [allowed_steps] (line 18),
    and otherwise calls [engine.resume] and wraps its summary.
    [pending_human_steps] (lines 25-29) lists the records whose status is
    ["paused"] and whose [last_node] is in the allow-list.

    An [HTTPException] is a value of [ApiError]; an exception of the engine
    that FastAPI would turn into a 500 is kept as [EngineError].  The JSON
    serialisation ([to_dict], FastAPI's encoder) is not modelled: handlers
    return the model's records and summaries.

    Theorems: the behaviour of [provide_human_input] on each branch; in
    every reachable world it answers 404 exactly for identifiers that are
    not indexed and never raises an engine error; [pending_human_steps]
    is always empty, because no record is ever ["paused"]; and the
    allow-list does not keep API callers away from the later steps: one
    call at Validate Request that supplies every answer drives the
    instance through every step to completion. *)

From S2P Require Import Prelude Model Graph ClaimGraph Store Projector Engine ClaimEngine Queries.
Open Scope string_scope.
Open Scope list_scope.

(** [HTTPException(status_code, detail)], or an exception of the engine. *)
Inductive ApiError :=
| HTTPException (status_code : Z) (detail : string)
| EngineError (e : Err).

(** [allowed_steps] (lines 18 and 27). *)
Definition allowed_steps : list string := ["Gather Claim Info"; "Validate Request"].

(** [meta.last_node in allowed_steps]; [None] is not in the set. *)
Definition step_allowed (o : option string) : bool :=
  match o with
  | Some n => bool_decide (n ∈ allowed_steps)
  | None => false
  end.

(** [f"{meta.last_node}"]: Python prints [None] as ["None"]. *)
Definition show_node (o : option string) : string := default "None" o.

(** [provide_human_input] (lines 12-23).  A dataclass instance is always
    truthy, so [if not meta] holds exactly when [get_meta] returned
    [None]. *)
Definition provide_human_input (iid actor : string) (updates : gmap string Value)
    (w : World) : (ApiError + (string * Summary)) * World :=
  match get_meta w iid with
  | None => (inl (HTTPException 404 "Workflow not found"), w)
  | Some meta =>
      if step_allowed (im_last_node meta) then
        let '(r, w') := engine_resume iid actor updates w in
        (match r with
         | inl e => inl (EngineError e)
         | inr result => inr (iid, result)
         end, w')
      else
        (inl (HTTPException 400 ("Current step '" ++ show_node (im_last_node meta) ++
                                 "' is not allowed via API")), w)
  end.

(** [engine.list_instances(status="paused")] (line 28). *)
Definition paused_filter : Filters := mkFilters None (Some status_paused) None None.

(** [pending_human_steps] (lines 25-29). *)
Definition pending_human_steps (w : World) : list InstanceMeta :=
  filter (fun m => step_allowed (im_last_node m) = true) (list_instances paused_filter w).

(** ** [pending_human_steps] *)

(** A record kept by the ["paused"] filter has status ["paused"]. *)
Lemma matches_paused m : matches paused_filter m = true -> im_status m = status_paused.
Proof.
  unfold matches, paused_filter. cbn [f_workflow_name f_customer_id f_status f_started_by filter_ok].
  rewrite !andb_true_r. intros H. apply orb_prop in H as [H|H]; [done|].
  by apply String.eqb_eq.
Qed.

(** No record of a world that keeps [core] is ["paused"], so the query
    is empty. *)
Lemma list_paused_empty w : core w -> list_instances paused_filter w = [].
Proof.
  intros Hc. apply elem_of_nil_inv. intros m Hm.
  unfold list_instances in Hm. rewrite (sort_desc_perm _), collect_elem in Hm.
  destruct Hm as (k & _ & Hk & Hmt).
  exact (status_not_paused _ (core_meta_status _ _ _ Hc Hk) (matches_paused _ Hmt)).
Qed.

(** C8. [GET /workflow/pending-human] always answers the empty list: in
    every reachable world [list_instances(status="paused")] is empty (the
    engine never leaves a record ["paused"], see [reachable_status_not_paused]),
    so no instance waiting for a human is ever reported, although instances
    paused at Validate Request or Gather Claim Info exist. *)
Theorem pending_human_steps_empty w :
  reachable w -> list_instances paused_filter w = [] /\ pending_human_steps w = [].
Proof.
  intros Hr. pose proof (list_paused_empty w (inv_core _ (reachable_inv w Hr))) as H.
  split; [done|]. unfold pending_human_steps. by rewrite H.
Qed.

Lemma pending_human_steps_empty_witness :
  reachable w_started /\ last_node_of <$> w_state w_started !! "id1" = Some (Some "Validate Request") /\
  list_instances paused_filter w_started = [] /\ pending_human_steps w_started = [].
Proof.
  split; [exact reachable_started|]. split; [vm_compute; reflexivity|].
  exact (pending_human_steps_empty _ reachable_started).
Defined.

(** ** [provide_human_input] *)

(** C13. [POST /workflow/{id}/human-step] in a reachable world: an
    identifier that is not indexed gets 404 and changes nothing; an
    instance whose current step is not in the allow-list gets 400 with the
    code's message and changes nothing; an instance at an allowed step is
    resumed, the call returns the summary of [engine.resume], and it never
    raises an engine error. *)
Theorem provide_human_input_reachable w iid a up :
  reachable w ->
  (iid ∉ w_index w ->
     provide_human_input iid a up w = (inl (HTTPException 404 "Workflow not found"), w)) /\
  (forall m, w_meta w !! iid = Some m -> step_allowed (im_last_node m) = false ->
     provide_human_input iid a up w =
       (inl (HTTPException 400 ("Current step '" ++ show_node (im_last_node m) ++
                                "' is not allowed via API")), w)) /\
  (forall m, w_meta w !! iid = Some m -> step_allowed (im_last_node m) = true ->
     exists sum w', engine_resume iid a up w = (inr sum, w') /\
                    provide_human_input iid a up w = (inr (iid, sum), w')).
Proof.
  intros Hr. pose proof (reachable_inv w Hr) as Hinv. unfold provide_human_input, get_meta.
  split_and!.
  - intros Hnin. destruct (w_meta w !! iid) eqn:E; [|done].
    exfalso. apply Hnin, (inv_meta_index _ Hinv). by rewrite E.
  - intros m -> ->. done.
  - intros m Hm Hok. rewrite Hm, Hok.
    assert (Hin : iid ∈ w_index w) by (apply (inv_meta_index _ Hinv); by rewrite Hm).
    destruct (inv_resume_ok w iid a up Hinv Hin) as (sum & w' & Hrun).
    exists sum, w'. by rewrite Hrun.
Qed.

Lemma provide_human_input_reachable_witness :
  reachable w_started /\
  w_meta w_started !! "id1" <> None /\
  exists sum w', engine_resume "id1" "u2" happy_bag w_started = (inr sum, w') /\
                 provide_human_input "id1" "u2" happy_bag w_started = (inr ("id1", sum), w').
Proof.
  split; [exact reachable_started|]. split; [vm_compute; discriminate|].
  destruct (w_meta w_started !! "id1") as [m|] eqn:E.
  - apply (proj2 (proj2 (provide_human_input_reachable w_started "id1" "u2" happy_bag reachable_started)) m E).
    vm_compute in E. injection E as <-. vm_compute. reflexivity.
  - exfalso. vm_compute in E. discriminate E.
Defined.

(** The world after [start], then the answer [yes] at Validate Request and
    the claim details: the instance is paused at the decision step. *)
Definition w_decision : World :=
  snd (engine_resume "id1" "u3" (<["claim_details" := VStr "x"]> ∅)
         (snd (engine_resume "id1" "u2" (<["validate" := VStr "yes"]> ∅) w_started))).

(** The allow-list does not keep API callers out of the later steps.
    An instance paused at the decision step "Identify Accounts & Process
    Decision" is refused with 400.  But one API call at Validate Request
    whose updates already answer every later prompt (validate, claim
    details, decision, proceed) runs the graph through the decision,
    suppression and fulfilment steps to [completed].  The audit history
    then lists only the two nodes the runs stopped at. *)
Theorem api_allow_list_bypass :
  fst (provide_human_input "id1" "u4" (<["process_decision" := VStr "suppress"]> ∅) w_decision) =
    inl (HTTPException 400 "Current step 'Identify Accounts & Process Decision' is not allowed via API") /\
  (im_last_node <$> w_meta w_started !! "id1") = Some (Some "Validate Request") /\
  fst (provide_human_input "id1" "u2" happy_bag w_started) =
    inr ("id1", SumCompleted "Fulfill Case and Detect"
                  (Some (VStr "Fulfilled and detection complete.")) "id1") /\
  (history_nodes <$> w_meta (snd (provide_human_input "id1" "u2" happy_bag w_started)) !! "id1") =
    Some ["Validate Request"; "Fulfill Case and Detect"].
Proof. split_and!; vm_compute; reflexivity. Qed.
