(* ===== verification/ApiBody.v ===== *)
(** * ApiBody: the request and the response of the human-step route

    [POST /workflow/{instance_id}/human-step] (src/api.py, lines 6-23)
    as the client sees it.  FastAPI reads the request body as bytes: an
    empty body is a missing body, any other body is parsed by
    [json.loads] on the bytes (Bytes); a [JSONDecodeError] is answered
    422 [json_invalid], any other error of the parse (an integer of more
    than 4300 digits, bytes that are not text in the detected encoding)
    400 "There was an error parsing the body".  The value is validated
    against [StepInput] (lines 6-8) before the handler runs, so a
    malformed body is answered 422 whatever the instance.  The handler is
    [provide_human_input] of Api, with [step_input.updates] as the
    updates.  The answer is rendered by Starlette's [JSONResponse]
    ([json.dumps] with [ensure_ascii=False], [allow_nan=False] and the
    separators [","] and [":"], then [.encode("utf-8")]); an
    [HTTPException] becomes [{"detail": detail}] with its status code,
    and an uncaught exception, or a value [json.dumps] or the strict
    encoder refuses, becomes the 500 plain-text answer.  The request is
    taken to carry no [Content-Type] or a JSON one, as every JSON client
    sends.  [GET /workflow/pending-human] (lines 25-29) answers the
    records of [pending_human_steps] rendered by [to_dict] ([asdict]),
    the text of the clock's instants being a parameter.

    Validation follows pydantic 2 in its default (lax) mode, the version
    FastAPI installs today: [actor: str] accepts a JSON string only,
    [updates: dict] a JSON object only, keys other than the two fields
    are ignored, and the errors of both fields are reported together.  A
    422 answer is modelled by its list of error types and locations; the
    rendered messages, and the character position FastAPI adds to the
    location of a JSON decode error, are not modelled. *)

From S2P Require Import Prelude Model Json Float Bytes Graph ClaimGraph Store Projector Engine ClaimEngine Queries Api.
From Stdlib Require Import Ascii.
Open Scope list_scope.
Open Scope string_scope.

(** [class StepInput(BaseModel)] (lines 6-8). *)
Record StepInput := mkStepInput {
  actor : string;
  updates : list (string * Value);
}.

(** One entry of pydantic's [ValidationError.errors()]: its [type] and
    its [loc]. *)
Record ValidationError := mkValidationError {
  err_type : string;
  err_loc : list string;
}.

(** [d.get(k)] on the pairs of a dict [json.loads] returned (its keys are
    distinct). *)
Fixpoint dict_get (k : string) (ps : list (string * Value)) : option Value :=
  match ps with
  | [] => None
  | (k', v) :: ps' => if String.eqb k k' then Some v else dict_get k ps'
  end.

(** The errors of one field: [missing], or the field's type error. *)
Definition field_errors (field : string) (ok : Value -> bool) (type_error : string) (o : option Value)
    : list ValidationError :=
  match o with
  | None => [mkValidationError "missing" ["body"; field]]
  | Some v => if ok v then [] else [mkValidationError type_error ["body"; field]]
  end.

Definition is_json_str (v : Value) : bool := match v with VStr _ => true | _ => false end.
Definition is_json_dict (v : Value) : bool := match v with VDict _ => true | _ => false end.

(** [StepInput.model_validate(body)]. *)
Definition validate_StepInput (v : Value) : list ValidationError + StepInput :=
  match v with
  | VDict ps =>
      match dict_get "actor" ps, dict_get "updates" ps with
      | Some (VStr a), Some (VDict u) => inr (mkStepInput a u)
      | oa, ou => inl (app (field_errors "actor" is_json_str "string_type" oa) (field_errors "updates" is_json_dict "dict_type" ou))
      end
  | _ => inl [mkValidationError "model_type" ["body"]]
  end.

(** An HTTP answer: a status code and the body, or the 422 of a request
    that did not validate. *)
Inductive HttpReply :=
| Reply (status_code : Z) (body : string)
| Reply422 (errors : list ValidationError).

(** The summary dicts of [_run] (src/test.py, lines 327-331, 351-356,
    366-371 and 375-379), as JSON values. *)
Definition summary_value (s : Summary) : Value :=
  match s with
  | SumPaused p i => VDict [("status", VStr "paused"); ("prompt", VStr p); ("instance_id", VStr i)]
  | SumCompleted n r i =>
      VDict [("status", VStr "completed"); ("node", VStr n); ("result", default VNone r); ("instance_id", VStr i)]
  | SumAborted n r i =>
      VDict [("status", VStr "aborted"); ("node", VStr n); ("result", default VNone r); ("instance_id", VStr i)]
  | SumInProgress n i => VDict [("status", VStr "in_progress"); ("node", VStr n); ("instance_id", VStr i)]
  end.

(** [allow_nan=False]: every float of the value is a finite double
    (otherwise [json.dumps] raises [ValueError]); a decimal that
    overflows is [inf]. *)
Fixpoint finite_value (v : Value) : bool :=
  match v with
  | VFloat f => float_finite f
  | VList l => forallb finite_value l
  | VDict ps => forallb (fun kv => finite_value kv.2) ps
  | _ => true
  end.

Definition internal_error : HttpReply := Reply 500 "Internal Server Error".

(** [JSONResponse(content, status_code)]: [json.dumps] raises on a float
    that is not finite and on an integer of more than 4300 digits, and
    [.encode("utf-8")] on a lone surrogate. *)
Definition json_response (code : Z) (v : Value) : HttpReply :=
  if finite_value v && small_ints v && utf8_valid false (json_dumps v) then Reply code (json_dumps v)
  else internal_error.

(** [{"instance_id": instance_id, "result": result}] (line 23). *)
Definition response_value (iid : string) (s : Summary) : Value :=
  VDict [("instance_id", VStr iid); ("result", summary_value s)].

(** The answer FastAPI sends for what the handler returned or raised. *)
Definition render (r : ApiError + (string * Summary)) : HttpReply :=
  match r with
  | inl (HTTPException code detail) => json_response code (VDict [("detail", VStr detail)])
  | inl (EngineError _) => internal_error
  | inr (iid, s) => json_response 200 (response_value iid s)
  end.

(** FastAPI's answer when reading the body raised an exception other
    than [JSONDecodeError]. *)
Definition body_error : ApiError := HTTPException 400 "There was an error parsing the body".

(** The route of lines 12-13: read and validate the body, then run the
    handler. *)
Definition post_human_step (iid body : string) (w : World) : HttpReply * World :=
  if String.eqb body "" then (Reply422 [mkValidationError "missing" ["body"]], w)
  else
    match json_loads_bytes body with
    | inl JSONDecodeError => (Reply422 [mkValidationError "json_invalid" ["body"]], w)
    | inl _ => (render (inl body_error), w)
    | inr v =>
        match validate_StepInput v with
        | inl errs => (Reply422 errs, w)
        | inr si =>
            let '(r, w') := provide_human_input iid (actor si) (list_to_map (rev (updates si))) w in
            (render r, w')
        end
    end.

(** ** [GET /workflow/pending-human] *)

Section ToDict.
(** The text [now_iso()] returned for an instant of the model's clock
    ([datetime.isoformat()]); what follows holds for any rendering. *)
Variable iso : Time -> string.

(** An [Optional] field: [None] is [null]. *)
Definition opt_value {A} (f : A -> Value) (o : option A) : Value :=
  match o with Some x => f x | None => VNone end.

(** An entry of [steps_history] (src/test.py, lines 239-244). *)
Definition entry_value (e : StepEntry) : Value :=
  VDict [("ts", VStr (iso (se_ts e))); ("node", VStr (se_node e)); ("actor", VStr (se_actor e));
         ("status", VStr (se_status e))].

(** [InstanceMeta.to_dict()], that is [asdict(self)] (lines 34-35): the
    fields in the order of their declaration (lines 23-32). *)
Definition to_dict (m : InstanceMeta) : Value :=
  VDict [("instance_id", VStr (im_instance_id m)); ("customer_id", VStr (im_customer_id m));
         ("workflow_name", VStr (im_workflow_name m)); ("started_by", VStr (im_started_by m));
         ("last_actor", opt_value VStr (im_last_actor m)); ("status", VStr (im_status m));
         ("last_node", opt_value VStr (im_last_node m));
         ("start_time", opt_value (fun t => VStr (iso t)) (im_start_time m));
         ("end_time", opt_value (fun t => VStr (iso t)) (im_end_time m));
         ("steps_history", VList (map entry_value (im_steps_history m)))].

(** The route of src/api.py, lines 25-29: the list of dicts rendered by
    [JSONResponse]. *)
Definition get_pending_human (w : World) : HttpReply :=
  json_response 200 (VList (map to_dict (pending_human_steps w))).
End ToDict.

(** The body a client sends for [StepInput(actor=a, updates=u)]. *)
Definition step_input_value (a : string) (u : list (string * Value)) : Value :=
  VDict [("actor", VStr a); ("updates", VDict u)].

(** ** A well-formed request is the handler's call *)

Lemma step_input_wf a u : wf_value (VDict u) = true -> wf_value (step_input_value a u) = true.
Proof.
  intros Hu. change (bool_decide (NoDup ["actor"; "updates"]) && (true && (wf_value (VDict u) && true)) = true).
  rewrite Hu. reflexivity.
Qed.

Lemma validate_step_input a u : validate_StepInput (step_input_value a u) = inr (mkStepInput a u).
Proof. reflexivity. Qed.

Lemma step_input_small a u : small_ints (VDict u) = true -> small_ints (step_input_value a u) = true.
Proof. intros Hu. change (true && (small_ints (VDict u) && true) = true). by rewrite Hu. Qed.

Lemma step_input_text a u :
  utf8_valid true a = true -> text_value true (VDict u) = true -> text_value true (step_input_value a u) = true.
Proof.
  intros Ha Hu. change ((utf8_valid true "actor" && utf8_valid true a) &&
                        ((utf8_valid true "updates" && text_value true (VDict u)) && true) = true).
  by rewrite Ha, Hu.
Qed.

(** C14. A client that sends the UTF-8 JSON text of
    [StepInput(actor, updates)] gets exactly what the handler answers for
    those arguments, rendered, and the store the handler leaves: the
    body is never refused, and its object reaches [engine.resume] as the
    updates (a later duplicate key winning), when its integers have at
    most 4300 digits. *)
Theorem post_human_step_encoded iid a u w :
  wf_value (VDict u) = true -> small_ints (VDict u) = true ->
  utf8_valid true a = true -> text_value true (VDict u) = true ->
  post_human_step iid (json_text (step_input_value a u)) w =
    let '(r, w') := provide_human_input iid a (list_to_map (rev u)) w in (render r, w').
Proof.
  intros Hw Hs Ha Ht. unfold post_human_step.
  destruct (String.eqb_spec (json_text (step_input_value a u)) "") as [E|_].
  { exfalso. destruct (text_head (step_input_value a u) "") as (c & t & Ht' & _).
    rewrite str_app_nil_r, E in Ht'. discriminate. }
  rewrite bytes_str_agree by (apply detect_text_dict || apply text_utf8, step_input_text; done).
  rewrite (loads_text _ (step_input_wf a u Hw) (step_input_small a u Hs)), validate_step_input.
  reflexivity.
Qed.

Lemma post_human_step_encoded_witness :
  wf_value (VDict [("validate", VStr "yes")]) = true /\ small_ints (VDict [("validate", VStr "yes")]) = true /\
  utf8_valid true "u2" = true /\ text_value true (VDict [("validate", VStr "yes")]) = true /\
  post_human_step "id1" (json_text (step_input_value "u2" [("validate", VStr "yes")])) w_started =
    let '(r, w') := provide_human_input "id1" "u2" (list_to_map (rev [("validate", VStr "yes")])) w_started in
    (render r, w').
Proof.
  assert (H1 : wf_value (VDict [("validate", VStr "yes")]) = true) by (vm_compute; reflexivity).
  assert (H2 : small_ints (VDict [("validate", VStr "yes")]) = true) by (vm_compute; reflexivity).
  assert (H3 : utf8_valid true "u2" = true) by (vm_compute; reflexivity).
  assert (H4 : text_value true (VDict [("validate", VStr "yes")]) = true) by (vm_compute; reflexivity).
  split_and!; [exact H1|exact H2|exact H3|exact H4|exact (post_human_step_encoded "id1" "u2" _ w_started H1 H2 H3 H4)].
Defined.
