(* ===== verification/Ui.v ===== *)
(** * Ui: the Mermaid diagram of src/ui.py

    [workflow_mermaid] (src/ui.py, lines 27-64) draws the claim workflow as
    a fixed Mermaid [graph TD] and styles the nodes an instance has
    visited and the node it stands at.  The dashboard calls it with the
    record's [to_dict()], after defaulting an empty [last_node] to
    ["Validate Request"] (lines 100-119).

    The diagram's arrows are data here, so the file can prove that the
    picture is the graph of [build_claim_workflow]: every move of the
    conditional edges is drawn, every labelled arrow is the move the edge
    makes when the guard key holds the label, and the arrows to [END] are
    exactly the terminal steps.  The rest of src/ui.py (the Streamlit
    forms, the thread running the API server) is I/O and is not modelled. *)

From S2P Require Import Prelude Model Graph ClaimGraph.
Open Scope list_scope.
Open Scope string_scope.

(** [node_ids] (lines 28-37). *)
Definition node_ids : list (string * string) :=
  [("Validate Request", "A"); ("Gather Claim Info", "B");
   ("Identify Accounts & Process Decision", "D"); ("Cancel CWD Request", "C");
   ("Hold Request", "E"); ("Apply Temporary Suppression", "F");
   ("Fulfill Case and Detect", "G"); ("END", "H")].

(** [node_ids.get(k)]. *)
Fixpoint assoc (k : string) (l : list (string * string)) : option string :=
  match l with
  | [] => None
  | (k', v) :: l' => if String.eqb k k' then Some v else assoc k l'
  end.

(** The arrows of the template (lines 51-62): source, label, target. *)
Definition diagram : list (string * option string * string) :=
  [("A", Some "yes", "B"); ("A", Some "no", "C"); ("B", None, "D");
   ("D", Some "cancel", "C"); ("D", Some "hold", "E"); ("D", Some "suppress", "F");
   ("E", Some "resume", "F"); ("E", Some "abort", "C");
   ("F", Some "yes", "G"); ("F", Some "no", "C");
   ("G", None, "H"); ("C", None, "H")].

Definition nl : string := String (Ascii.ascii_of_nat 10) EmptyString.

(** The text of one arrow as the template writes it. *)
Definition arrow_text (a : string * option string * string) : string :=
  let '(x, l, y) := a in
  x ++ " -->" ++ match l with Some t => "|" ++ t ++ "| " | None => " " end ++ y.

(** Lines 42 and 47. *)
Definition visited_style (id : string) : string :=
  "style " ++ id ++ " fill:#e3f2fd,stroke:#1565c0,stroke-width:2px;".
Definition current_style (id : string) : string :=
  "style " ++ id ++ " fill:#ffecb3,stroke:#ff6f00,stroke-width:4px;".

(** Lines 39-42: one style per history entry whose node has an id. *)
Definition visited_styles (hist : list StepEntry) : list string :=
  omap (fun e => visited_style <$> assoc (se_node e) node_ids) hist.

(** Lines 43-45: [meta.get("last_node") or (first history node, or
    "Validate Request")]. *)
Definition current_node (m : InstanceMeta) : string :=
  match im_last_node m with
  | Some n => if String.eqb n "" then
                match im_steps_history m with e :: _ => se_node e | [] => "Validate Request" end
              else n
  | None => match im_steps_history m with e :: _ => se_node e | [] => "Validate Request" end
  end.

(** Lines 38-48: the style lines. *)
Definition styles_of (m : InstanceMeta) : list string :=
  app (visited_styles (im_steps_history m))
    (match assoc (current_node m) node_ids with
     | Some id => [current_style id]
     | None => []
     end).

(** [workflow_mermaid] (lines 27-64); the node labels of the first
    occurrences ([A[Validate Request]] ...) are folded into [arrow_text]'s
    ids, the arrows are those of [diagram]. *)
Definition workflow_mermaid (m : InstanceMeta) : string :=
  nl ++ "graph TD" ++ nl ++
  String.concat "" (map (fun a => "    " ++ arrow_text a ++ nl) diagram) ++
  "    " ++ join (nl ++ "    ") (styles_of m) ++ nl.

(** Lines 104-105: the dashboard's default for a falsy [last_node]. *)
Definition ui_meta (m : InstanceMeta) : InstanceMeta :=
  if truthy_str (im_last_node m) then m
  else mkInstanceMeta (im_instance_id m) (im_customer_id m) (im_workflow_name m)
         (im_started_by m) (im_last_actor m) (im_status m) (Some "Validate Request")
         (im_start_time m) (im_end_time m) (im_steps_history m).

(** The id a step of the graph is drawn with. *)
Definition node_id (n : ClaimNode) : option string := assoc (node_name n) node_ids.

(** The bag key each labelled step's guard reads. *)
Definition guard_key (n : ClaimNode) : option string :=
  match n with
  | ValidateRequest => Some "validate"
  | IdentifyAccounts => Some "process_decision"
  | HoldRequest => Some "hold_action"
  | ApplyTemporarySuppression => Some "proceed_fulfill"
  | _ => None
  end.

(** ** The diagram is the graph of [build_claim_workflow] *)

(** Choose the disjunct of a membership in a concrete list. *)
Ltac pick_elem := apply list_elem_of_In; cbn; repeat (first [left; reflexivity | right]).

(** A state whose bag holds the given entries. *)
Definition bag_state (b : gmap string Value) : ExecState :=
  mkExecState "i" "c" "ClaimWorkflow" b (mkExecMeta None None None None).

Lemma node_id_some n : exists id, node_id n = Some id /\ id <> "H".
Proof. destruct n; eexists; (split; [reflexivity|discriminate]). Qed.

Lemma claim_edge_drawn n m s :
  claim_edge n s = Goto m ->
  exists l ido idm, node_id n = Some ido /\ node_id m = Some idm /\ (ido, l, idm) ∈ diagram.
Proof.
  destruct n; cbn [claim_edge];
    unfold validate_edge, gather_edge, identify_edge, hold_edge, suppress_edge;
    repeat case_match; intros Hg; inversion Hg; subst;
    eexists _, _, _; (split; [reflexivity|]); (split; [reflexivity|]); pick_elem.
Qed.

Lemma labelled_arrow_taken n m l ido idm :
  node_id n = Some ido -> node_id m = Some idm -> (ido, Some l, idm) ∈ diagram ->
  exists k, guard_key n = Some k /\ forall s, es_bag s !! k = Some (VStr l) -> claim_edge n s = Goto m.
Proof.
  intros Hn Hm H. apply list_elem_of_In in H.
  destruct n, m; cbv in Hn, Hm; simplify_eq; cbn in H;
    repeat destruct H as [H|H]; try contradiction; simplify_eq;
    eexists; (split; [reflexivity|]); intros s Hs; cbn [claim_edge];
    unfold validate_edge, identify_edge, hold_edge, suppress_edge, bag_get_eq; rewrite Hs;
    reflexivity.
Qed.

Lemma unlabelled_arrow_taken n m ido idm :
  node_id n = Some ido -> node_id m = Some idm -> (ido, None, idm) ∈ diagram ->
  claim_edge n (bag_state {["claim_details" := VStr "x"]}) = Goto m.
Proof.
  intros Hn Hm H. apply list_elem_of_In in H.
  destruct n, m; cbv in Hn, Hm; simplify_eq; cbn in H;
    repeat destruct H as [H|H]; try contradiction; simplify_eq; vm_compute; reflexivity.
Qed.

(** A state that moves [n] on, for each step with an outgoing guard. *)
Ltac refute_end H :=
  first [ specialize (H (bag_state {["validate" := VStr "yes"]})); vm_compute in H; discriminate
        | specialize (H (bag_state {["claim_details" := VStr "x"]})); vm_compute in H; discriminate
        | specialize (H (bag_state {["process_decision" := VStr "cancel"]})); vm_compute in H; discriminate
        | specialize (H (bag_state {["hold_action" := VStr "abort"]})); vm_compute in H; discriminate
        | specialize (H (bag_state {["proceed_fulfill" := VStr "no"]})); vm_compute in H; discriminate ].

Lemma end_arrow_terminal n ido :
  node_id n = Some ido -> ((exists l, (ido, l, "H") ∈ diagram) <-> forall s, claim_edge n s = GoEnd).
Proof.
  intros Hn. destruct n; cbv in Hn; simplify_eq; split;
    solve [ intros _ s; reflexivity
          | intros _; eexists; pick_elem
          | intros [l H]; apply list_elem_of_In in H; cbn in H;
            repeat destruct H as [H|H]; try contradiction; simplify_eq
          | intros H; refute_end H ].
Qed.

(** C27. The Mermaid diagram the dashboard draws is the claim graph:
    every step of [build_claim_workflow] has a node id other than [END]'s;
    every move the conditional edges can make is an arrow of the diagram;
    every labelled arrow is the move its step makes when the guard key
    holds the label; the one unlabelled arrow between steps is taken when
    the claim details are truthy; and a step has an arrow to [END] exactly
    when its edge never moves on (the terminal steps). *)
Theorem diagram_is_claim_graph :
  (forall n, exists id, node_id n = Some id /\ id <> "H") /\
  (forall n m s, claim_edge n s = Goto m ->
     exists l ido idm, node_id n = Some ido /\ node_id m = Some idm /\ (ido, l, idm) ∈ diagram) /\
  (forall n m l ido idm, node_id n = Some ido -> node_id m = Some idm ->
     (ido, Some l, idm) ∈ diagram ->
     exists k, guard_key n = Some k /\
       forall s, es_bag s !! k = Some (VStr l) -> claim_edge n s = Goto m) /\
  (forall n m ido idm, node_id n = Some ido -> node_id m = Some idm ->
     (ido, None, idm) ∈ diagram -> claim_edge n (bag_state {["claim_details" := VStr "x"]}) = Goto m) /\
  (forall n ido, node_id n = Some ido ->
     ((exists l, (ido, l, "H") ∈ diagram) <-> forall s, claim_edge n s = GoEnd)).
Proof.
  split_and!; [exact node_id_some|exact claim_edge_drawn|exact labelled_arrow_taken
              |exact unlabelled_arrow_taken|exact end_arrow_terminal].
Qed.

(** ** The styles *)

Lemma node_name_nonempty n : String.eqb (node_name n) "" = false.
Proof. by destruct n. Qed.

(** For a record standing at a step of the graph, the dashboard draws
    one "visited" style per history entry whose node has an id, in history
    order, then exactly one "current" style, on the id of that step. *)
Theorem styles_of_current m n :
  im_last_node m = Some (node_name n) ->
  exists id, node_id n = Some id /\
    styles_of (ui_meta m) = app (visited_styles (im_steps_history m)) [current_style id].
Proof.
  intros Hn. destruct (node_id_some n) as (id & Hid & _). exists id. split; [done|].
  unfold ui_meta. rewrite Hn, node_name_truthy.
  unfold styles_of, current_node. rewrite Hn, node_name_nonempty. unfold node_id in Hid. by rewrite Hid.
Qed.

Definition sample_meta : InstanceMeta :=
  mkInstanceMeta "id1" "C1" "ClaimWorkflow" "u1" (Some "u2") status_in_progress
    (Some "Gather Claim Info") (Some 0) None
    [mkStepEntry 2 "Validate Request" "u1" status_in_progress;
     mkStepEntry 5 "Gather Claim Info" "u2" status_in_progress].

Lemma styles_of_current_witness :
  im_last_node sample_meta = Some (node_name GatherClaimInfo) /\
  styles_of (ui_meta sample_meta) =
    [visited_style "A"; visited_style "B"; current_style "B"].
Proof.
  assert (H : im_last_node sample_meta = Some (node_name GatherClaimInfo)) by reflexivity.
  split; [exact H|].
  destruct (styles_of_current sample_meta GatherClaimInfo H) as (id & Hid & ->).
  vm_compute in Hid. injection Hid as <-. vm_compute. reflexivity.
Defined.
