(* ===== verification/UiForms.v ===== *)
(** * UiForms: the forms and the listing of the dashboard

    src/ui.py, lines 68-121, over the process-wide engine.  The start form
    refuses empty fields (lines 75-76) and otherwise calls
    [engine.start]; the resume form parses the typed updates with
    [json.loads(updates_str or "{}")] and calls [engine.resume] with the
    result, showing "Invalid JSON in updates field." on a
    [JSONDecodeError] (lines 90-96); every other exception, such as the
    [ValueError] of an integer literal of more than 4300 digits, escapes
    the handler and Streamlit shows it.  The listing shows one panel per
    record of [engine.list_instances()] with the record's fields, its
    numbered steps and its diagram, or "No workflows yet." (lines 99-121).

    A form's output is a value of [UiOutput]; the widgets and the
    rendering of [st.json] are not modelled.  [start]'s [uuid4()] is the
    argument [iid]. *)

From S2P Require Import Prelude Model Json Graph ClaimGraph Store Projector Engine ClaimEngine Updates Queries Ui.
From Stdlib Require Import Ascii.
Open Scope list_scope.
Open Scope string_scope.

(** What a form shows: [st.success] with the summary of [st.json(out)],
    [st.error], or the exception Streamlit prints. *)
Inductive UiOutput :=
| UiSuccess (msg : string) (out : Summary)
| UiError (msg : string)
| UiException (e : Err).

(** Lines 70-80. *)
Definition ui_start (iid customer_id started_by : string) (w : World) : UiOutput * World :=
  if negb (truthy_str (Some customer_id)) || negb (truthy_str (Some started_by)) then
    (UiError "Please provide both Customer ID and Started by.", w)
  else
    match engine_start iid customer_id started_by w with
    | (inr (inst_id, out), w') => (UiSuccess ("Workflow " ++ inst_id ++ " started") out, w')
    | (inl e, w') => (UiException e, w')
    end.

(** Lines 84-96: [updates_str or "{}"], then [json.loads], then
    [engine.resume]. *)
Definition ui_resume (resume_id actor updates_str : string) (w : World) : UiOutput * World :=
  let text := if truthy_str (Some updates_str) then updates_str else "{}" in
  match json_loads text with
  | inl JSONDecodeError => (UiError "Invalid JSON in updates field.", w)
  | inl e => (UiException (json_exception e), w)
  | inr u =>
      match resume_json resume_id actor u w with
      | (inr out, w') => (UiSuccess ("Workflow " ++ resume_id ++ " resumed by " ++ actor) out, w')
      | (inl e, w') => (UiException e, w')
      end
  end.

(** ** The listing *)

(** The em dash of the panel title (U+2014, three bytes of UTF-8). *)
Definition em_dash : string :=
  String (ascii_of_nat 226) (String (ascii_of_nat 128) (String (ascii_of_nat 148) EmptyString)).

(** One [st.expander] of lines 106-119. *)
Record Panel := mkPanel {
  p_title : string;
  p_customer_id : string;
  p_workflow_name : string;
  p_last_node : string;
  p_status : string;
  p_steps : list (nat * StepEntry);
  p_diagram : string;
}.

(** [enumerate(steps, start=i)] *)
Fixpoint numbered {A} (i : nat) (l : list A) : list (nat * A) :=
  match l with
  | [] => []
  | x :: l' => (i, x) :: numbered (S i) l'
  end.

(** Lines 103-119 for one record: the dict of [to_dict()] with its
    [last_node] defaulted. *)
Definition panel_of (m : InstanceMeta) : Panel :=
  let meta := ui_meta m in
  mkPanel ("Workflow " ++ im_instance_id meta ++ " " ++ em_dash ++ " " ++ im_status meta)
    (im_customer_id meta) (im_workflow_name meta) (default "" (im_last_node meta)) (im_status meta)
    (numbered 1 (im_steps_history meta)) (workflow_mermaid meta).

Inductive Listing :=
| NoWorkflows
| Panels (ps : list Panel).

(** Lines 99-121. *)
Definition ui_listing (w : World) : Listing :=
  match list_instances no_filters w with
  | [] => NoWorkflows
  | ms => Panels (map panel_of ms)
  end.

(** ** The start form *)

Lemma ui_meta_last_node m : exists n, im_last_node (ui_meta m) = Some n /\ n <> "".
Proof.
  unfold ui_meta. destruct (truthy_str (im_last_node m)) eqn:E.
  - destruct (im_last_node m) as [n|]; [|discriminate]. exists n. split; [done|].
    intros ->. discriminate.
  - by eexists.
Qed.

(** C29. The start form in a reachable world: with an empty Customer ID
    or an empty "Started by" it shows the error and changes nothing;
    with both filled in (and a fresh [uuid4()]) it shows "Workflow <id>
    started" with the run's summary, never an exception, and the store it
    leaves is again reachable. *)
Theorem ui_start_reachable w iid cid u :
  reachable w -> iid ∉ w_index w ->
  ((cid = "" \/ u = "") -> ui_start iid cid u w = (UiError "Please provide both Customer ID and Started by.", w)) /\
  (cid <> "" -> u <> "" ->
     exists out w', ui_start iid cid u w = (UiSuccess ("Workflow " ++ iid ++ " started") out, w') /\
                    reachable w').
Proof.
  intros Hr Hfresh. pose proof (reachable_inv w Hr) as Hinv. split.
  - intros [->| ->]; unfold ui_start; cbn; [done|]. by rewrite orb_true_r.
  - intros Hc Hu. unfold ui_start.
    assert (Ht : forall x, x <> "" -> truthy_str (Some x) = true).
    { intros x Hx. cbn. destruct (String.eqb_spec x ""); [done|done]. }
    rewrite !Ht by done. cbn [negb orb].
    assert (Hm0 : w_meta w !! iid = None).
    { destruct (w_meta w !! iid) eqn:E; [|done]. exfalso. apply Hfresh, (inv_meta_index _ Hinv). by rewrite E. }
    destruct (engine_start_spec iid cid u w Hm0 Hfresh) as (r & s2 & m & w' & Hrun & _).
    rewrite Hrun. eexists _, w'. split; [reflexivity|].
    eapply rtc_r; [exact Hr|]. eapply step_start; [exact Hfresh|exact Hrun].
Qed.

Lemma ui_start_reachable_witness :
  reachable empty_world /\ ("id1" ∉ w_index empty_world) /\
  exists out w', ui_start "id1" "C1" "u1" empty_world = (UiSuccess ("Workflow " ++ "id1" ++ " started") out, w') /\
                 reachable w'.
Proof.
  assert (Hr : reachable empty_world) by apply rtc_refl.
  assert (Hf : "id1" ∉ w_index empty_world) by (cbn; set_solver).
  split; [exact Hr|]. split; [exact Hf|].
  apply (proj2 (ui_start_reachable empty_world "id1" "C1" "u1" Hr Hf)); discriminate.
Defined.

(** ** The listing *)

Lemma collect_length fs w ids :
  (forall k, k ∈ ids -> exists m, w_meta w !! k = Some m /\ matches fs m = true) ->
  length (collect fs w ids) = length ids.
Proof.
  induction ids as [|k ids IH]; intros Hall; [done|]. cbn [collect].
  destruct (Hall k ltac:(set_solver)) as (m & -> & ->). cbn. f_equal. apply IH. set_solver.
Qed.

(** ** Sessions of the dashboard *)

(** A submitted form: the start form with its [uuid4()], or the resume
    form with its three text fields. *)
Inductive UiAction :=
| UStart (iid customer_id started_by : string)
| UResume (resume_id actor updates_str : string).

Definition ui_submit (a : UiAction) (w : World) : UiOutput * World :=
  match a with
  | UStart iid cid u => ui_start iid cid u w
  | UResume rid actor t => ui_resume rid actor t w
  end.

(** The forms submitted in order (each Streamlit rerun handles one): what
    each showed and the final store. *)
Fixpoint ui_session (acts : list UiAction) (w : World) : list UiOutput * World :=
  match acts with
  | [] => ([], w)
  | a :: acts' =>
      let '(o, w1) := ui_submit a w in
      let '(os, w2) := ui_session acts' w1 in
      (o :: os, w2)
  end.

(** The text [["validate", "yes"], 5] typed into the updates field. *)
Definition pairs_then_int : string :=
  "[[" ++ quote "validate" ++ "," ++ quote "yes" ++ "],5]".

(** The text {"validate": "yes"}, the field's default. *)
Definition validate_yes : string := "{" ++ quote "validate" ++ ":" ++ quote "yes" ++ "}".

(** The text {"claim_details": <x>}. *)
Definition claim_details_text (x : string) : string := "{" ++ quote "claim_details" ++ ":" ++ x ++ "}".

Definition bag_of (w : World) (iid : string) : option (gmap string Value) := es_bag <$> w_state w !! iid.

(** ** What the resume form does *)

Lemma truthy_nonempty x : x <> "" -> truthy_str (Some x) = true.
Proof. intros Hx. cbn. by destruct (String.eqb_spec x ""). Qed.

Lemma text_nonempty v : json_text v <> "".
Proof. destruct (text_head v "") as (c & t & Ht & _). rewrite str_app_nil_r in Ht. by rewrite Ht. Qed.

(** C15. The resume form with the text of a JSON object is the engine's
    [resume] with that object's pairs as the updates (a later duplicate
    key winning): it shows "Workflow <id> resumed by <actor>" with the
    summary [resume] returns, or the exception [resume] raises, and leaves
    the store [resume] leaves, when its integers have at most 4300 digits. *)
Theorem ui_resume_object rid a ps w :
  wf_value (VDict ps) = true -> small_ints (VDict ps) = true ->
  ui_resume rid a (json_text (VDict ps)) w =
    match engine_resume rid a (list_to_map (rev ps)) w with
    | (inr out, w') => (UiSuccess ("Workflow " ++ rid ++ " resumed by " ++ a) out, w')
    | (inl e, w') => (UiException e, w')
    end.
Proof.
  intros Hw Hs. unfold ui_resume. rewrite truthy_nonempty by apply text_nonempty.
  rewrite (loads_text _ Hw Hs). reflexivity.
Qed.

Lemma ui_resume_object_witness :
  wf_value (VDict [("validate", VStr "yes")]) = true /\ small_ints (VDict [("validate", VStr "yes")]) = true /\
  ui_resume "id1" "u2" (json_text (VDict [("validate", VStr "yes")])) w_started =
    match engine_resume "id1" "u2" (list_to_map (rev [("validate", VStr "yes")])) w_started with
    | (inr out, w') => (UiSuccess ("Workflow " ++ "id1" ++ " resumed by " ++ "u2") out, w')
    | (inl e, w') => (UiException e, w')
    end.
Proof.
  assert (H : wf_value (VDict [("validate", VStr "yes")]) = true) by (vm_compute; reflexivity).
  assert (H' : small_ints (VDict [("validate", VStr "yes")]) = true) by (vm_compute; reflexivity).
  split; [exact H|split; [exact H'|exact (ui_resume_object "id1" "u2" _ w_started H H')]].
Defined.

(** C25. The resume form for an identifier the store does not hold
    changes nothing: it shows "Invalid JSON in updates field." when the
    text is not JSON, and otherwise the [ValueError] "No workflow <id>"
    escapes the handler, whatever the JSON value typed. *)
Theorem ui_resume_unknown rid a t w :
  w_state w !! rid = None ->
  ui_resume rid a t w =
    (match json_loads (if truthy_str (Some t) then t else "{}") with
     | inl JSONDecodeError => UiError "Invalid JSON in updates field."
     | inl e => UiException (json_exception e)
     | inr _ => UiException (ENotFound rid)
     end, w).
Proof.
  intros Hs. unfold ui_resume. destruct (json_loads _) as [[]|u]; [done..|].
  by rewrite resume_json_unknown.
Qed.

Lemma ui_resume_unknown_witness :
  w_state w_started !! "id2" = None /\
  ui_resume "id2" "u2" validate_yes w_started = (UiException (ENotFound "id2"), w_started).
Proof.
  assert (H : w_state w_started !! "id2" = None) by (vm_compute; reflexivity).
  split; [exact H|]. rewrite (ui_resume_unknown "id2" "u2" validate_yes w_started H). vm_compute. reflexivity.
Defined.

(** ** Sessions *)

(** A failing update is half applied.  Typing
    [[["validate", "yes"], 5]] into the updates field raises [TypeError]
    at the element [5], and Streamlit shows it; yet [bag.update] had
    already stored [validate = "yes"] and no [resume_command] was logged.
    The next submission with an empty field ([{}]) then moves the
    instance on to the claim details as if the failed submission had
    answered the validation prompt, and the log shows one resume command
    for the two submissions. *)
Theorem ui_failed_update_applies :
  let acts := [UStart "id1" "C1" "u1"; UResume "id1" "u2" pairs_then_int] in
  fst (ui_session acts empty_world) =
    [UiSuccess "Workflow id1 started" (SumPaused "Validate request? (yes/no)" "id1");
     UiException (ETypeError "cannot convert dictionary update sequence element #1 to a sequence")] /\
  (bag_of (snd (ui_session acts empty_world)) "id1" ≫= lookup "validate") = Some (VStr "yes") /\
  map ev_event (history (snd (ui_session acts empty_world)) "id1") = ["created"; "paused"] /\
  ui_session [UResume "id1" "u3" ""] (snd (ui_session acts empty_world)) =
    ([UiSuccess "Workflow id1 resumed by u3" (SumPaused "Provide claim details" "id1")],
     snd (ui_session (acts ++ [UResume "id1" "u3" ""]) empty_world)) /\
  map ev_event (history (snd (ui_session (acts ++ [UResume "id1" "u3" ""]) empty_world)) "id1") =
    ["created"; "paused"; "resume_command"; "paused"].
Proof. split_and!; vm_compute; reflexivity. Qed.

(** A claim-details value that Python finds falsy stalls the
    instance: [1e-400] parses to a float that underflows to [0.0], so
    Gather Claim Info neither prompts nor moves on and the summary is
    [in_progress]; [1e-300] is a non-zero float and the run goes on to the
    decision prompt. *)
Theorem ui_tiny_float_stalls :
  let acts x := [UStart "id1" "C1" "u1"; UResume "id1" "u2" validate_yes; UResume "id1" "u3" (claim_details_text x)] in
  last (fst (ui_session (acts "1e-400") empty_world)) =
    Some (UiSuccess "Workflow id1 resumed by u3" (SumInProgress "Gather Claim Info" "id1")) /\
  last (fst (ui_session (acts "1e-300") empty_world)) =
    Some (UiSuccess "Workflow id1 resumed by u3" (SumPaused "Decision? cancel / hold / suppress" "id1")).
Proof. split; vm_compute; reflexivity. Qed.

(** ** The limits of [json.loads] in the form *)

Lemma int_entry_text_nonempty k z : int_entry_text k z <> "".
Proof. unfold int_entry_text. by rewrite !str_app_assoc. Qed.

(** C16. The form and [int()]'s digit limit, for every identifier, key
    and integer: the text [{"k": <z>}] resumes the instance with
    [k = z] when [z] has at most 4300 digits; with more, [int()] raises
    [ValueError], which the form does not catch (it catches only
    [JSONDecodeError]): Streamlit shows the exception and the store is
    unchanged. *)
Theorem ui_int_limit rid a k z w :
  ui_resume rid a (int_entry_text k z) w =
    if (int_max_str_digits <? int_digits z)%nat
    then (UiException (EValueError (int_limit_message (int_digits z))), w)
    else match engine_resume rid a {[k := VInt z]} w with
         | (inr out, w') => (UiSuccess ("Workflow " ++ rid ++ " resumed by " ++ a) out, w')
         | (inl e, w') => (UiException e, w')
         end.
Proof.
  unfold ui_resume. rewrite truthy_nonempty by apply int_entry_text_nonempty.
  rewrite loads_int_entry. by destruct (_ <? _)%nat.
Qed.

(** C9. A failed update is half applied, and the form shows the
    exception.  When the typed text is a list that starts with
    key/value pairs and then has an element that is not a sequence,
    [bag.update] raises [TypeError] at that element, which the form does
    not catch; the pairs before it are already in the stored state (the
    store holds the dict [resume] mutates), while the record, the index
    and the event log are untouched: no [resume_command] records them. *)
Theorem ui_resume_partial rid a t s good bad rest w :
  w_state w !! rid = Some s -> seq_items bad = None ->
  json_loads (if truthy_str (Some t) then t else "{}") = inr (VList (map pair_value good ++ bad :: rest)) ->
  ui_resume rid a t w =
    (UiException (ETypeError ("cannot convert dictionary update sequence element #" ++ show_nat (length good) ++
                              " to a sequence")),
     set_w_state w (<[rid := set_bag s (insert_all (es_bag s) good)]> (w_state w))).
Proof. intros Hs Hbad Ht. unfold ui_resume. rewrite Ht. by rewrite (resume_json_partial rid a s good bad rest w Hs Hbad). Qed.

Lemma ui_resume_partial_witness :
  exists s, w_state w_started !! "id1" = Some s /\ seq_items (VInt 5) = None /\
  json_loads (if truthy_str (Some pairs_then_int) then pairs_then_int else "{}") =
    inr (VList (map pair_value [("validate", VStr "yes")] ++ [VInt 5])) /\
  ui_resume "id1" "u2" pairs_then_int w_started =
    (UiException (ETypeError ("cannot convert dictionary update sequence element #" ++ show_nat 1 ++ " to a sequence")),
     set_w_state w_started (<["id1" := set_bag s (insert_all (es_bag s) [("validate", VStr "yes")])]> (w_state w_started))).
Proof.
  destruct (w_state w_started !! "id1") as [s|] eqn:E.
  - assert (Hb : seq_items (VInt 5) = None) by reflexivity.
    assert (Ht : json_loads (if truthy_str (Some pairs_then_int) then pairs_then_int else "{}") =
                 inr (VList (map pair_value [("validate", VStr "yes")] ++ [VInt 5]))) by (vm_compute; reflexivity).
    exists s. split_and!; [reflexivity|exact Hb|exact Ht|].
    exact (ui_resume_partial "id1" "u2" pairs_then_int s [("validate", VStr "yes")] (VInt 5) [] w_started E Hb Ht).
  - exfalso. vm_compute in E. discriminate E.
Defined.
