(* ===== verification/Process.v ===== *)
(** * Process: the dashboard and the REST server in one process

    src/ui.py is the program that runs: every rerun of the Streamlit
    script (one per page load, form submission or click on "Refresh
    Workflows", lines 23-24) executes it from the top.  On the first run of
    a browser session ([st.session_state] has no [api_started], lines
    13-15) it starts uvicorn with the FastAPI app of src/api.py in a
    daemon thread; the first such thread binds port 8000 and serves
    requests from then on, and the thread of any later session fails to
    bind and ends.  Both sides act on the one engine of
    src/workflow_backend.py.  A rerun then handles the form submitted, if
    any (lines 68-96), and renders the listing (lines 98-121).

    [Proc] is the process: the browser sessions that have run the script,
    whether a server is listening, and the store.  A request is handled
    as a whole, one after the other: the interleaving of the two threads
    inside a call is not modelled (see the header of Prelude).

    [served] is the set of stores the process reaches through start forms
    (with fresh identifiers), resume forms with any text and POSTs with
    any body; the theorems show that it keeps [ClaimEngine.core] and what
    the listing shows there. *)

From S2P Require Import Prelude Model Json Float Bytes Graph ClaimGraph Store Projector Engine ClaimEngine Updates Queries Api ApiBody Ui UiForms.
Open Scope list_scope.
Open Scope string_scope.

Record Proc := mkProc {
  p_sessions : gset nat;
  p_server : bool;
  p_world : World;
}.

(** The process before any page load. *)
Definition proc_init : Proc := mkProc ∅ false empty_world.

(** What reaches the process: a rerun of the script by browser session
    [sid] with the form it submitted, or an HTTP request to the route. *)
Inductive ProcEvent :=
| Rerun (sid : nat) (form : option UiAction)
| ApiCall (iid body : string).

(** What the process answers: the page of a rerun (whether it started an
    API thread, what the form showed, the listing), the answer of the
    server, or a refused connection while nothing listens on the port. *)
Inductive ProcOutput :=
| Page (thread_started : bool) (shown : option UiOutput) (listing : Listing)
| Answer (r : HttpReply)
| Refused.

(** One rerun of src/ui.py: lines 13-15, then the forms, then the
    listing. *)
Definition script_run (api_started : bool) (form : option UiAction) (w : World)
    : bool * option UiOutput * Listing * World :=
  let thread := negb api_started in
  let '(shown, w') :=
    match form with
    | None => (None, w)
    | Some a => let '(o, w1) := ui_submit a w in (Some o, w1)
    end in
  (thread, shown, ui_listing w', w').

Definition proc_step (p : Proc) (e : ProcEvent) : ProcOutput * Proc :=
  match e with
  | Rerun sid form =>
      let '(thread, shown, l, w') := script_run (bool_decide (sid ∈ p_sessions p)) form (p_world p) in
      (Page thread shown l, mkProc ({[sid]} ∪ p_sessions p) (p_server p || thread) w')
  | ApiCall iid body =>
      if p_server p then
        let '(r, w') := post_human_step iid body (p_world p) in
        (Answer r, mkProc (p_sessions p) true w')
      else (Refused, p)
  end.

Fixpoint run_proc (es : list ProcEvent) (p : Proc) : list ProcOutput * Proc :=
  match es with
  | [] => ([], p)
  | e :: es' =>
      let '(o, p1) := proc_step p e in
      let '(os, p2) := run_proc es' p1 in
      (o :: os, p2)
  end.

Definition is_rerun (e : ProcEvent) : bool := match e with Rerun _ _ => true | ApiCall _ _ => false end.

(** ** The server *)

Lemma run_proc_app es1 es2 p :
  run_proc (app es1 es2) p =
    (app (fst (run_proc es1 p)) (fst (run_proc es2 (snd (run_proc es1 p)))),
     snd (run_proc es2 (snd (run_proc es1 p)))).
Proof.
  revert p. induction es1 as [|e es1 IH]; intros p; cbn [app run_proc].
  - apply surjective_pairing.
  - destruct (proc_step p e) as [o p1]. rewrite IH.
    destruct (run_proc es1 p1) as [os1 q]. cbn [fst snd]. by destruct (run_proc es2 q).
Qed.

(** A session has run the script only if a server was started. *)
Definition server_ok (p : Proc) : Prop := p_sessions p = ∅ \/ p_server p = true.

Lemma proc_step_server p e :
  server_ok p -> p_server (snd (proc_step p e)) = p_server p || is_rerun e /\ server_ok (snd (proc_step p e)).
Proof.
  unfold proc_step, script_run, server_ok. intros Hok; destruct e as [sid form|iid body]; cbn [is_rerun].
  - assert (Ht : p_server p || negb (bool_decide (sid ∈ p_sessions p)) = p_server p || true).
    { destruct Hok as [He|Hs]; [rewrite He, bool_decide_eq_false_2 by set_solver|rewrite Hs]; done. }
    destruct form as [a|]; [destruct (ui_submit a (p_world p))|]; cbn [snd p_server p_sessions];
      rewrite Ht, orb_true_r; split; auto.
  - destruct (p_server p) eqn:E; [destruct (post_human_step iid body (p_world p))|]; cbn; rewrite ?E, ?orb_false_r; auto.
Qed.

Lemma run_proc_server es p :
  server_ok p -> p_server (snd (run_proc es p)) = p_server p || existsb is_rerun es /\ server_ok (snd (run_proc es p)).
Proof.
  revert p. induction es as [|e es IH]; intros p Hp; cbn [run_proc existsb].
  - by rewrite orb_false_r.
  - destruct (proc_step_server p e Hp) as [Hs Hok]. destruct (proc_step p e) as [o p1] eqn:E.
    cbn [snd] in Hs, Hok. destruct (IH p1 Hok) as [Hs' Hok']. destruct (run_proc es p1) as [os p2].
    cbn [snd] in *. split; [|done]. by rewrite Hs', Hs, orb_assoc.
Qed.

(** The REST server answers from the first page load on: a request
    to the human-step route is refused (nothing listens on port 8000)
    exactly when no browser session has run the dashboard's script
    before it; after one rerun, every later request is answered. *)
Theorem proc_api_available pre iid body :
  last (fst (run_proc (app pre [ApiCall iid body]) proc_init)) = Some Refused <-> existsb is_rerun pre = false.
Proof.
  rewrite run_proc_app. destruct (run_proc_server pre proc_init (or_introl eq_refl)) as [Hs _].
  cbn [p_server proc_init orb] in Hs. destruct (run_proc pre proc_init) as [os q]. cbn [fst snd] in *.
  cbn [run_proc proc_step]. rewrite Hs.
  destruct (existsb is_rerun pre).
  - destruct (post_human_step iid body (p_world q)) as [r w']. cbn. rewrite last_snoc. split; [discriminate|done].
  - cbn. rewrite last_snoc. done.
Qed.

(** ** API threads *)

Definition rerun_sid (e : ProcEvent) : option nat := match e with Rerun sid _ => Some sid | ApiCall _ _ => None end.

Definition started_thread (o : ProcOutput) : bool := match o with Page true _ _ => true | _ => false end.

Lemma proc_step_sessions p e :
  (if started_thread (fst (proc_step p e)) then 1 else 0) + size (p_sessions p) = size (p_sessions (snd (proc_step p e))) /\
  p_sessions (snd (proc_step p e)) = list_to_set (option_list (rerun_sid e)) ∪ p_sessions p.
Proof.
  unfold proc_step, script_run. destruct e as [sid form|iid body]; cbn [rerun_sid option_list list_to_set].
  - assert (Hs : list_to_set (option_list (Some sid)) ∪ p_sessions p = {[sid]} ∪ p_sessions p) by set_solver.
    rewrite Hs. destruct form as [a|]; [destruct (ui_submit a (p_world p))|];
      cbn [fst snd p_sessions started_thread]; (split; [|done]);
      destruct (decide (sid ∈ p_sessions p)) as [Hin|Hin];
      rewrite ?bool_decide_eq_true_2, ?bool_decide_eq_false_2 by done; cbn [negb].
    all: first [ by rewrite subseteq_union_1_L by set_solver
               | rewrite size_union by set_solver; by rewrite size_singleton ].
  - destruct (p_server p); [destruct (post_human_step iid body (p_world p))|]; cbn; split; set_solver.
Qed.

(** C26. Every browser session starts its own API thread: over any
    sequence of page loads and requests, the reruns that start a thread
    are exactly the first rerun of each session, so as many threads are
    started as there are sessions, although only the first can bind the
    port ([st.session_state] is per session, not per process). *)
Theorem proc_threads_per_session es :
  length (List.filter started_thread (fst (run_proc es proc_init))) = size (list_to_set (omap rerun_sid es) : gset nat) /\
  p_sessions (snd (run_proc es proc_init)) = list_to_set (omap rerun_sid es).
Proof.
  enough (H : forall p, length (List.filter started_thread (fst (run_proc es p))) + size (p_sessions p) =
                          size (p_sessions (snd (run_proc es p))) /\
                        p_sessions (snd (run_proc es p)) = list_to_set (omap rerun_sid es) ∪ p_sessions p).
  { destruct (H proc_init) as [H1 H2]. cbn [p_sessions proc_init] in *. rewrite size_empty, Nat.add_0_r in H1.
    rewrite union_empty_r_L in H2. by rewrite H1, H2. }
  induction es as [|e es IH]; intros p; cbn [run_proc omap].
  - cbn. split; [lia|set_solver].
  - destruct (proc_step_sessions p e) as [H1 H2]. destruct (proc_step p e) as [o p1].
    destruct (IH p1) as [H3 H4]. destruct (run_proc es p1) as [os p2]. cbn [fst snd filter] in *.
    split.
    + cbn [List.filter]. destruct (started_thread o); cbn [length]; lia.
    + rewrite H4, H2. cbn [list_omap]. destruct (rerun_sid e); cbn; set_solver.
Qed.

(** ** The dashboard and the API on one store *)

Definition kv_text (k v : string) : string := quote k ++ ":" ++ v.

(** Every answer of the happy path in one object. *)
Definition answer_all : string :=
  "{" ++ kv_text "validate" (quote "yes") ++ "," ++ kv_text "claim_details" (quote "x") ++ "," ++
  kv_text "process_decision" (quote "suppress") ++ "," ++ kv_text "proceed_fulfill" (quote "yes") ++ "}".

(** ** The worlds the process reaches *)

(** One request that changes the store: the start form with a fresh
    [uuid4()], the resume form with any text, or a POST to the human-step
    route with any body. *)
Inductive served_step : World -> World -> Prop :=
| served_start w iid cid u o w' :
    iid ∉ w_index w -> ui_start iid cid u w = (o, w') -> served_step w w'
| served_resume w rid a t o w' : ui_resume rid a t w = (o, w') -> served_step w w'
| served_api w iid body r w' : post_human_step iid body w = (r, w') -> served_step w w'.

Definition served (w : World) : Prop := rtc served_step empty_world w.

Lemma core_ui_start w iid cid u o w' :
  core w -> iid ∉ w_index w -> ui_start iid cid u w = (o, w') -> core w'.
Proof.
  intros Hc Hf. unfold ui_start. destruct (_ || _); [by intros [= _ <-]|].
  destruct (engine_start iid cid u w) as [r w1] eqn:E.
  intros Ho. assert (w1 = w') as <- by (destruct r as [|[]]; congruence).
  exact (proj1 (core_start w iid cid u r w1 Hc Hf E)).
Qed.

Lemma core_ui_resume w rid a t o w' : core w -> ui_resume rid a t w = (o, w') -> core w'.
Proof.
  intros Hc. unfold ui_resume. destruct (json_loads _) as [[]|u]; [by intros [= _ <-]..|].
  destruct (resume_json rid a u w) as [r w1] eqn:E.
  intros Ho. assert (w1 = w') as <- by (destruct r; congruence).
  exact (core_resume_json w rid a u r w1 Hc E).
Qed.

Lemma core_post w iid body r w' : core w -> post_human_step iid body w = (r, w') -> core w'.
Proof.
  intros Hc. unfold post_human_step. destruct (String.eqb _ _); [by intros [= _ <-]|].
  destruct (json_loads_bytes body) as [[]|v]; [by intros [= _ <-]..|].
  destruct (validate_StepInput v) as [errs|si]; [by intros [= _ <-]|].
  unfold provide_human_input, get_meta. destruct (w_meta w !! iid); [|by intros [= _ <-]].
  destruct (step_allowed _); [|by intros [= _ <-]].
  destruct (engine_resume iid (actor si) _ w) as [res w1] eqn:E.
  intros [= _ <-]. exact (core_resume _ _ _ _ _ _ Hc E).
Qed.

Lemma core_served_step w w' : served_step w w' -> core w -> core w'.
Proof.
  intros [w0 iid cid u o w1 Hf E|w0 rid a t o w1 E|w0 iid body r w1 E] Hc.
  - exact (core_ui_start _ _ _ _ _ _ Hc Hf E).
  - exact (core_ui_resume _ _ _ _ _ _ Hc E).
  - exact (core_post _ _ _ _ _ Hc E).
Qed.

Lemma rtc_core w w' : rtc served_step w w' -> core w -> core w'.
Proof. intros Hr. induction Hr as [|x y z Hxy _ IH]; [done|]. intros Hc. exact (IH (core_served_step _ _ Hxy Hc)). Qed.

Lemma served_core w : served w -> core w.
Proof. intros Hs. exact (rtc_core _ _ Hs core_empty). Qed.

(** The store after the start form for ["id1"]. *)
Definition w_ui : World := snd (ui_start "id1" "C1" "u1" empty_world).

Lemma served_ui : served w_ui.
Proof. apply rtc_once. eapply (served_start _ "id1" "C1" "u1" _ _ _ (surjective_pairing _)). Unshelve. set_solver. Qed.

(** C11. The dashboard and the API keep the store consistent.  In every
    world the process reaches through start forms (with fresh
    identifiers), resume forms with any text (including updates that are
    stored half-applied) and POSTs with any body: the index has no
    duplicates and names exactly the instances with a state and exactly
    those with a record; every record's status is [in_progress],
    [completed] or [aborted], never ["paused"]; no history has two
    consecutive entries for the same node; and
    [GET /workflow/pending-human] answers 200 with the empty list [[]]. *)
Theorem served_consistent w :
  served w ->
  NoDup (w_index w) /\
  (forall k, (k ∈ w_index w <-> is_Some (w_state w !! k)) /\ (k ∈ w_index w <-> is_Some (w_meta w !! k))) /\
  (forall k m, w_meta w !! k = Some m ->
     im_status m ∈ statuses /\ im_status m <> status_paused /\ no_stutter (history_nodes m)) /\
  pending_human_steps w = [] /\ (forall iso, get_pending_human iso w = Reply 200 "[]").
Proof.
  intros Hs. pose proof (served_core w Hs) as Hc. split_and!.
  - apply Hc.
  - intros k. split; symmetry; [apply (core_state_index _ Hc)|apply (core_meta_index _ Hc)].
  - intros k m Hk. pose proof (core_meta_status _ _ _ Hc Hk).
    split_and!; [done|by apply status_not_paused|exact (core_no_stutter _ Hc _ _ Hk)].
  - unfold pending_human_steps. by rewrite list_paused_empty.
  - intros iso. unfold get_pending_human, pending_human_steps. by rewrite list_paused_empty.
Qed.

Lemma served_consistent_witness :
  served w_ui /\ NoDup (w_index w_ui) /\ pending_human_steps w_ui = [] /\
  get_pending_human (fun _ => "2025-01-01T00:00:00+00:00") w_ui = Reply 200 "[]".
Proof.
  pose proof (served_consistent w_ui served_ui) as (H1 & _ & _ & H4 & H5).
  split_and!; [exact served_ui|exact H1|exact H4|exact (H5 _)].
Defined.

(** The dashboard's listing in every world the process reaches:
    "No workflows yet." exactly when no instance was started; otherwise
    one panel per indexed instance, each showing a non-empty current
    step and a status that is never "paused". *)
Theorem served_listing w :
  served w ->
  (ui_listing w = NoWorkflows <-> w_index w = []) /\
  (forall ps, ui_listing w = Panels ps ->
     length ps = length (w_index w) /\
     Forall (fun p => p_last_node p <> "" /\ p_status p <> status_paused) ps).
Proof.
  intros Hs. pose proof (served_core w Hs) as Hc.
  assert (Hlen : length (list_instances no_filters w) = length (w_index w)).
  { unfold list_instances. rewrite (sort_desc_perm _). apply collect_length.
    intros k Hk. apply (core_meta_index _ Hc) in Hk as [m Hm]. by exists m. }
  assert (Hel : forall m, m ∈ list_instances no_filters w -> im_status m <> status_paused).
  { intros m Hm. unfold list_instances in Hm. rewrite (sort_desc_perm _), collect_elem in Hm.
    destruct Hm as (k & _ & Hk & _). exact (status_not_paused _ (core_meta_status _ _ _ Hc Hk)). }
  unfold ui_listing. destruct (list_instances no_filters w) as [|m ms] eqn:E.
  - split; [split; [|done]; intros _; by destruct (w_index w)|]. intros ps [=].
  - split; [split; [done|]; intros Hi; rewrite Hi in Hlen; discriminate|].
    intros ps Hps. injection Hps as Hps. change (panel_of m :: map panel_of ms) with (map panel_of (m :: ms)) in Hps.
    subst ps. rewrite length_map. split; [done|].
    apply Forall_forall. intros p Hp. apply list_elem_of_In, in_map_iff in Hp as (m' & <- & Hm').
    destruct (ui_meta_last_node m') as (n & Hn & Hne). unfold panel_of. cbn [p_last_node p_status].
    rewrite Hn. split; [done|]. unfold ui_meta. destruct (truthy_str _); cbn; apply Hel, list_elem_of_In; done.
Qed.

Lemma served_listing_witness : served w_ui /\ ui_listing w_ui <> NoWorkflows.
Proof.
  split; [exact served_ui|].
  intros H. apply (served_listing _ served_ui) in H. vm_compute in H. discriminate H.
Defined.

(** ** Every instance can be finished *)

Definition answer_all_value : Value :=
  VDict [("validate", VStr "yes"); ("claim_details", VStr "x"); ("process_decision", VStr "suppress");
         ("proceed_fulfill", VStr "yes")].

Lemma answer_all_loads : json_loads answer_all = inr answer_all_value.
Proof. vm_compute. reflexivity. Qed.

Lemma answer_all_happy : happy_answers (list_to_map (rev [("validate", VStr "yes"); ("claim_details", VStr "x");
  ("process_decision", VStr "suppress"); ("proceed_fulfill", VStr "yes")])).
Proof. split_and!; [vm_compute; reflexivity|exists (VStr "x"); split|..]; vm_compute; reflexivity. Qed.

(** C12. Liveness: whatever happened before (a stall on an unmatched
    answer, a half-applied update, an abort, a completion), in every
    world the process reaches each started instance can be finished by
    one submission of the resume form with the four answers of the happy
    path; it shows the completed summary and the record is [completed]. *)
Theorem served_can_complete w iid a :
  served w -> iid ∈ w_index w ->
  exists w', ui_resume iid a answer_all w =
               (UiSuccess ("Workflow " ++ iid ++ " resumed by " ++ a)
                  (SumCompleted "Fulfill Case and Detect" (Some (VStr "Fulfilled and detection complete.")) iid), w') /\
             (im_status <$> w_meta w' !! iid) = Some status_completed.
Proof.
  intros Hs Hin.
  destruct (resume_happy w iid a _ (served_core w Hs) Hin answer_all_happy) as (w' & Hrun & Hst).
  exists w'. split; [|done]. unfold ui_resume.
  assert (Ht : truthy_str (Some answer_all) = true) by (vm_compute; reflexivity).
  rewrite Ht, answer_all_loads. cbn [resume_json answer_all_value]. by rewrite Hrun.
Qed.

Lemma served_can_complete_witness :
  served w_ui /\ "id1" ∈ w_index w_ui /\
  exists w', ui_resume "id1" "u9" answer_all w_ui =
               (UiSuccess ("Workflow " ++ "id1" ++ " resumed by " ++ "u9")
                  (SumCompleted "Fulfill Case and Detect" (Some (VStr "Fulfilled and detection complete.")) "id1"), w') /\
             (im_status <$> w_meta w' !! "id1") = Some status_completed.
Proof.
  assert (Hin : "id1" ∈ w_index w_ui).
  { assert (H : w_index w_ui = ["id1"]) by (vm_compute; reflexivity). rewrite H. by apply list_elem_of_singleton. }
  split; [exact served_ui|]. split; [exact Hin|]. exact (served_can_complete w_ui "id1" "u9" served_ui Hin).
Defined.

(** ** The allow-list and the runs behind it *)

(** C18. The allow-list of the human-step route guards only the step an
    instance stands at.  In every world the dashboard and the API reach,
    an instance whose recorded step is Validate Request or Gather Claim
    Info, whatever its status ([completed] and [aborted] included), is
    resumed by a POST, and updates that carry the four answers of the
    happy path run it, in that one call, through Identify Accounts and
    Apply Temporary Suppression (steps the route refuses) to Fulfill Case
    and Detect: the call answers the completed summary and the record is
    [completed]. *)
Theorem api_runs_past_allow_list w iid a up m :
  served w -> w_meta w !! iid = Some m -> step_allowed (im_last_node m) = true -> happy_answers up ->
  exists w', provide_human_input iid a up w =
               (inr (iid, SumCompleted "Fulfill Case and Detect" (Some (VStr "Fulfilled and detection complete.")) iid), w') /\
             (im_status <$> w_meta w' !! iid) = Some status_completed.
Proof.
  intros Hs Hm Hok Hup. pose proof (served_core w Hs) as Hc.
  assert (Hin : iid ∈ w_index w) by (apply (core_meta_index _ Hc); by rewrite Hm).
  destruct (resume_happy w iid a up Hc Hin Hup) as (w' & Hrun & Hst).
  exists w'. unfold provide_human_input, get_meta. rewrite Hm, Hok, Hrun. by split.
Qed.

Lemma api_runs_past_allow_list_witness :
  exists m, served w_ui /\ w_meta w_ui !! "id1" = Some m /\ step_allowed (im_last_node m) = true /\
  happy_answers (list_to_map (rev [("validate", VStr "yes"); ("claim_details", VStr "x");
                                   ("process_decision", VStr "suppress"); ("proceed_fulfill", VStr "yes")])) /\
  exists w', provide_human_input "id1" "u9" (list_to_map (rev [("validate", VStr "yes"); ("claim_details", VStr "x");
                                   ("process_decision", VStr "suppress"); ("proceed_fulfill", VStr "yes")])) w_ui =
               (inr ("id1", SumCompleted "Fulfill Case and Detect" (Some (VStr "Fulfilled and detection complete.")) "id1"), w') /\
             (im_status <$> w_meta w' !! "id1") = Some status_completed.
Proof.
  destruct (w_meta w_ui !! "id1") as [m|] eqn:E.
  - assert (Hok : step_allowed (im_last_node m) = true).
    { assert (H : im_last_node <$> w_meta w_ui !! "id1" = Some (Some "Validate Request")) by (vm_compute; reflexivity).
      rewrite E in H. injection H as ->. reflexivity. }
    exists m. split_and!; [exact served_ui|reflexivity|exact Hok|exact answer_all_happy|].
    exact (api_runs_past_allow_list w_ui "id1" "u9" _ m served_ui E Hok answer_all_happy).
  - exfalso. vm_compute in E. discriminate E.
Defined.
